(** * generate_database.py: KANJIDIC2 XML to SQLite

    A shallow embedding of the script [generate_database.py] and the proofs of
    the properties its specification states about it.

    The script is a straight-line program over three pieces of outside state:
    the file system, the console and one SQLite connection.  It is embedded
    as a computation in a state-and-exception monad [M] over [State]; the
    statements the script sends to SQLite are interpreted by a small model of
    the engine ([sql_exec]) that knows tables, column declarations, NOT NULL
    and PRIMARY KEY constraints and rowid assignment.  The parsed XML document
    is a tree of [Element]s with the three accessors the script uses
    ([find], [findall], [get]). *)

From Stdlib Require Import ZArith String Ascii.
From stdpp Require Import base option list gmap strings pretty.

Open Scope string_scope.
Open Scope Z_scope.
Open Scope list_scope.

(** ** xml.etree.ElementTree *)

(** An element as ElementTree exposes it: its tag, its attribute dictionary,
    the text before its first child ([None] when there is none) and its
    children in document order. *)
Local Unset Elimination Schemes.
Inductive Element : Type :=
  mkElement {
    tag : string;
    attrib : gmap string string;
    text : option string;
    children : list Element
  }.
Local Set Elimination Schemes.

(** [e.findall(t)]: the direct children of [e] whose tag is [t], in document
    order. *)
Definition findall (t : string) (e : Element) : list Element :=
  filter (λ c, tag c = t) (children e).

(** [e.find(t)]: the first such child, [None] when there is none. *)
Definition find (t : string) (e : Element) : option Element :=
  head (findall t e).

(** [e.get(k)]: the value of attribute [k], [None] when the element does not
    carry it. *)
Definition get (e : Element) (k : string) : option string :=
  attrib e !! k.

(** ** Python values and exceptions *)

(** The values the script binds to the [?] place holders of its statements. *)
Inductive pyval : Type :=
  | PyNone
  | PyInt (z : Z)
  | PyStr (s : string).

Definition of_text (t : option string) : pyval :=
  match t with Some s => PyStr s | None => PyNone end.

Definition of_int (n : option Z) : pyval :=
  match n with Some z => PyInt z | None => PyNone end.

Inductive exn : Type :=
  | SystemExit (code : Z)
  | IndexError
  | TypeError
  | ValueError
  | OverflowError
  | FileNotFoundError
  | IsADirectoryError
  | ParseError
  | ProgrammingError
  | OperationalError (msg : string)
  | IntegrityError (msg : string).

Inductive res (A : Type) : Type :=
  | Ok (a : A)
  | Raise (e : exn).
Arguments Ok {A} a.
Arguments Raise {A} e.

(** ** SQLite

    The part of the engine the script uses: tables with declared columns,
    rows as lists of values, the NOT NULL and PRIMARY KEY checks of INSERT,
    and the rowid.  Every value the script stores goes into a column of its
    own type, so no conversion between types takes place.  The internal
    table in which SQLite keeps the AUTOINCREMENT counters is left out, and
    so are the indexes SQLite makes by itself for a primary key that is not
    the rowid, and failures of the storage (a full disk, missing
    permissions).  A database here has the tables and indexes the script
    names; the theorems say which of these are there, not that a real file
    has no others. *)

Inductive value : Type :=
  | Null
  | Integer (z : Z)
  | Text (s : string).

Global Instance value_eq_dec : EqDecision value.
Proof. solve_decision. Defined.

(** A column as declared by CREATE TABLE, with the flags that
    [PRAGMA table_info] reports. *)
Record column : Type := mkColumn {
  cname : string;
  ctype : string;
  notnull : bool;
  pk : bool;
  autoincrement : bool;
  dflt : value
}.

Record table : Type := mkTable {
  columns : list column;
  rows : list (list value)
}.

Record DB : Type := mkDB {
  tables : gmap string table;
  indexes : gmap string (string * string)
}.

Definition empty_db : DB := {| tables := ∅; indexes := ∅ |}.

(** The rows of a table, none when the table does not exist. *)
Definition table_rows (name : string) (db : DB) : list (list value) :=
  match tables db !! name with
  | Some t => rows t
  | None => []
  end.

Inductive stmt : Type :=
  | CreateTable (name : string) (cols : list column)
  | CreateIndex (name tbl col : string)
  | InsertInto (tbl : string) (into : option (list string)) (vals : list value).

(** The position of a name in a list of names. *)
Fixpoint index_of (x : string) (l : list string) : option nat :=
  match l with
  | [] => None
  | y :: l' => if decide (x = y) then Some 0%nat else S <$> index_of x l'
  end.

(** The value an INSERT supplies for column [c]: with a column list, the
    value at the column's position in that list, the column's default when it
    is not listed. *)
Definition supplied (into : list string) (vals : list value) (c : column) : value :=
  match index_of (cname c) into with
  | Some i => default Null (vals !! i)
  | None => dflt c
  end.

(** The column [i] of a row. *)
Definition cell (i : nat) (r : list value) : value := default Null (r !! i).

Definition as_rowid (v : value) : Z :=
  match v with Integer z => z | _ => 0 end.

(** A column declared INTEGER PRIMARY KEY is the table's rowid. *)
Definition is_rowid (c : column) : bool :=
  pk c && bool_decide (ctype c = "INTEGER").

(** The rowid SQLite picks for a row that does not give one: one more than
    the largest in the table (nothing is ever deleted here, so AUTOINCREMENT
    picks the same). *)
Definition next_rowid (i : nat) (rs : list (list value)) : Z :=
  foldr Z.max 0 (as_rowid <$> (cell i <$> rs)) + 1.

(** The constraint checks of one column, in the order SQLite makes them:
    rowid assignment, NOT NULL, then uniqueness of the primary key. *)
Definition check_cell (tname : string) (rs : list (list value))
    (i : nat) (c : column) (v : value) : res value :=
  let v := if is_rowid c && bool_decide (v = Null)
           then Integer (next_rowid i rs) else v in
  if notnull c && bool_decide (v = Null)
  then Raise (IntegrityError ("NOT NULL constraint failed: " +:+ tname +:+ "." +:+ cname c))
  else if pk c && bool_decide (v ≠ Null) && bool_decide (v ∈ cell i <$> rs)
  then Raise (IntegrityError ("UNIQUE constraint failed: " +:+ tname +:+ "." +:+ cname c))
  else Ok v.

Fixpoint check_row (tname : string) (rs : list (list value))
    (i : nat) (cs : list column) (vs : list value) : res (list value) :=
  match cs, vs with
  | [], _ => Ok []
  | c :: cs', v :: vs' =>
      match check_cell tname rs i c v with
      | Raise e => Raise e
      | Ok v' =>
          match check_row tname rs (S i) cs' vs' with
          | Raise e => Raise e
          | Ok r => Ok (v' :: r)
          end
      end
  | _ :: _, [] => Raise (OperationalError "too few values")
  end.

Definition insert_row (tname : string) (t : table)
    (into : option (list string)) (vals : list value) : res table :=
  let cs := columns t in
  match into with
  | None =>
      if decide (length vals = length cs) then
        match check_row tname (rows t) 0 cs vals with
        | Raise e => Raise e
        | Ok r => Ok {| columns := cs; rows := rows t ++ [r] |}
        end
      else Raise (OperationalError ("table " +:+ tname +:+ " has a different number of columns"))
  | Some names =>
      if decide (length vals = length names) then
        if forallb (λ n, bool_decide (n ∈ cname <$> cs)) names then
          match check_row tname (rows t) 0 cs (supplied names vals <$> cs) with
          | Raise e => Raise e
          | Ok r => Ok {| columns := cs; rows := rows t ++ [r] |}
          end
        else Raise (OperationalError ("table " +:+ tname +:+ " has no such column"))
      else Raise (OperationalError "values for a different number of columns")
  end.

(** One statement against a database. *)
Definition sql_exec (st : stmt) (db : DB) : res DB :=
  match st with
  | CreateTable name cols =>
      match tables db !! name with
      | Some _ => Raise (OperationalError ("table " +:+ name +:+ " already exists"))
      | None =>
          Ok {| tables := <[name := {| columns := cols; rows := [] |}]> (tables db);
                indexes := indexes db |}
      end
  | CreateIndex name tbl col =>
      match indexes db !! name, tables db !! tbl with
      | Some _, _ => Raise (OperationalError ("index " +:+ name +:+ " already exists"))
      | None, None => Raise (OperationalError ("no such table: " +:+ tbl))
      | None, Some t =>
          if bool_decide (col ∈ cname <$> columns t)
          then Ok {| tables := tables db; indexes := <[name := (tbl, col)]> (indexes db) |}
          else Raise (OperationalError ("no such column: " +:+ col))
      end
  | InsertInto tbl into vals =>
      match tables db !! tbl with
      | None => Raise (OperationalError ("no such table: " +:+ tbl))
      | Some t =>
          match insert_row tbl t into vals with
          | Raise e => Raise e
          | Ok t' => Ok {| tables := <[tbl := t']> (tables db); indexes := indexes db |}
          end
      end
  end.

(** What [PRAGMA table_info(name)] returns for each column: name, declared
    type, the NOT NULL flag and the primary-key flag. *)
Definition table_info (name : string) (db : DB) : list (string * string * Z * Z) :=
  match tables db !! name with
  | Some t =>
      (λ c, (cname c, ctype c, (if notnull c then 1 else 0), (if pk c then 1 else 0)))
        <$> columns t
  | None => []
  end.

(** Binding a Python value to a place holder.  An integer that does not fit
    SQLite's 64-bit INTEGER is refused by the sqlite3 module. *)
Definition bind_param (v : pyval) : res value :=
  match v with
  | PyNone => Ok Null
  | PyStr s => Ok (Text s)
  | PyInt z =>
      if bool_decide (- 2 ^ 63 ≤ z < 2 ^ 63) then Ok (Integer z) else Raise OverflowError
  end.

Fixpoint bind_params (vs : list pyval) : res (list value) :=
  match vs with
  | [] => Ok []
  | v :: vs' =>
      match bind_param v with
      | Raise e => Raise e
      | Ok x =>
          match bind_params vs' with
          | Raise e => Raise e
          | Ok xs => Ok (x :: xs)
          end
      end
  end.

(** ** The world the script runs in

    The file system maps a path, as it is written, to what is there.  Paths
    are relative to the directory the script is started in, where its output
    file [kanjidic2.db] goes.  Two spellings of one file are two paths here,
    and the rollback journal that SQLite keeps beside the database while a
    transaction is open ([kanjidic2.db-journal]) is not in it. *)

(** What a file holds, as far as the script can tell: a well-formed XML
    document (given by its root element), a SQLite database, or anything
    else. *)
Inductive content : Type :=
  | Xml (root : Element)
  | Sqlite (db : DB)
  | Other.

Inductive node : Type :=
  | File (c : content)
  | Dir.

(** The connection: the file it is opened on, the database as the
    connection sees it, and whether a transaction is open.  The file itself
    holds what was last committed. *)
Record Conn : Type := mkConn {
  path : string;
  view : DB;
  in_transaction : bool
}.

(** [journal] is a history variable: the rows stored by the INSERTs executed
    so far, oldest first, each with the name of its table. *)
Record State : Type := mkState {
  fs : gmap string node;
  stdout : list string;
  conn : option Conn;
  journal : list (string * list value)
}.

Definition M (A : Type) : Type := State → res A * State.

Definition ret {A} (a : A) : M A := λ s, (Ok a, s).

Definition bind {A B} (m : M A) (f : A → M B) : M B := λ s,
  match m s with
  | (Ok a, s') => f a s'
  | (Raise e, s') => (Raise e, s')
  end.

Declare Scope M_scope.
Delimit Scope M_scope with M.
Bind Scope M_scope with M.
Notation "x ← y ; z" := (bind y (λ x : _, z))
  (at level 20, y at level 100, z at level 200, only parsing) : M_scope.
Notation "' x ← y ; z" := (bind y (λ x : _, z))
  (at level 20, x pattern, y at level 100, z at level 200, only parsing) : M_scope.
Notation "x ;; z" := (bind x (λ _, z))
  (at level 100, z at level 200, only parsing, right associativity) : M_scope.
Open Scope M_scope.

Definition raise {A} (e : exn) : M A := λ s, (Raise e, s).

Definition nl : string := String (ascii_of_nat 10) "".
Definition cr : string := String (ascii_of_nat 13) "".

(** [print(x, end=e)] *)
Definition print_end (x e : string) : M unit := λ s,
  (Ok (), {| fs := fs s; stdout := stdout s ++ [x +:+ e]; conn := conn s; journal := journal s |}).

Definition print (x : string) : M unit := print_end x nl.

Definition sys_exit {A} (code : Z) : M A := raise (SystemExit code).

Definition os_path_exists (p : string) : M bool := λ s,
  (Ok (bool_decide (is_Some (fs s !! p))), s).

Definition os_remove (p : string) : M unit := λ s,
  match fs s !! p with
  | Some (File _) =>
      (Ok (), {| fs := delete p (fs s); stdout := stdout s; conn := conn s; journal := journal s |})
  | Some Dir => (Raise IsADirectoryError, s)
  | None => (Raise FileNotFoundError, s)
  end.

(** [sqlite3.connect(p)] creates the file when it is not there. *)
Definition sqlite3_connect (p : string) : M unit := λ s,
  match fs s !! p with
  | None =>
      (Ok (), {| fs := <[p := File (Sqlite empty_db)]> (fs s); stdout := stdout s;
                 conn := Some {| path := p; view := empty_db; in_transaction := false |};
                 journal := journal s |})
  | Some (File (Sqlite db)) =>
      (Ok (), {| fs := fs s; stdout := stdout s;
                 conn := Some {| path := p; view := db; in_transaction := false |};
                 journal := journal s |})
  | Some _ => (Raise (OperationalError "unable to open database file"), s)
  end.

Definition is_insert (st : stmt) : bool :=
  match st with InsertInto _ _ _ => true | _ => false end.

Definition journal_entry (st : stmt) (db : DB) : list (string * list value) :=
  match st with
  | InsertInto tbl _ _ =>
      match last (table_rows tbl db) with
      | Some r => [(tbl, r)]
      | None => []
      end
  | _ => []
  end.

(** [cursor.execute(st)].  The sqlite3 module opens a transaction before an
    INSERT when none is open; a statement executed outside a transaction is
    committed at once; a statement that fails changes nothing. *)
Definition execute (st : stmt) : M unit := λ s,
  match conn s with
  | None => (Raise ProgrammingError, s)
  | Some c =>
      let txn := in_transaction c || is_insert st in
      match sql_exec st (view c) with
      | Raise e =>
          (Raise e, {| fs := fs s; stdout := stdout s;
                       conn := Some {| path := path c; view := view c; in_transaction := txn |};
                       journal := journal s |})
      | Ok db =>
          (Ok (), {| fs := if txn then fs s else <[path c := File (Sqlite db)]> (fs s);
                     stdout := stdout s;
                     conn := Some {| path := path c; view := db; in_transaction := txn |};
                     journal := journal s ++ journal_entry st db |})
      end
  end.

(** [cursor.execute(sql, params)] for an INSERT with place holders. *)
Definition execute_params (tbl : string) (into : list string) (params : list pyval) : M unit :=
  match bind_params params with
  | Raise e => raise e
  | Ok vals => execute (InsertInto tbl (Some into) vals)
  end.

(** [conn.commit()] *)
Definition commit : M unit := λ s,
  match conn s with
  | None => (Raise ProgrammingError, s)
  | Some c =>
      (Ok (), {| fs := <[path c := File (Sqlite (view c))]> (fs s); stdout := stdout s;
                 conn := Some {| path := path c; view := view c; in_transaction := false |};
                 journal := journal s |})
  end.

(** [conn.close()] *)
Definition close : M unit := λ s,
  (Ok (), {| fs := fs s; stdout := stdout s; conn := None; journal := journal s |}).

(** A query against the connection's view. *)
Definition query {A} (q : DB → A) : M A := λ s,
  match conn s with
  | None => (Raise ProgrammingError, s)
  | Some c => (Ok (q (view c)), s)
  end.

(** [ET.parse(p).getroot()] *)
Definition ET_parse (p : string) : M Element := λ s,
  match fs s !! p with
  | Some (File (Xml root)) => (Ok root, s)
  | Some (File _) => (Raise ParseError, s)
  | Some Dir => (Raise IsADirectoryError, s)
  | None => (Raise FileNotFoundError, s)
  end.

(** Nothing to do. *)
Definition pass : M unit := ret ().

(** [for x in l: body(x)] *)
Fixpoint for_each {A} (l : list A) (body : A → M unit) : M unit :=
  match l with
  | [] => pass
  | x :: l' => body x;; for_each l' body
  end.

(** A loop that carries the value of one variable from one round to the
    next. *)
Fixpoint for_each_with {A V} (l : list A) (v : V) (body : A → V → M V) : M V :=
  match l with
  | [] => ret v
  | x :: l' => v' ← body x v; for_each_with l' v' body
  end.

(** ** The script *)

Definition db_file : string := "kanjidic2.db".

(** The column declarations of the CREATE TABLE statements. *)
Definition col (n t : string) (nn p ai : bool) : column :=
  {| cname := n; ctype := t; notnull := nn; pk := p; autoincrement := ai; dflt := Null |}.

Definition kanji_columns : list column :=
  [ col "literal" "TEXT" true true false;
    col "grade" "INTEGER" false false false;
    col "strokeCount" "INTEGER" false false false;
    col "freq" "INTEGER" false false false;
    col "jlpt" "INTEGER" false false false ].

Definition readings_columns : list column :=
  [ col "id" "INTEGER" true true true;
    col "literal" "TEXT" true false false;
    col "readingType" "TEXT" true false false;
    col "reading" "TEXT" true false false ].

Definition meanings_columns : list column :=
  [ col "id" "INTEGER" true true true;
    col "literal" "TEXT" true false false;
    col "meaning" "TEXT" true false false ].

Definition dictionary_metadata_columns : list column :=
  [ col "key" "TEXT" true true false;
    col "value" "TEXT" true false false ].

Definition room_table_modification_log_columns : list column :=
  [ col "table_id" "INTEGER" false true false;
    {| cname := "invalidated"; ctype := "INTEGER"; notnull := true; pk := false;
       autoincrement := false; dflt := Integer 0 |} ].

Definition room_master_table_columns : list column :=
  [ col "id" "INTEGER" false true false;
    col "identity_hash" "TEXT" false false false ].

Section Script.

(** Three things the script takes from its runtime and that are left open
    here: [int] applied to a string ([None] when Python raises ValueError),
    the size in bytes of a file as [os.path.getsize] reports it, and the
    rendering of a byte count as megabytes with two decimals (a floating
    point division and format). *)
Variable py_int : string → option Z.
Variable getsize : node → Z.
Variable format_mb : Z → string.

(** [int(x)] for an element's text. *)
Definition int (x : option string) : M Z :=
  match x with
  | None => raise TypeError
  | Some t =>
      match py_int t with
      | Some z => ret z
      | None => raise ValueError
      end
  end.

(** Lines 14-21: the argument and the input file. *)
Definition check_arguments (argv : list string) : M string :=
  if decide (length argv < 2)%nat then
    print "Usage: python3 generate_database.py <kanjidic2.xml>";;
    sys_exit 1
  else
    match argv !! 1%nat with
    | None => raise IndexError
    | Some xml_file =>
        found ← os_path_exists xml_file;
        if negb found then
          print ("Error: File not found: " +:+ xml_file);;
          sys_exit 1
        else ret xml_file
    end.

(** Lines 25-31: the output file is removed when it is there, and
    opened. *)
Definition open_database : M unit :=
  found ← os_path_exists db_file;
  (if found then os_remove db_file else pass);;
  sqlite3_connect db_file.

(** Lines 33-101: the schema and the rows of Room's two tables. *)
Definition create_tables : M unit :=
  execute (CreateTable "kanji" kanji_columns);;
  execute (CreateIndex "index_kanji_freq" "kanji" "freq");;
  execute (CreateTable "readings" readings_columns);;
  execute (CreateIndex "index_readings_literal" "readings" "literal");;
  execute (CreateTable "meanings" meanings_columns);;
  execute (CreateIndex "index_meanings_literal" "meanings" "literal");;
  execute (CreateTable "dictionary_metadata" dictionary_metadata_columns);;
  execute (CreateTable "room_table_modification_log" room_table_modification_log_columns);;
  execute (InsertInto "room_table_modification_log" None [Integer 0; Integer 0]);;
  execute (InsertInto "room_table_modification_log" None [Integer 1; Integer 0]);;
  execute (InsertInto "room_table_modification_log" None [Integer 2; Integer 0]);;
  execute (InsertInto "room_table_modification_log" None [Integer 3; Integer 0]);;
  execute (InsertInto "room_table_modification_log" None [Integer 4; Integer 0]);;
  execute (CreateTable "room_master_table" room_master_table_columns);;
  execute (InsertInto "room_master_table" None [Integer 42; Text "PLACEHOLDER_HASH"]);;
  print "✓ Tables created".

(** Lines 125-139, one of the four fields of the misc block: [None] when
    the element is not there, its text through [int] when it is. *)
Definition misc_field (misc : Element) (name : string) : M (option Z) :=
  match find name misc with
  | None => ret None
  | Some elem => z ← int (text elem); ret (Some z)
  end.

(** Lines 153-159, the body of the loop over the reading elements. *)
Definition insert_reading (literal_text : option string) (reading_elem : Element) : M unit :=
  let r_type := get reading_elem "r_type" in
  if bool_decide (r_type ∈ [Some "ja_on"; Some "ja_kun"]) then
    execute_params "readings" ["literal"; "readingType"; "reading"]
      [of_text literal_text; of_text r_type; of_text (text reading_elem)]
  else pass.

(** Lines 162-167, the body of the loop over the meaning elements. *)
Definition insert_meaning (literal_text : option string) (meaning_elem : Element) : M unit :=
  if bool_decide (get meaning_elem "m_lang" = None) then
    execute_params "meanings" ["literal"; "meaning"]
      [of_text literal_text; of_text (text meaning_elem)]
  else pass.

(** Lines 110-172, the body of the loop over the character entries;
    [count] comes in and goes out. *)
Definition process_character (character : Element) (count : Z) : M Z :=
  match find "literal" character with
  | None => ret count
  | Some literal =>
      let literal_text := text literal in
      '(grade, stroke_count, freq, jlpt) ←
        match find "misc" character with
        | None => ret (None, None, None, None)
        | Some misc =>
            grade ← misc_field misc "grade";
            stroke_count ← misc_field misc "stroke_count";
            freq ← misc_field misc "freq";
            jlpt ← misc_field misc "jlpt";
            ret (grade, stroke_count, freq, jlpt)
        end;
      execute_params "kanji" ["literal"; "grade"; "strokeCount"; "freq"; "jlpt"]
        [of_text literal_text; of_int grade; of_int stroke_count; of_int freq; of_int jlpt];;
      match find "reading_meaning" character with
      | None => pass
      | Some reading_meaning =>
          match find "rmgroup" reading_meaning with
          | None => pass
          | Some rmgroup =>
              for_each (findall "reading" rmgroup) (insert_reading literal_text);;
              for_each (findall "meaning" rmgroup) (insert_meaning literal_text)
          end
      end;;
      let count := count + 1 in
      (if decide (count `mod` 100 = 0) then
         commit;;
         print_end (cr +:+ "Processed: " +:+ pretty count +:+ " kanji") ""
       else pass);;
      ret count
  end.

(** Lines 103-182: the extraction pass and the two metadata rows. *)
Definition populate (xml_file : string) : M unit :=
  print "Parsing XML...";;
  root ← ET_parse xml_file;
  count ← for_each_with (findall "character" root) 0 process_character;
  commit;;
  print (nl +:+ "✓ Processed " +:+ pretty count +:+ " kanji total");;
  execute (InsertInto "dictionary_metadata" None [Text "kanjidic2_version"; Text "2025-01"]);;
  execute (InsertInto "dictionary_metadata" None [Text "dictionary_initialized"; Text "true"]);;
  commit;;
  print "✓ Metadata added".

(** Lines 184-209: the schema echo and the statistics. *)
Definition report : M unit :=
  print (nl +:+ "=== Verifying Schema ===");;
  info ← query (table_info "kanji");
  for_each info (λ '(name, type_, notnull, pk),
    print ("  " +:+ name +:+ ": " +:+ type_ +:+ ", notNull=" +:+ pretty notnull
             +:+ ", pk=" +:+ pretty pk));;
  kanji_count ← query (λ db, Z.of_nat (length (table_rows "kanji" db)));
  readings_count ← query (λ db, Z.of_nat (length (table_rows "readings" db)));
  meanings_count ← query (λ db, Z.of_nat (length (table_rows "meanings" db)));
  print (nl +:+ "=== Statistics ===");;
  print ("  Kanji: " +:+ pretty kanji_count);;
  print ("  Readings: " +:+ pretty readings_count);;
  print ("  Meanings: " +:+ pretty meanings_count);;
  close;;
  size ← (λ s, match fs s !! db_file with
               | Some n => (Ok (getsize n), s)
               | None => (Raise FileNotFoundError, s)
               end) : M Z;
  print (nl +:+ "✓ Database generated: " +:+ db_file);;
  print ("  Size: " +:+ format_mb size +:+ " MB");;
  print (nl +:+ "✓ Done! Copy this file to app/src/main/assets/kanjidic2.db").

(** The whole script. *)
Definition main (argv : list string) : M unit :=
  xml_file ← check_arguments argv;
  print ("Generating kanjidic2.db from " +:+ xml_file +:+ "...");;
  open_database;;
  create_tables;;
  populate xml_file;;
  report.

(** A run: the script started on a file system with an empty console and
    no connection. *)
Definition run (argv : list string) (files : gmap string node) : res unit * State :=
  main argv {| fs := files; stdout := []; conn := None; journal := [] |}.

End Script.

(** The exit status of the process: that of [sys.exit], 1 for an exception
    that nothing catches, 0 at the end of the script. *)
Definition exit_status {A} (r : res A) : Z :=
  match r with
  | Ok _ => 0
  | Raise (SystemExit code) => code
  | Raise _ => 1
  end.

(** A run that got to the end of the script. *)
Definition completed {A} (r : res A * State) : Prop :=
  match r.1 with Ok _ => True | Raise _ => False end.

(** ** A reading of decimal numerals

    What Python's [int] does on ASCII text: white space is stripped at both
    ends, a sign may come first, and the digits may be separated by single
    underscores.  (Python also reads the decimal digits and white space of other
    scripts and refuses numerals of more than 4300 digits; the theorems below
    hold for whatever [int] does, and this function serves where a concrete
    one is needed.) *)

Definition is_space (c : ascii) : bool :=
  let n := nat_of_ascii c in
  (9 <=? n)%nat && (n <=? 13)%nat || (28 <=? n)%nat && (n <=? 32)%nat.

Definition digit_of (c : ascii) : option Z :=
  let n := Z.of_nat (nat_of_ascii c) in
  if (48 <=? n)%Z && (n <=? 57)%Z then Some (n - 48) else None.

Fixpoint lstrip (l : list ascii) : list ascii :=
  match l with
  | c :: l' => if is_space c then lstrip l' else l
  | [] => []
  end.

Definition strip (l : list ascii) : list ascii :=
  reverse (lstrip (reverse (lstrip l))).

Fixpoint digits (l : list ascii) (acc : Z) (after_digit : bool) : option Z :=
  match l with
  | [] => if after_digit then Some acc else None
  | c :: l' =>
      if Ascii.eqb c "_" then
        if after_digit then digits l' acc false else None
      else
        match digit_of c with
        | Some d => digits l' (10 * acc + d) true
        | None => None
        end
  end.

Definition py_int_ascii (s : string) : option Z :=
  match strip (list_ascii_of_string s) with
  | "+"%char :: l => digits l 0 false
  | "-"%char :: l => Z.opp <$> digits l 0 false
  | l => digits l 0 false
  end.

(** ** The journal determines the database *)

Definition entry : Type := string * list value.

(** The rows the journal holds for one table. *)
Definition proj (T : string) (j : list entry) : list (list value) :=
  (filter (λ e, e.1 = T) j).*2.

Lemma proj_app T j1 j2 : proj T (j1 ++ j2) = proj T j1 ++ proj T j2.
Proof. unfold proj. by rewrite filter_app, fmap_app. Qed.

Lemma proj_cons_eq T r j : proj T ((T, r) :: j) = r :: proj T j.
Proof. unfold proj. rewrite filter_cons_True; done. Qed.

Lemma proj_cons_ne T T' r j : T' ≠ T → proj T ((T', r) :: j) = proj T j.
Proof. intros. unfold proj. rewrite filter_cons_False; done. Qed.

Lemma elem_of_proj T r j : r ∈ proj T j ↔ (T, r) ∈ j.
Proof.
  unfold proj. rewrite list_elem_of_fmap. split.
  - intros [[T' r'] [-> [HT ?]%list_elem_of_filter]]. simpl in *. by subst.
  - intros. exists (T, r). split; [done|]. by apply list_elem_of_filter.
Qed.

Definition db_from (j : list entry) : DB :=
  {| tables :=
       <["kanji" := mkTable kanji_columns (proj "kanji" j)]>
       (<["readings" := mkTable readings_columns (proj "readings" j)]>
       (<["meanings" := mkTable meanings_columns (proj "meanings" j)]>
       (<["dictionary_metadata" :=
            mkTable dictionary_metadata_columns (proj "dictionary_metadata" j)]>
       (<["room_table_modification_log" :=
            mkTable room_table_modification_log_columns (proj "room_table_modification_log" j)]>
       (<["room_master_table" :=
            mkTable room_master_table_columns (proj "room_master_table" j)]> ∅)))));
     indexes :=
       <["index_kanji_freq" := ("kanji", "freq")]>
       (<["index_readings_literal" := ("readings", "literal")]>
       (<["index_meanings_literal" := ("meanings", "literal")]> ∅)) |}.

Definition cols_of (T : string) : list column :=
  if decide (T = "kanji") then kanji_columns
  else if decide (T = "readings") then readings_columns
  else if decide (T = "meanings") then meanings_columns
  else if decide (T = "dictionary_metadata") then dictionary_metadata_columns
  else if decide (T = "room_table_modification_log") then room_table_modification_log_columns
  else room_master_table_columns.

Definition table_names : list string :=
  ["kanji"; "readings"; "meanings"; "dictionary_metadata";
   "room_table_modification_log"; "room_master_table"].

Lemma lookup_db_from T j :
  T ∈ table_names →
  tables (db_from j) !! T = Some (mkTable (cols_of T) (proj T j)).
Proof.
  unfold table_names. rewrite !elem_of_cons, elem_of_nil.
  intros [->|[->|[->|[->|[->|[->|[]]]]]]]; reflexivity.
Qed.

Lemma table_rows_db_from T j : T ∈ table_names → table_rows T (db_from j) = proj T j.
Proof. intros HT. unfold table_rows. by rewrite lookup_db_from. Qed.

Lemma insert_db_from T r j :
  T ∈ table_names →
  <[T := mkTable (cols_of T) (proj T j ++ [r])]> (tables (db_from j))
  = tables (db_from (j ++ [(T, r)])).
Proof.
  unfold table_names. rewrite !elem_of_cons, elem_of_nil.
  intros [->|[->|[->|[->|[->|[->|[]]]]]]];
    unfold db_from; cbn [tables]; rewrite !proj_app;
    rewrite proj_cons_eq; rewrite !proj_cons_ne by done;
    unfold proj at 1; simpl; rewrite !app_nil_r.
  all: apply map_eq; intros i.
  all: repeat (rewrite lookup_insert; case_decide; subst; try done).
Qed.

(** ** What the INSERTs of the script do to a table *)

Lemma foldr_max_ge (l : list Z) z : z ∈ l → z ≤ foldr Z.max 0 l.
Proof.
  induction l as [|a l IH]; simpl.
  - by intros ?%elem_of_nil.
  - intros [->|H]%elem_of_cons; [lia|]. specialize (IH H). lia.
Qed.

(** The rowid SQLite picks is not in the table yet. *)
Lemma next_rowid_fresh i rs : Integer (next_rowid i rs) ∉ cell i <$> rs.
Proof.
  intros H. unfold next_rowid in H.
  assert (next_rowid i rs ≤ foldr Z.max 0 (as_rowid <$> (cell i <$> rs))) as Hle.
  { apply foldr_max_ge. apply list_elem_of_fmap.
    exists (Integer (next_rowid i rs)). split; [done|]. exact H. }
  unfold next_rowid in Hle. lia.
Qed.

Definition inserted (t : table) : list value := default [] (last (rows t)).

Lemma inserted_snoc cs R r : inserted (mkTable cs (R ++ [r])) = r.
Proof. unfold inserted. simpl. by rewrite last_snoc. Qed.

Lemma insert_row_inv T t into vals t' :
  insert_row T t into vals = Ok t' →
  ∃ r, t' = mkTable (columns t) (rows t ++ [r]).
Proof.
  unfold insert_row. intros H.
  destruct into as [names|].
  - destruct (decide _); [|done]. destruct (forallb _ _); [|done].
    destruct (check_row _ _ _ _ _) as [r|]; [|done].
    exists r. congruence.
  - destruct (decide _); [|done].
    destruct (check_row _ _ _ _ _) as [r|]; [|done].
    exists r. congruence.
Qed.

Definition not_null_failed (T : string) (c : column) : exn :=
  IntegrityError ("NOT NULL constraint failed: " +:+ T +:+ "." +:+ cname c).

Definition unique_failed (T : string) (c : column) : exn :=
  IntegrityError ("UNIQUE constraint failed: " +:+ T +:+ "." +:+ cname c).

(** A column with no constraint takes any value. *)
Lemma check_cell_free T rs i c v :
  notnull c = false → pk c = false → check_cell T rs i c v = Ok v.
Proof. unfold check_cell, is_rowid. by intros -> ->. Qed.

(** A NOT NULL column that is not a key refuses NULL only. *)
Lemma check_cell_notnull T rs i c v :
  notnull c = true → pk c = false →
  check_cell T rs i c v = if decide (v = Null) then Raise (not_null_failed T c) else Ok v.
Proof.
  unfold check_cell, is_rowid. intros -> ->. simpl.
  case_decide; case_bool_decide; done.
Qed.

(** A NOT NULL key that is not the rowid refuses NULL and a value that is
    in the table. *)
Lemma check_cell_key T rs i c v :
  notnull c = true → pk c = true → ctype c ≠ "INTEGER" →
  check_cell T rs i c v =
    if decide (v = Null) then Raise (not_null_failed T c)
    else if decide (v ∈ cell i <$> rs) then Raise (unique_failed T c)
    else Ok v.
Proof.
  unfold check_cell, is_rowid. intros -> -> Hty. simpl.
  rewrite (bool_decide_false _ Hty). simpl.
  repeat case_decide; repeat case_bool_decide; done.
Qed.

(** A rowid column that is given NULL gets the next rowid. *)
Lemma check_cell_rowid T rs i c :
  pk c = true → ctype c = "INTEGER" →
  check_cell T rs i c Null = Ok (Integer (next_rowid i rs)).
Proof.
  unfold check_cell, is_rowid. intros -> Hty. simpl.
  rewrite (bool_decide_true _ Hty). simpl.
  pose proof (next_rowid_fresh i rs).
  destruct (notnull c); simpl; repeat case_bool_decide; done.
Qed.

(** A rowid column that is given an integer refuses one that is in the
    table. *)
Lemma check_cell_rowid_given T rs i c z :
  pk c = true →
  check_cell T rs i c (Integer z) =
    if decide (Integer z ∈ cell i <$> rs) then Raise (unique_failed T c)
    else Ok (Integer z).
Proof.
  unfold check_cell, is_rowid. intros ->. simpl.
  rewrite andb_false_r.
  destruct (notnull c); simpl; repeat case_decide; repeat case_bool_decide; done.
Qed.

Ltac insert_row_unfold :=
  unfold insert_row; cbn [columns rows];
  try (replace (forallb _ _) with true by (vm_compute; reflexivity));
  destruct (decide (length _ = length _)) as [_|Hn]; [|exfalso; apply Hn; reflexivity].

Lemma insert_kanji_row K v g sc f jl :
  insert_row "kanji" (mkTable kanji_columns K)
    (Some ["literal"; "grade"; "strokeCount"; "freq"; "jlpt"]) [v; g; sc; f; jl]
  = if decide (v = Null)
    then Raise (IntegrityError "NOT NULL constraint failed: kanji.literal")
    else if decide (v ∈ cell 0 <$> K)
    then Raise (IntegrityError "UNIQUE constraint failed: kanji.literal")
    else Ok (mkTable kanji_columns (K ++ [[v; g; sc; f; jl]])).
Proof.
  insert_row_unfold.
  replace (supplied _ _ <$> kanji_columns) with [v; g; sc; f; jl] by reflexivity.
  unfold kanji_columns at 1. unfold check_row.
  rewrite check_cell_key by done.
  rewrite !check_cell_free by done.
  repeat case_decide; done.
Qed.

Lemma insert_readings_row R l t x :
  insert_row "readings" (mkTable readings_columns R)
    (Some ["literal"; "readingType"; "reading"]) [l; t; x]
  = if decide (l = Null)
    then Raise (IntegrityError "NOT NULL constraint failed: readings.literal")
    else if decide (t = Null)
    then Raise (IntegrityError "NOT NULL constraint failed: readings.readingType")
    else if decide (x = Null)
    then Raise (IntegrityError "NOT NULL constraint failed: readings.reading")
    else Ok (mkTable readings_columns (R ++ [[Integer (next_rowid 0 R); l; t; x]])).
Proof.
  insert_row_unfold.
  replace (supplied _ _ <$> readings_columns) with [Null; l; t; x] by reflexivity.
  unfold readings_columns at 1. unfold check_row.
  rewrite check_cell_rowid by done.
  rewrite !check_cell_notnull by done.
  repeat case_decide; done.
Qed.

Lemma insert_meanings_row R l x :
  insert_row "meanings" (mkTable meanings_columns R)
    (Some ["literal"; "meaning"]) [l; x]
  = if decide (l = Null)
    then Raise (IntegrityError "NOT NULL constraint failed: meanings.literal")
    else if decide (x = Null)
    then Raise (IntegrityError "NOT NULL constraint failed: meanings.meaning")
    else Ok (mkTable meanings_columns (R ++ [[Integer (next_rowid 0 R); l; x]])).
Proof.
  insert_row_unfold.
  replace (supplied _ _ <$> meanings_columns) with [Null; l; x] by reflexivity.
  unfold meanings_columns at 1. unfold check_row.
  rewrite check_cell_rowid by done.
  rewrite !check_cell_notnull by done.
  repeat case_decide; done.
Qed.

Lemma insert_metadata_row D k v :
  insert_row "dictionary_metadata" (mkTable dictionary_metadata_columns D)
    None [Text k; Text v]
  = if decide (Text k ∈ cell 0 <$> D)
    then Raise (IntegrityError "UNIQUE constraint failed: dictionary_metadata.key")
    else Ok (mkTable dictionary_metadata_columns (D ++ [[Text k; Text v]])).
Proof.
  insert_row_unfold.
  unfold dictionary_metadata_columns at 1. unfold check_row.
  rewrite check_cell_key by done.
  rewrite !check_cell_notnull by done.
  repeat case_decide; done.
Qed.

Lemma sql_insert_db_from T into vals j :
  T ∈ table_names →
  sql_exec (InsertInto T into vals) (db_from j)
  = match insert_row T (mkTable (cols_of T) (proj T j)) into vals with
    | Raise e => Raise e
    | Ok t' => Ok (db_from (j ++ [(T, inserted t')]))
    end.
Proof.
  intros HT. unfold sql_exec. rewrite lookup_db_from by done.
  destruct (insert_row _ _ _ _) as [t'|e] eqn:E; [|done].
  apply insert_row_inv in E as [r ->]. simpl.
  unfold inserted. simpl. rewrite last_snoc. simpl.
  rewrite insert_db_from by done. done.
Qed.

(** ** States of the extraction pass

    From the end of [create_tables] on, the connection's view is the database
    of the journal, and the file system is the one the run started on with
    the output file in it. *)
Definition st (F : gmap string node) (d : DB) (out : list string)
    (txn : bool) (j : list entry) : State :=
  {| fs := <[db_file := File (Sqlite d)]> F;
     stdout := out;
     conn := Some {| path := db_file; view := db_from j; in_transaction := txn |};
     journal := j |}.

Lemma execute_insert_st T into vals F d out txn j :
  T ∈ table_names →
  execute (InsertInto T into vals) (st F d out txn j)
  = match insert_row T (mkTable (cols_of T) (proj T j)) into vals with
    | Raise e => (Raise e, st F d out true j)
    | Ok t' => (Ok (), st F d out true (j ++ [(T, inserted t')]))
    end.
Proof.
  intros HT. unfold execute, st. cbn [conn view path in_transaction fs stdout journal is_insert].
  rewrite sql_insert_db_from by done. rewrite orb_true_r.
  destruct (insert_row _ _ _ _) as [t'|e] eqn:E; [|done].
  f_equal. f_equal. unfold journal_entry.
  rewrite table_rows_db_from by done. rewrite proj_app, proj_cons_eq.
  unfold proj at 2. simpl. by rewrite last_snoc.
Qed.

Lemma commit_st F d out txn j :
  commit (st F d out txn j) = (Ok (), st F (db_from j) out false j).
Proof. unfold commit, st. simpl. by rewrite insert_insert_eq. Qed.

Lemma print_end_st x e F d out txn j :
  print_end x e (st F d out txn j) = (Ok (), st F d (out ++ [x +:+ e]) txn j).
Proof. done. Qed.

(** ** The script on the states of the extraction pass *)

Definition sql_text (t : option string) : value :=
  match t with Some s => Text s | None => Null end.

Definition sql_int (n : option Z) : value :=
  match n with Some z => Integer z | None => Null end.

(** An integer SQLite can store. *)
Definition fits (n : option Z) : Prop :=
  match n with Some z => - 2 ^ 63 ≤ z < 2 ^ 63 | None => True end.

Global Instance fits_dec n : Decision (fits n).
Proof. destruct n; simpl; apply _. Defined.

Lemma bind_param_text t : bind_param (of_text t) = Ok (sql_text t).
Proof. by destruct t. Qed.

Lemma bind_param_int n :
  bind_param (of_int n) = if decide (fits n) then Ok (sql_int n) else Raise OverflowError.
Proof.
  destruct n as [z|]; simpl; [|done].
  case_bool_decide; case_decide; done.
Qed.

Lemma bind_kanji_params lt g sc f jl :
  bind_params [of_text lt; of_int g; of_int sc; of_int f; of_int jl]
  = if decide (fits g ∧ fits sc ∧ fits f ∧ fits jl)
    then Ok [sql_text lt; sql_int g; sql_int sc; sql_int f; sql_int jl]
    else Raise OverflowError.
Proof.
  unfold bind_params. rewrite bind_param_text, !bind_param_int.
  repeat case_decide; try done; tauto.
Qed.

Lemma sql_text_null t : sql_text t = Null ↔ t = None.
Proof. by destruct t. Qed.

Lemma in_table_names T :
  bool_decide (T ∈ table_names) = true → T ∈ table_names.
Proof. apply bool_decide_eq_true_1. Qed.

Ltac table_name := apply in_table_names; reflexivity.

Lemma insert_kanji_st lt g sc f jl F d out txn j :
  execute_params "kanji" ["literal"; "grade"; "strokeCount"; "freq"; "jlpt"]
    [of_text lt; of_int g; of_int sc; of_int f; of_int jl] (st F d out txn j)
  = if decide (fits g ∧ fits sc ∧ fits f ∧ fits jl) then
      match lt with
      | None =>
          (Raise (IntegrityError "NOT NULL constraint failed: kanji.literal"),
           st F d out true j)
      | Some t =>
          if decide (Text t ∈ cell 0 <$> proj "kanji" j)
          then (Raise (IntegrityError "UNIQUE constraint failed: kanji.literal"),
                st F d out true j)
          else (Ok (),
                st F d out true
                  (j ++ [("kanji", [Text t; sql_int g; sql_int sc; sql_int f; sql_int jl])]))
      end
    else (Raise OverflowError, st F d out txn j).
Proof.
  unfold execute_params. rewrite bind_kanji_params.
  case_decide; [|done].
  rewrite execute_insert_st by table_name.
  change (cols_of "kanji") with kanji_columns.
  rewrite insert_kanji_row.
  destruct lt as [t|]; simpl; [|done].
  case_decide; [done|]. by rewrite inserted_snoc.
Qed.

Lemma insert_readings_st lt ty x F d out txn j :
  execute_params "readings" ["literal"; "readingType"; "reading"]
    [of_text lt; of_text ty; of_text x] (st F d out txn j)
  = match lt, ty, x with
    | Some t, Some ty, Some x =>
        (Ok (),
         st F d out true
           (j ++ [("readings",
                   [Integer (next_rowid 0 (proj "readings" j)); Text t; Text ty; Text x])]))
    | None, _, _ =>
        (Raise (IntegrityError "NOT NULL constraint failed: readings.literal"),
         st F d out true j)
    | Some _, None, _ =>
        (Raise (IntegrityError "NOT NULL constraint failed: readings.readingType"),
         st F d out true j)
    | Some _, Some _, None =>
        (Raise (IntegrityError "NOT NULL constraint failed: readings.reading"),
         st F d out true j)
    end.
Proof.
  unfold execute_params, bind_params. rewrite !bind_param_text.
  rewrite execute_insert_st by table_name.
  change (cols_of "readings") with readings_columns.
  rewrite insert_readings_row.
  destruct lt, ty, x; simpl; rewrite ?inserted_snoc; done.
Qed.

Lemma insert_meanings_st lt x F d out txn j :
  execute_params "meanings" ["literal"; "meaning"]
    [of_text lt; of_text x] (st F d out txn j)
  = match lt, x with
    | Some t, Some x =>
        (Ok (),
         st F d out true
           (j ++ [("meanings", [Integer (next_rowid 0 (proj "meanings" j)); Text t; Text x])]))
    | None, _ =>
        (Raise (IntegrityError "NOT NULL constraint failed: meanings.literal"),
         st F d out true j)
    | Some _, None =>
        (Raise (IntegrityError "NOT NULL constraint failed: meanings.meaning"),
         st F d out true j)
    end.
Proof.
  unfold execute_params, bind_params. rewrite !bind_param_text.
  rewrite execute_insert_st by table_name.
  change (cols_of "meanings") with meanings_columns.
  rewrite insert_meanings_row.
  destruct lt, x; simpl; rewrite ?inserted_snoc; done.
Qed.

(** A computation started in a state of the extraction pass ends in one,
    with the journal extended by [es]; [P] relates its result to [es]. *)
Definition lands {A} (F : gmap string node) (j : list entry)
    (x : res A * State) (P : res A → list entry → Prop) : Prop :=
  ∃ d out txn es, x.2 = st F d out txn (j ++ es) ∧ P x.1 es.

Lemma lands_ret {A} F d out txn j (a : A) (P : res A → list entry → Prop) :
  P (Ok a) [] → lands F j (ret a (st F d out txn j)) P.
Proof. intros. exists d, out, txn, []. by rewrite app_nil_r. Qed.

Lemma lands_here {A} F d out txn j (r : res A) (P : res A → list entry → Prop) :
  P r [] → lands F j (r, st F d out txn j) P.
Proof. intros. exists d, out, txn, []. by rewrite app_nil_r. Qed.

Lemma lands_bind {A B} F j (m : M A) (f : A → M B) s
    (P : res A → list entry → Prop) (Q : res B → list entry → Prop) :
  lands F j (m s) P →
  (∀ e es, P (Raise e) es → Q (Raise e) es) →
  (∀ a d out txn es, P (Ok a) es →
     lands F (j ++ es) (f a (st F d out txn (j ++ es))) (λ r es', Q r (es ++ es'))) →
  lands F j (bind m f s) Q.
Proof.
  intros (d & out & txn & es & Hs & HP) Hraise Hok. unfold bind.
  destruct (m s) as [[a|e] s']; simpl in *; subst s'.
  - destruct (Hok a d out txn es HP) as (d' & out' & txn' & es' & Hs' & HQ).
    exists d', out', txn', (es ++ es'). by rewrite app_assoc.
  - exists d, out, txn, es. eauto.
Qed.

Lemma lands_shift {A} F j es0 (x : res A * State) (P : res A → list entry → Prop) :
  lands F (j ++ es0) x (λ r es, P r (es0 ++ es)) → lands F j x P.
Proof.
  intros (d & out & txn & es & Hs & HP). exists d, out, txn, (es0 ++ es).
  by rewrite app_assoc.
Qed.

Lemma lands_mono {A} F j (x : res A * State) (P Q : res A → list entry → Prop) :
  lands F j x P → (∀ r es, P r es → Q r es) → lands F j x Q.
Proof. intros (d & out & txn & es & Hs & HP) H. exists d, out, txn, es. eauto. Qed.

(** A loop whose body adds rows satisfying [Q] and succeeds only on
    elements satisfying [Good]. *)
Lemma lands_for_each {A} F (body : A → M unit)
    (Q : A → entry → Prop) (Good : A → Prop) (l : list A) :
  (∀ x d out txn j, x ∈ l →
     lands F j (body x (st F d out txn j))
       (λ r es, Forall (Q x) es ∧ (r = Ok () → Good x))) →
  ∀ d out txn j,
    lands F j (for_each l body (st F d out txn j))
      (λ r es, Forall (λ e, ∃ x, x ∈ l ∧ Q x e) es ∧ (r = Ok () → Forall Good l)).
Proof.
  induction l as [|x l IH]; intros Hbody d out txn j.
  - apply lands_ret. split; constructor.
  - simpl. eapply lands_bind.
    + apply Hbody. left.
    + intros e es [HQ _]. split; [|done].
      eapply Forall_impl; [exact HQ|]. intros y Hy. exists x. split; [left|done].
    + intros [] d' out' txn' es [HQ HG]. eapply lands_mono.
      * apply IH. intros. apply Hbody. by right.
      * simpl. intros r es' [HQ' HG']. split.
        -- apply Forall_app. split.
           ++ eapply Forall_impl; [exact HQ|]. intros y Hy. exists x. split; [left|done].
           ++ eapply Forall_impl; [exact HQ'|]. intros y (z & Hz & Hy).
              exists z. split; [by right|done].
        -- intros Hr. constructor; [by apply HG|by apply HG'].
Qed.

(** ** One character entry *)

(** The rows of the readings and meanings tables that the elements of a
    group [g] give rise to, for the entry whose literal is [t]. *)
Definition reading_of (t : string) (elem : Element) (e : entry) : Prop :=
  ∃ id ty x,
    get elem "r_type" = Some ty ∧ (ty = "ja_on" ∨ ty = "ja_kun") ∧
    text elem = Some x ∧
    e = ("readings", [Integer id; Text t; Text ty; Text x]).

Definition meaning_of (t : string) (elem : Element) (e : entry) : Prop :=
  ∃ id x,
    get elem "m_lang" = None ∧ text elem = Some x ∧
    e = ("meanings", [Integer id; Text t; Text x]).

(** A row below the kanji row of entry [c]: it comes from a reading or a
    meaning element of the first group of [c]. *)
Definition child_entry (c : Element) (t : string) (e : entry) : Prop :=
  ∃ rm g, find "reading_meaning" c = Some rm ∧ find "rmgroup" rm = Some g ∧
    ((∃ elem, elem ∈ findall "reading" g ∧ reading_of t elem e) ∨
     (∃ elem, elem ∈ findall "meaning" g ∧ meaning_of t elem e)).

(** A reading or meaning element that the script stores must have text. *)
Definition reading_fine (elem : Element) : Prop :=
  get elem "r_type" ∈ [Some "ja_on"; Some "ja_kun"] → is_Some (text elem).

Definition meaning_fine (elem : Element) : Prop :=
  get elem "m_lang" = None → is_Some (text elem).

Section Pass.

Variable py_int : string → option Z.

(** What [misc_field] returns; it does not touch the state. *)
Definition read_field (misc : Element) (name : string) : res (option Z) :=
  match find name misc with
  | None => Ok None
  | Some elem =>
      match text elem with
      | None => Raise TypeError
      | Some x =>
          match py_int x with
          | Some z => Ok (Some z)
          | None => Raise ValueError
          end
      end
  end.

Lemma misc_field_eq misc name s :
  misc_field py_int misc name s = (read_field misc name, s).
Proof.
  unfold misc_field, read_field, int, bind, ret, raise.
  destruct (find name misc) as [elem|]; [|done].
  destruct (text elem) as [x|]; [|done].
  destruct (py_int x); done.
Qed.

(** The four fields of an entry, in the order the script reads them. *)
Definition read_misc (c : Element) : res (option Z * option Z * option Z * option Z) :=
  match find "misc" c with
  | None => Ok (None, None, None, None)
  | Some misc =>
      match read_field misc "grade" with
      | Raise e => Raise e
      | Ok g =>
          match read_field misc "stroke_count" with
          | Raise e => Raise e
          | Ok sc =>
              match read_field misc "freq" with
              | Raise e => Raise e
              | Ok f =>
                  match read_field misc "jlpt" with
                  | Raise e => Raise e
                  | Ok jl => Ok (g, sc, f, jl)
                  end
              end
          end
      end
  end.

Definition kanji_row (t : string) (m : option Z * option Z * option Z * option Z) : list value :=
  let '(g, sc, f, jl) := m in
  [Text t; sql_int g; sql_int sc; sql_int f; sql_int jl].

Definition fits_all (m : option Z * option Z * option Z * option Z) : Prop :=
  let '(g, sc, f, jl) := m in fits g ∧ fits sc ∧ fits f ∧ fits jl.

(** What an entry must be like for the script to get past it. *)
Definition accepted (c : Element) : Prop :=
  ∀ lit, find "literal" c = Some lit →
    is_Some (text lit) ∧
    (∃ m, read_misc c = Ok m ∧ fits_all m) ∧
    ∀ rm g, find "reading_meaning" c = Some rm → find "rmgroup" rm = Some g →
      Forall reading_fine (findall "reading" g) ∧
      Forall meaning_fine (findall "meaning" g).

(** The rows one entry adds to the journal [j], whether the script gets
    past the entry or stops in it: none, or its kanji row followed by rows
    of its readings and meanings. *)
Definition segment (j : list entry) (c : Element) (es : list entry) : Prop :=
  es = [] ∨
  ∃ lit t m tail,
    find "literal" c = Some lit ∧ text lit = Some t ∧
    read_misc c = Ok m ∧
    (Text t ∉ cell 0 <$> proj "kanji" j) ∧
    es = ("kanji", kanji_row t m) :: tail ∧
    Forall (child_entry c t) tail.

Lemma insert_reading_lands t elem F d out txn j :
  lands F j (insert_reading (Some t) elem (st F d out txn j))
    (λ r es, Forall (reading_of t elem) es ∧ (r = Ok () → reading_fine elem)).
Proof.
  unfold insert_reading. case_bool_decide as Hk.
  - rewrite insert_readings_st.
    apply elem_of_cons in Hk as [Hk|Hk%list_elem_of_singleton].
    + rewrite Hk. destruct (text elem) as [x|] eqn:Hx.
      * eexists d, out, true, [_]. split; [done|]. simpl. split.
        -- repeat constructor. eexists _, _, _. eauto.
        -- intros _ _. by rewrite Hx.
      * eexists d, out, true, []. rewrite app_nil_r. split; [done|]. simpl.
        split; [constructor|done].
    + rewrite Hk. destruct (text elem) as [x|] eqn:Hx.
      * eexists d, out, true, [_]. split; [done|]. simpl. split.
        -- repeat constructor. eexists _, _, _. eauto.
        -- intros _ _. by rewrite Hx.
      * eexists d, out, true, []. rewrite app_nil_r. split; [done|]. simpl.
        split; [constructor|done].
  - apply lands_ret. split; [constructor|]. intros _ ?. done.
Qed.

Lemma insert_meaning_lands t elem F d out txn j :
  lands F j (insert_meaning (Some t) elem (st F d out txn j))
    (λ r es, Forall (meaning_of t elem) es ∧ (r = Ok () → meaning_fine elem)).
Proof.
  unfold insert_meaning. case_bool_decide as Hk.
  - rewrite insert_meanings_st.
    destruct (text elem) as [x|] eqn:Hx.
    + eexists d, out, true, [_]. split; [done|]. simpl. split.
      * repeat constructor. eexists _, _. eauto.
      * intros _ _. by rewrite Hx.
    + eexists d, out, true, []. rewrite app_nil_r. split; [done|]. simpl.
      split; [constructor|done].
  - apply lands_ret. split; [constructor|]. intros _ ?. done.
Qed.

Lemma misc_block_eq c s :
  (match find "misc" c with
   | None => ret (None, None, None, None)
   | Some misc =>
       grade ← misc_field py_int misc "grade";
       stroke_count ← misc_field py_int misc "stroke_count";
       freq ← misc_field py_int misc "freq";
       jlpt ← misc_field py_int misc "jlpt";
       ret (grade, stroke_count, freq, jlpt)
   end) s = (read_misc c, s).
Proof.
  unfold read_misc. destruct (find "misc" c) as [misc|]; [|done].
  unfold bind. rewrite misc_field_eq.
  destruct (read_field misc "grade"); [|done]. rewrite misc_field_eq.
  destruct (read_field misc "stroke_count"); [|done]. rewrite misc_field_eq.
  destruct (read_field misc "freq"); [|done]. rewrite misc_field_eq.
  destruct (read_field misc "jlpt"); done.
Qed.

(** The two inner loops. *)
Lemma children_lands c t F d out txn j :
  lands F j
    (match find "reading_meaning" c with
     | None => pass
     | Some reading_meaning =>
         match find "rmgroup" reading_meaning with
         | None => pass
         | Some rmgroup =>
             for_each (findall "reading" rmgroup) (insert_reading (Some t));;
             for_each (findall "meaning" rmgroup) (insert_meaning (Some t))
         end
     end (st F d out txn j))
    (λ r es, Forall (child_entry c t) es ∧
       (r = Ok () → ∀ rm g, find "reading_meaning" c = Some rm → find "rmgroup" rm = Some g →
          Forall reading_fine (findall "reading" g) ∧
          Forall meaning_fine (findall "meaning" g))).
Proof.
  destruct (find "reading_meaning" c) as [rm|] eqn:Hrm.
  2: { apply lands_ret. split; [constructor|done]. }
  destruct (find "rmgroup" rm) as [g|] eqn:Hg.
  2: { apply lands_ret. split; [constructor|]. intros _ ?? [= <-]. congruence. }
  eapply lands_bind.
  - apply lands_for_each. intros x ? ? ? ? _. apply insert_reading_lands.
  - intros e es [HQ _]. split; [|done].
    eapply Forall_impl; [exact HQ|]. intros y (x & Hx & Hy).
    exists rm, g. eauto 10.
  - intros [] d' out' txn' es [HQ HG]. eapply lands_mono.
    + apply lands_for_each. intros x ? ? ? ? _. apply insert_meaning_lands.
    + simpl. intros r es' [HQ' HG']. split.
      * apply Forall_app. split.
        -- eapply Forall_impl; [exact HQ|]. intros y (x & Hx & Hy).
           exists rm, g. eauto 10.
        -- eapply Forall_impl; [exact HQ'|]. intros y (x & Hx & Hy).
           exists rm, g. eauto 10.
      * intros Hr ?? [= <-] Hg'. rewrite Hg in Hg'. injection Hg' as <-. auto.
Qed.

(** The count and the commit that ends every hundredth entry. *)
Lemma count_lands n F d out txn j (P : res Z → list entry → Prop) :
  P (Ok (n + 1)) [] →
  lands F j
    (((if decide ((n + 1) `mod` 100 = 0) then
         commit;;
         print_end (cr +:+ "Processed: " +:+ pretty (n + 1) +:+ " kanji") ""
       else pass);;
      ret (n + 1)) (st F d out txn j)) P.
Proof.
  intros HP. unfold bind. case_decide.
  - rewrite commit_st, print_end_st. by apply lands_ret.
  - by apply lands_ret.
Qed.

Lemma process_character_lands c n F d out txn j :
  lands F j (process_character py_int c n (st F d out txn j))
    (λ r es, segment j c es ∧
       ∀ n', r = Ok n' →
         accepted c ∧
         match find "literal" c with
         | None => es = [] ∧ n' = n
         | Some _ => es ≠ [] ∧ n' = n + 1
         end).
Proof.
  unfold process_character, accepted.
  destruct (find "literal" c) as [lit|] eqn:Hlit.
  2: { apply lands_ret. split; [by left|]. intros ? [= <-]. done. }
  unfold bind at 1. rewrite misc_block_eq.
  destruct (read_misc c) as [[[[g sc] f] jl]|e] eqn:Hm.
  2: { apply lands_here. split; [by left|done]. }
  unfold bind at 1. rewrite insert_kanji_st.
  case_decide as Hfits.
  2: { apply lands_here. split; [by left|done]. }
  destruct (text lit) as [t|] eqn:Ht.
  2: { apply lands_here. split; [by left|done]. }
  case_decide as Hfresh.
  { apply lands_here. split; [by left|done]. }
  apply (lands_shift _ _ [("kanji", kanji_row t (g, sc, f, jl))]). eapply lands_bind.
  - apply children_lands.
  - simpl. intros e es [HQ _]. split; [|done].
    right. exists lit, t, (g, sc, f, jl), es. done.
  - intros [] d' out' txn' es [HQ HG].
    apply count_lands. rewrite app_nil_r. split.
    + right. exists lit, t, (g, sc, f, jl), es. done.
    + intros ? [= <-]. split; [|done].
      intros ? [= <-]. rewrite Ht. split; [done|]. split; [by eexists|].
      by apply HG.
Qed.

End Pass.

(** ** The schema *)

(** A connection on a file: what the file holds, what the connection sees,
    whether a transaction is open, and the journal. *)
Definition on_file (F : gmap string node) (out : list string)
    (d v : DB) (txn : bool) (j : list entry) : State :=
  {| fs := <[db_file := File (Sqlite d)]> F;
     stdout := out;
     conn := Some {| path := db_file; view := v; in_transaction := txn |};
     journal := j |}.

(** A sequence of statements, as [execute] runs them one after the other. *)
Fixpoint exec_all (sts : list stmt) (d v : DB) (txn : bool) (j : list entry)
    : res unit * (DB * DB * bool * list entry) :=
  match sts with
  | [] => (Ok (), (d, v, txn, j))
  | stm :: sts' =>
      let txn' := txn || is_insert stm in
      match sql_exec stm v with
      | Raise e => (Raise e, (d, v, txn', j))
      | Ok v' => exec_all sts' (if txn' then d else v') v' txn' (j ++ journal_entry stm v')
      end
  end.

Lemma for_each_execute sts F out d v txn j :
  for_each sts execute (on_file F out d v txn j)
  = let '(r, (d', v', txn', j')) := exec_all sts d v txn j in
    (r, on_file F out d' v' txn' j').
Proof.
  revert d v txn j. induction sts as [|stm sts IH]; intros d v txn j; [done|].
  simpl. unfold bind, execute at 1. simpl.
  destruct (sql_exec stm v) as [v'|e]; [|done].
  destruct (txn || is_insert stm); simpl.
  - apply IH.
  - unfold on_file in IH. rewrite <- IH. unfold on_file.
    by rewrite insert_insert_eq.
Qed.

Definition ddl_db : DB :=
  {| tables :=
       <["kanji" := mkTable kanji_columns []]>
       (<["readings" := mkTable readings_columns []]>
       (<["meanings" := mkTable meanings_columns []]>
       (<["dictionary_metadata" := mkTable dictionary_metadata_columns []]>
       (<["room_table_modification_log" :=
            mkTable room_table_modification_log_columns []]> ∅))));
     indexes := indexes (db_from []) |}.

Definition room_rows : list entry :=
  [ ("room_table_modification_log", [Integer 0; Integer 0]);
    ("room_table_modification_log", [Integer 1; Integer 0]);
    ("room_table_modification_log", [Integer 2; Integer 0]);
    ("room_table_modification_log", [Integer 3; Integer 0]);
    ("room_table_modification_log", [Integer 4; Integer 0]);
    ("room_master_table", [Integer 42; Text "PLACEHOLDER_HASH"]) ].

Definition schema_statements : list stmt :=
  [ CreateTable "kanji" kanji_columns;
    CreateIndex "index_kanji_freq" "kanji" "freq";
    CreateTable "readings" readings_columns;
    CreateIndex "index_readings_literal" "readings" "literal";
    CreateTable "meanings" meanings_columns;
    CreateIndex "index_meanings_literal" "meanings" "literal";
    CreateTable "dictionary_metadata" dictionary_metadata_columns;
    CreateTable "room_table_modification_log" room_table_modification_log_columns;
    InsertInto "room_table_modification_log" None [Integer 0; Integer 0];
    InsertInto "room_table_modification_log" None [Integer 1; Integer 0];
    InsertInto "room_table_modification_log" None [Integer 2; Integer 0];
    InsertInto "room_table_modification_log" None [Integer 3; Integer 0];
    InsertInto "room_table_modification_log" None [Integer 4; Integer 0];
    CreateTable "room_master_table" room_master_table_columns;
    InsertInto "room_master_table" None [Integer 42; Text "PLACEHOLDER_HASH"] ].

Lemma create_tables_unfold s :
  create_tables s = (for_each schema_statements execute;; print "✓ Tables created") s.
Proof.
  unfold create_tables, schema_statements, for_each, bind, pass, ret.
  repeat (match goal with |- context [execute ?x ?s] =>
            destruct (execute x s) as [[[]|?] ?]; [|reflexivity] end).
  reflexivity.
Qed.

Lemma exec_schema :
  exec_all schema_statements empty_db empty_db false []
  = (Ok (), (ddl_db, db_from room_rows, true, room_rows)).
Proof. vm_compute. reflexivity. Qed.

Lemma create_tables_spec F out :
  create_tables (on_file F out empty_db empty_db false [])
  = (Ok (), st F ddl_db (out ++ ["✓ Tables created" +:+ nl]) true room_rows).
Proof.
  rewrite create_tables_unfold. unfold bind.
  rewrite for_each_execute, exec_schema. reflexivity.
Qed.

(** ** The loop over the character entries *)

Section Loop.

Variable py_int : string → option Z.

(** The rows a list of entries adds to the journal: entry by entry, up to
    the entry the script stops in, if it stops. *)
Inductive segments : list entry → list Element → list entry → Prop :=
  | segments_stop j l : segments j l []
  | segments_cons j c l es1 es2 :
      segment py_int j c es1 →
      segments (j ++ es1) l es2 →
      segments j (c :: l) (es1 ++ es2).

(** The kanji row of an entry. *)
Definition kanji_row_of (c : Element) : option (list value) :=
  match find "literal" c with
  | None => None
  | Some lit =>
      match text lit, read_misc py_int c with
      | Some t, Ok m => Some (kanji_row t m)
      | _, _ => None
      end
  end.

Lemma child_entry_not_kanji c t e : child_entry c t e → e.1 ≠ "kanji".
Proof.
  intros (rm & g & _ & _ & [(x & _ & (? & ? & ? & _ & _ & _ & ->))
                           |(x & _ & (? & ? & _ & _ & ->))]); done.
Qed.

Lemma proj_kanji_children c t tail :
  Forall (child_entry c t) tail → proj "kanji" tail = [].
Proof.
  induction 1 as [|[T r] tail H _ IH]; [done|].
  apply child_entry_not_kanji in H. by rewrite proj_cons_ne.
Qed.

Lemma characters_lands l n F d out txn j :
  lands F j (for_each_with l n (process_character py_int) (st F d out txn j))
    (λ r es, segments j l es ∧
       ∀ n', r = Ok n' →
         Forall (accepted py_int) l ∧
         proj "kanji" es = omap kanji_row_of l ∧
         n' = n + Z.of_nat (length (omap kanji_row_of l))).
Proof.
  revert n d out txn j. induction l as [|c l IH]; intros n d out txn j.
  - apply lands_ret. split; [constructor|]. intros ? [= <-]. simpl.
    split; [constructor|]. split; [done|lia].
  - simpl. eapply lands_bind.
    + apply process_character_lands.
    + simpl. intros e es [Hseg _]. split; [|done].
      rewrite <- (app_nil_r es). constructor; [done|constructor].
    + simpl. intros n1 d' out' txn' es [Hseg Hok].
      destruct (Hok n1 eq_refl) as [Hacc Hlit].
      eapply lands_mono; [apply IH|]. simpl.
      intros r es' [Hsegs Hok']. split; [by constructor|].
      intros n' ->. destruct (Hok' n' eq_refl) as (Hall & Hrows & Hn).
      split; [by constructor|].
      rewrite proj_app, Hrows. cbn [omap list_omap].
      change (list_omap _ _ kanji_row_of l) with (omap kanji_row_of l).
      destruct (find "literal" c) as [lit|] eqn:Elit.
      * destruct Hlit as [Hne ->].
        destruct Hseg as [->|(lit' & t & m & tail & Hl & Ht & Hm & _ & -> & Htail)];
          [done|].
        assert (lit' = lit) as -> by congruence.
        assert (kanji_row_of c = Some (kanji_row t m)) as ->.
        { unfold kanji_row_of. by rewrite Elit, Ht, Hm. }
        rewrite proj_cons_eq, (proj_kanji_children _ _ _ Htail).
        split; [done|]. rewrite length_cons, Nat2Z.inj_succ. lia.
      * destruct Hlit as [-> ->].
        assert (kanji_row_of c = None) as ->.
        { unfold kanji_row_of. by rewrite Elit. }
        simpl. split; [done|lia].
Qed.

(** A property of the rows of every entry is a property of the rows of
    the loop. *)
Lemma segments_Forall (Q : entry → Prop) j l es :
  segments j l es →
  (∀ j' c es', c ∈ l → segment py_int j' c es' → Forall Q es') →
  Forall Q es.
Proof.
  induction 1 as [|j c l es1 es2 Hseg _ IH]; intros HQ; [constructor|].
  apply Forall_app. split.
  - eapply HQ; [left|done].
  - apply IH. intros j' c' es' Hc. apply HQ. by right.
Qed.

Definition domain_entry (e : entry) : Prop :=
  e.1 = "kanji" ∨ e.1 = "readings" ∨ e.1 = "meanings".

Lemma child_entry_table c t e :
  child_entry c t e → e.1 = "readings" ∨ e.1 = "meanings".
Proof.
  intros (rm & g & _ & _ & [(x & _ & (? & ? & ? & _ & _ & _ & ->))
                           |(x & _ & (? & ? & _ & _ & ->))]); auto.
Qed.

Lemma segments_domain j l es : segments j l es → Forall domain_entry es.
Proof.
  intros H. eapply segments_Forall; [exact H|].
  intros j' c es' _ [->|(lit & t & m & tail & _ & _ & _ & _ & -> & Htail)];
    [constructor|].
  constructor; [by left|].
  eapply Forall_impl; [exact Htail|].
  intros e He%child_entry_table. right. exact He.
Qed.

Lemma proj_domain T es :
  T ≠ "kanji" → T ≠ "readings" → T ≠ "meanings" →
  Forall domain_entry es → proj T es = [].
Proof.
  intros H1 H2 H3. induction 1 as [|[T' r] es [H|[H|H]] _ IH]; [done|..];
    simpl in H; subst T'; by rewrite proj_cons_ne.
Qed.

End Loop.

(** ** The extraction pass and the report *)

Definition metadata_rows : list entry :=
  [ ("dictionary_metadata", [Text "kanjidic2_version"; Text "2025-01"]);
    ("dictionary_metadata", [Text "dictionary_initialized"; Text "true"]) ].

(** What [ET.parse] makes of a node of the file system. *)
Definition parse_of (n : option node) : res Element :=
  match n with
  | Some (File (Xml root)) => Ok root
  | Some (File _) => Raise ParseError
  | Some Dir => Raise IsADirectoryError
  | None => Raise FileNotFoundError
  end.

Lemma ET_parse_eq p s : ET_parse p s = (parse_of (fs s !! p), s).
Proof.
  unfold ET_parse, parse_of. destruct (fs s !! p) as [[[]|]|]; done.
Qed.

Lemma insert_metadata_st k v F d out txn j :
  execute (InsertInto "dictionary_metadata" None [Text k; Text v]) (st F d out txn j)
  = if decide (Text k ∈ cell 0 <$> proj "dictionary_metadata" j)
    then (Raise (IntegrityError "UNIQUE constraint failed: dictionary_metadata.key"),
          st F d out true j)
    else (Ok (), st F d out true (j ++ [("dictionary_metadata", [Text k; Text v])])).
Proof.
  rewrite execute_insert_st by table_name.
  change (cols_of "dictionary_metadata") with dictionary_metadata_columns.
  rewrite insert_metadata_row. case_decide; [done|]. by rewrite inserted_snoc.
Qed.

Lemma proj_metadata_domain es :
  Forall domain_entry es → proj "dictionary_metadata" es = [].
Proof. by apply proj_domain. Qed.

Section Populate.

Variable py_int : string → option Z.

(** The extraction pass, once the loop is through, always gets to its
    end. *)
Lemma populate_st xml F d out txn j :
  proj "dictionary_metadata" j = [] →
  populate py_int xml (st F d out txn j)
  = match parse_of (fs (st F d out txn j) !! xml) with
    | Raise e => (Raise e, st F d (out ++ ["Parsing XML..." +:+ nl]) txn j)
    | Ok root =>
        match for_each_with (findall "character" root) 0 (process_character py_int)
                (st F d (out ++ ["Parsing XML..." +:+ nl]) txn j) with
        | (Raise e, s') => (Raise e, s')
        | (Ok count, s') =>
            (Ok (),
             st F (db_from (journal s' ++ metadata_rows))
               (stdout s' ++
                [(nl +:+ "✓ Processed " +:+ pretty count +:+ " kanji total") +:+ nl;
                 "✓ Metadata added" +:+ nl])
               false (journal s' ++ metadata_rows))
        end
    end.
Proof.
  intros Hmeta. unfold populate. unfold bind at 1. unfold print. rewrite print_end_st.
  unfold bind at 1. rewrite ET_parse_eq.
  change (fs (st F d (out ++ ["Parsing XML..." +:+ nl]) txn j))
    with (fs (st F d out txn j)).
  destruct (parse_of _) as [root|e]; [|done].
  unfold bind at 1.
  destruct (characters_lands py_int (findall "character" root) 0 F d
              (out ++ ["Parsing XML..." +:+ nl]) txn j)
    as (d' & out' & txn' & es & Hs & Hseg & _).
  destruct (for_each_with _ _ _ _) as [[count|e] s']; [|done].
  simpl in Hs. subst s'. cbn [journal stdout st].
  apply segments_domain in Hseg.
  unfold bind. rewrite commit_st, print_end_st, insert_metadata_st.
  rewrite proj_app, Hmeta, (proj_metadata_domain _ Hseg).
  rewrite decide_False by (simpl; apply not_elem_of_nil).
  rewrite insert_metadata_st.
  rewrite !proj_app, Hmeta, (proj_metadata_domain _ Hseg), proj_cons_eq.
  rewrite decide_False.
  2: { simpl. intros [?|[]%elem_of_nil]%elem_of_cons. done. }
  rewrite commit_st, print_end_st.
  unfold metadata_rows. rewrite <- !app_assoc. simpl. reflexivity.
Qed.

End Populate.

(** The state a completed run leaves: the output file holds the database,
    the connection is closed. *)
Definition closed (F : gmap string node) (d : DB) (out : list string)
    (j : list entry) : State :=
  {| fs := <[db_file := File (Sqlite d)]> F; stdout := out; conn := None; journal := j |}.

Lemma table_info_kanji j :
  table_info "kanji" (db_from j)
  = [("literal", "TEXT", 1, 1); ("grade", "INTEGER", 0, 0);
     ("strokeCount", "INTEGER", 0, 0); ("freq", "INTEGER", 0, 0);
     ("jlpt", "INTEGER", 0, 0)].
Proof. unfold table_info. rewrite lookup_db_from by table_name. reflexivity. Qed.

Section Report.

Variable getsize : node → Z.
Variable format_mb : Z → string.

(** The report only prints and closes the connection. *)
Lemma report_st F d out txn j :
  ∃ out', report getsize format_mb (st F d out txn j) = (Ok (), closed F d out' j).
Proof.
  unfold report, bind, print, print_end, query, close, st, closed.
  cbn [fs stdout conn journal view]. rewrite table_info_kanji.
  cbn [for_each bind print print_end fs stdout conn journal pass ret].
  unfold bind, print, print_end, pass, ret.
  cbn [fs stdout conn journal]. rewrite lookup_insert_eq.
  eexists. reflexivity.
Qed.

End Report.

(** ** Only [check_arguments] leaves through [sys.exit] *)

Definition uncaught (e : exn) : Prop :=
  match e with SystemExit _ => False | _ => True end.

Definition no_exit {A} (m : M A) : Prop :=
  ∀ s e, (m s).1 = Raise e → uncaught e.

Lemma no_exit_ret {A} (a : A) : no_exit (ret a).
Proof. intros s e. discriminate. Qed.

Lemma no_exit_bind {A B} (m : M A) (f : A → M B) :
  no_exit m → (∀ a, no_exit (f a)) → no_exit (bind m f).
Proof.
  intros Hm Hf s e. unfold bind. specialize (Hm s).
  destruct (m s) as [[a|e'] s'].
  - apply Hf.
  - simpl. intros [= <-]. by apply Hm.
Qed.

Lemma check_cell_uncaught T rs i c v e :
  check_cell T rs i c v = Raise e → uncaught e.
Proof.
  unfold check_cell.
  repeat match goal with |- context [if ?b then _ else _] => destruct b end;
    intros [= <-]; done.
Qed.

Lemma check_row_uncaught T rs i cs vs e :
  check_row T rs i cs vs = Raise e → uncaught e.
Proof.
  revert i vs. induction cs as [|c cs IH]; intros i [|v vs]; simpl; try done.
  - intros [= <-]. done.
  - destruct (check_cell T rs i c v) eqn:E.
    + destruct (check_row T rs (S i) cs vs) eqn:E'; [done|].
      intros [= <-]. by eapply IH.
    + intros [= <-]. by eapply check_cell_uncaught.
Qed.

Lemma insert_row_uncaught T t into vals e :
  insert_row T t into vals = Raise e → uncaught e.
Proof.
  unfold insert_row. destruct into as [names|].
  - case_decide; [|by intros [= <-]].
    destruct (forallb _ _); [|by intros [= <-]].
    destruct (check_row _ _ _ _ _) eqn:E; [done|].
    intros [= <-]. by eapply check_row_uncaught.
  - case_decide; [|by intros [= <-]].
    destruct (check_row _ _ _ _ _) eqn:E; [done|].
    intros [= <-]. by eapply check_row_uncaught.
Qed.

Lemma sql_exec_uncaught stm db e : sql_exec stm db = Raise e → uncaught e.
Proof.
  destruct stm as [name cols|name tbl c|tbl into vals]; simpl.
  - destruct (tables db !! name); [|done]. by intros [= <-].
  - destruct (indexes db !! name); [by intros [= <-]|].
    destruct (tables db !! tbl); [|by intros [= <-]].
    case_bool_decide; [done|]. by intros [= <-].
  - destruct (tables db !! tbl); [|by intros [= <-]].
    destruct (insert_row _ _ _ _) eqn:E; [done|].
    intros [= <-]. by eapply insert_row_uncaught.
Qed.

Lemma no_exit_execute stm : no_exit (execute stm).
Proof.
  intros s e. unfold execute. destruct (conn s) as [c|]; [|by intros [= <-]].
  destruct (sql_exec stm (view c)) eqn:E; [done|].
  simpl. intros [= <-]. by eapply sql_exec_uncaught.
Qed.

Lemma bind_params_uncaught ps e : bind_params ps = Raise e → uncaught e.
Proof.
  induction ps as [|[| |] ps IH]; simpl; try done.
  - destruct (bind_params ps); [done|]. intros [= <-]. by apply IH.
  - case_bool_decide; [|by intros [= <-]].
    destruct (bind_params ps); [done|]. intros [= <-]. by apply IH.
  - destruct (bind_params ps); [done|]. intros [= <-]. by apply IH.
Qed.

Lemma no_exit_execute_params T into ps : no_exit (execute_params T into ps).
Proof.
  unfold execute_params. destruct (bind_params ps) eqn:E.
  - apply no_exit_execute.
  - intros s e'. simpl. intros [= <-]. by eapply bind_params_uncaught.
Qed.

Lemma no_exit_commit : no_exit commit.
Proof. intros s e. unfold commit. destruct (conn s); [done|]. by intros [= <-]. Qed.

Lemma no_exit_print_end x e : no_exit (print_end x e).
Proof. intros s e'. done. Qed.

Lemma no_exit_for_each {A} (l : list A) body :
  (∀ x, no_exit (body x)) → no_exit (for_each l body).
Proof.
  intros H. induction l; simpl; [apply no_exit_ret|].
  apply no_exit_bind; auto.
Qed.

Lemma no_exit_for_each_with {A V} (l : list A) (v : V) body :
  (∀ x v, no_exit (body x v)) → no_exit (for_each_with l v body).
Proof.
  intros H. revert v. induction l; intros v; simpl; [apply no_exit_ret|].
  apply no_exit_bind; auto.
Qed.

Section NoExit.

Variable py_int : string → option Z.

Lemma no_exit_misc_field misc name : no_exit (misc_field py_int misc name).
Proof.
  intros s e. rewrite misc_field_eq. simpl. unfold read_field.
  destruct (find name misc) as [elem|]; [|done].
  destruct (text elem) as [x|]; [|by intros [= <-]].
  destruct (py_int x); [done|]. by intros [= <-].
Qed.

Lemma no_exit_process_character c n : no_exit (process_character py_int c n).
Proof.
  unfold process_character. destruct (find "literal" c); [|apply no_exit_ret].
  apply no_exit_bind.
  { destruct (find "misc" c); [|apply no_exit_ret].
    repeat (apply no_exit_bind; [apply no_exit_misc_field|intros ?]).
    apply no_exit_ret. }
  intros [[[g sc] f] jl].
  apply no_exit_bind; [apply no_exit_execute_params|intros _].
  apply no_exit_bind.
  { destruct (find "reading_meaning" c) as [rm|]; [|apply no_exit_ret].
    destruct (find "rmgroup" rm); [|apply no_exit_ret].
    apply no_exit_bind; [|intros _]; apply no_exit_for_each; intros x.
    - unfold insert_reading. case_bool_decide;
        [apply no_exit_execute_params|apply no_exit_ret].
    - unfold insert_meaning. case_bool_decide;
        [apply no_exit_execute_params|apply no_exit_ret]. }
  intros _. apply no_exit_bind; [|intros _; apply no_exit_ret].
  case_decide; [|apply no_exit_ret].
  apply no_exit_bind; [apply no_exit_commit|intros _; apply no_exit_print_end].
Qed.

End NoExit.

(** ** Whole runs *)

(** The document the script gets from [ET.parse]: the output file, which is
    a database by then, is not one. *)
Definition document (F : gmap string node) (xml : string) : res Element :=
  if decide (xml = db_file) then Raise ParseError else parse_of (F !! xml).

Lemma parse_of_st xml F d out txn j :
  parse_of (fs (st F d out txn j) !! xml) = document F xml.
Proof.
  unfold document, st. cbn [fs]. case_decide as H.
  - subst xml. by rewrite lookup_insert_eq.
  - by rewrite lookup_insert_ne.
Qed.

Lemma parse_of_uncaught n e : parse_of n = Raise e → uncaught e.
Proof. destruct n as [[[]|]|]; simpl; intros [= <-]; done. Qed.

Lemma document_uncaught F xml e : document F xml = Raise e → uncaught e.
Proof.
  unfold document. case_decide; [by intros [= <-]|apply parse_of_uncaught].
Qed.

Lemma st_insert n F d out txn j :
  st (<[db_file := n]> F) d out txn j = st F d out txn j.
Proof. unfold st. by rewrite insert_insert_eq. Qed.

Definition usage_line : string :=
  "Usage: python3 generate_database.py <kanjidic2.xml>" +:+ nl.

Definition not_found_line (xml : string) : string :=
  ("Error: File not found: " +:+ xml) +:+ nl.

Definition generating_line (xml : string) : string :=
  ("Generating kanjidic2.db from " +:+ xml +:+ "...") +:+ nl.

Section Run.

Variable py_int : string → option Z.
Variable getsize : node → Z.
Variable format_mb : Z → string.

Local Abbreviation run := (run py_int getsize format_mb).

(** What is left of the script once the schema is there. *)
Definition build (xml : string) : M unit :=
  populate py_int xml;; report getsize format_mb.

Lemma run_no_argument argv files :
  (length argv < 2)%nat →
  run argv files = (Raise (SystemExit 1), mkState files [usage_line] None []).
Proof.
  intros H. unfold run, main, check_arguments, bind.
  rewrite decide_True by done. reflexivity.
Qed.

Lemma run_not_found argv files xml :
  argv !! 1%nat = Some xml → files !! xml = None →
  run argv files = (Raise (SystemExit 1), mkState files [not_found_line xml] None []).
Proof.
  intros Harg Hnone. unfold run, main, check_arguments, bind.
  apply lookup_lt_Some in Harg as Hlen.
  rewrite decide_False by lia. rewrite Harg.
  unfold bind, os_path_exists. cbn [fs]. rewrite Hnone.
  rewrite bool_decide_false by (intros [? ?]; done). reflexivity.
Qed.

Lemma run_output_is_directory argv files xml :
  argv !! 1%nat = Some xml → is_Some (files !! xml) → files !! db_file = Some Dir →
  run argv files =
    (Raise IsADirectoryError, mkState files [generating_line xml] None []).
Proof.
  intros Harg Hsome Hdir. unfold run, main, check_arguments, bind.
  apply lookup_lt_Some in Harg as Hlen.
  rewrite decide_False by lia. rewrite Harg.
  unfold bind, os_path_exists. cbn [fs]. rewrite bool_decide_true by done.
  cbn [negb ret print print_end fs stdout conn journal].
  unfold open_database, bind, os_path_exists. cbn [fs]. rewrite Hdir.
  rewrite bool_decide_true by done. unfold os_remove. cbn [fs]. rewrite Hdir.
  reflexivity.
Qed.

Lemma check_arguments_ok argv xml s :
  argv !! 1%nat = Some xml → is_Some (fs s !! xml) →
  check_arguments argv s = (Ok xml, s).
Proof.
  intros Harg Hsome. unfold check_arguments.
  apply lookup_lt_Some in Harg as Hlen.
  rewrite decide_False by lia. rewrite Harg.
  unfold bind, os_path_exists. by rewrite bool_decide_true.
Qed.

Lemma open_database_ok files out j :
  files !! db_file ≠ Some Dir →
  open_database (mkState files out None j)
  = (Ok (), on_file files out empty_db empty_db false j).
Proof.
  intros Hdir. unfold open_database, bind, os_path_exists. cbn [fs].
  destruct (files !! db_file) as [[c|]|] eqn:E; [| done |].
  - rewrite bool_decide_true by done. unfold os_remove. cbn [fs]. rewrite E.
    unfold sqlite3_connect. cbn [fs stdout conn journal].
    rewrite lookup_delete_eq, insert_delete_eq. reflexivity.
  - rewrite bool_decide_false by (intros [? ?]; done).
    unfold pass, ret, sqlite3_connect. cbn [fs stdout conn journal].
    rewrite E. reflexivity.
Qed.

Lemma run_build argv files xml :
  argv !! 1%nat = Some xml → is_Some (files !! xml) → files !! db_file ≠ Some Dir →
  run argv files =
    build xml (st files ddl_db [generating_line xml; "✓ Tables created" +:+ nl]
                 true room_rows).
Proof.
  intros Harg Hsome Hdir. unfold run, main.
  unfold bind at 1. rewrite (check_arguments_ok _ xml) by done.
  unfold bind at 1. unfold print, print_end. cbn [fs stdout conn journal app].
  unfold bind at 1. rewrite open_database_ok by done.
  unfold bind at 1. rewrite create_tables_spec. reflexivity.
Qed.

(** How a run ends once the schema is there: in the document, in the
    loop, or at the end of the script. *)
Lemma build_outcome xml F d out txn j :
  proj "dictionary_metadata" j = [] →
  match document F xml with
  | Raise e => ∃ out', build xml (st F d out txn j) = (Raise e, st F d out' txn j)
  | Ok root =>
      ∃ es, segments py_int j (findall "character" root) es ∧
        ((∃ e d' out' txn',
            build xml (st F d out txn j) = (Raise e, st F d' out' txn' (j ++ es)) ∧
            uncaught e) ∨
         (∃ out',
            build xml (st F d out txn j)
            = (Ok (), closed F (db_from (j ++ es ++ metadata_rows)) out'
                        (j ++ es ++ metadata_rows)) ∧
            Forall (accepted py_int) (findall "character" root) ∧
            proj "kanji" es = omap (kanji_row_of py_int) (findall "character" root)))
  end.
Proof.
  intros Hmeta. unfold build, bind. rewrite populate_st by done.
  rewrite parse_of_st. destruct (document F xml) as [root|e]; [|by eexists].
  destruct (characters_lands py_int (findall "character" root) 0 F d
              (out ++ ["Parsing XML..." +:+ nl]) txn j)
    as (d' & out' & txn' & es & Hs & Hseg & Hok).
  pose proof (no_exit_for_each_with (findall "character" root) 0
                (process_character py_int) (no_exit_process_character py_int)
                (st F d (out ++ ["Parsing XML..." +:+ nl]) txn j)) as Hne.
  destruct (for_each_with _ _ _ _) as [[count|e] s']; simpl in Hs, Hok, Hne; subst s'.
  - exists es. split; [done|]. right.
    cbn [journal stdout st].
    rewrite <- !app_assoc.
    match goal with
    | |- ∃ _, report _ _ (st _ _ ?o _ _) = _ ∧ _ =>
        destruct (report_st getsize format_mb F
                    (db_from (j ++ es ++ metadata_rows))
                    o false (j ++ es ++ metadata_rows)) as [out'' Hrep]
    end.
    destruct (Hok count eq_refl) as (Hacc & Hrows & _).
    exists out''. split; [exact Hrep|]. split; assumption.
  - exists es. split; [done|]. left. exists e, d', out', txn'. split; [done|].
    by apply Hne.
Qed.

End Run.

(** ** What the journal of a run looks like *)

(** A row of the readings or meanings table names, in its literal column,
    the literal of a kanji row among the rows [seen] before it. *)
Definition refers (seen : list entry) (e : entry) : Prop :=
  e.1 = "readings" ∨ e.1 = "meanings" →
  ∃ krow, ("kanji", krow) ∈ seen ∧ cell 0 krow = cell 1 e.2.

Fixpoint ordered (seen : list entry) (J : list entry) : Prop :=
  match J with
  | [] => True
  | e :: J' => refers seen e ∧ ordered (seen ++ [e]) J'
  end.

Lemma refers_mono seen seen' e :
  (∀ x, x ∈ seen → x ∈ seen') → refers seen e → refers seen' e.
Proof. intros Hsub H He. destruct (H He) as (k & Hk & Hc). eauto. Qed.

Lemma ordered_mono seen seen' J :
  (∀ x, x ∈ seen → x ∈ seen') → ordered seen J → ordered seen' J.
Proof.
  revert seen seen'. induction J as [|e J IH]; intros seen seen' Hsub; [done|].
  simpl. intros [H1 H2]. split; [by eapply refers_mono|].
  eapply IH; [|exact H2]. intros x [?|?]%elem_of_app; apply elem_of_app; auto.
Qed.

Lemma ordered_app seen J1 J2 :
  ordered seen (J1 ++ J2) ↔ ordered seen J1 ∧ ordered (seen ++ J1) J2.
Proof.
  revert seen. induction J1 as [|e J1 IH]; intros seen; simpl.
  - rewrite app_nil_r. tauto.
  - rewrite IH, <- app_assoc. simpl. tauto.
Qed.

Lemma ordered_split seen J pre e post :
  ordered seen J → J = pre ++ e :: post → refers (seen ++ pre) e.
Proof.
  intros H ->. apply ordered_app in H as [_ H]. simpl in H. tauto.
Qed.

Lemma ordered_Forall seen J :
  Forall (refers seen) J → ordered seen J.
Proof.
  revert seen. induction J as [|e J IH]; intros seen; [done|].
  intros [H1 H2]%Forall_cons. split; [done|]. apply IH.
  eapply Forall_impl; [exact H2|]. intros x. apply refers_mono.
  intros y ?. apply elem_of_app. auto.
Qed.

Lemma refers_other seen e :
  e.1 ≠ "readings" → e.1 ≠ "meanings" → refers seen e.
Proof. intros H1 H2 [?|?]; done. Qed.

Section Journal.

Variable py_int : string → option Z.

Lemma child_entry_literal c t e : child_entry c t e → cell 1 e.2 = Text t.
Proof.
  intros (rm & g & _ & _ & [(x & _ & (? & ? & ? & _ & _ & _ & ->))
                           |(x & _ & (? & ? & _ & _ & ->))]); done.
Qed.

Lemma segment_ordered j c es : segment py_int j c es → ordered j es.
Proof.
  intros [->|(lit & t & m & tail & _ & _ & _ & _ & -> & Htail)]; [done|].
  split; [by apply refers_other|].
  apply ordered_Forall. eapply Forall_impl; [exact Htail|].
  intros e He _. exists (kanji_row t m). split.
  - apply elem_of_app. right. by left.
  - apply child_entry_literal in He. rewrite He. by destruct m as [[[??]?]?].
Qed.

Lemma segments_ordered j l es : segments py_int j l es → ordered j es.
Proof.
  induction 1 as [|j c l es1 es2 Hseg _ IH]; [done|].
  apply ordered_app. split; [by eapply segment_ordered|done].
Qed.

(** The literals of the kanji rows are pairwise distinct. *)
Lemma segments_nodup j l es :
  segments py_int j l es →
  NoDup (cell 0 <$> proj "kanji" j) →
  NoDup (cell 0 <$> proj "kanji" (j ++ es)).
Proof.
  induction 1 as [j l|j c l es1 es2 Hseg _ IH]; intros Hj.
  - by rewrite app_nil_r.
  - rewrite app_assoc. apply IH.
    destruct Hseg as [->|(lit & t & m & tail & _ & _ & _ & Hfresh & -> & Htail)].
    + by rewrite app_nil_r.
    + rewrite proj_app, proj_cons_eq, (proj_kanji_children _ _ _ Htail).
      rewrite fmap_app. apply NoDup_app. split; [done|]. split.
      * intros x Hx [->|[]%elem_of_nil]%elem_of_cons.
        destruct m as [[[??]?]?]. done.
      * apply NoDup_singleton.
Qed.

(** Every readings row has one of the two reading types. *)
Definition reading_row (row : list value) : Prop :=
  ∃ id t ty x, row = [Integer id; Text t; Text ty; Text x] ∧
    (ty = "ja_on" ∨ ty = "ja_kun").

Lemma segments_readings j l es row :
  segments py_int j l es → ("readings", row) ∈ es → reading_row row.
Proof.
  intros Hsegs Hin.
  assert (Forall (λ e, e.1 = "readings" → reading_row e.2) es) as HF.
  { eapply segments_Forall; [exact Hsegs|].
    intros j' c es' _ [->|(lit & t & m & tail & _ & _ & _ & _ & -> & Htail)];
      [constructor|].
    constructor; [done|]. eapply Forall_impl; [exact Htail|].
    intros e (rm & g & _ & _ & [(x & _ & (id & ty & tx & _ & Hty & _ & ->))
                               |(x & _ & (? & ? & _ & _ & ->))]); [|done].
    intros _. by exists id, t, ty, tx. }
  rewrite Forall_forall in HF. by apply (HF _ Hin).
Qed.

(** Every meanings row comes from a meaning element without [m_lang], in
    the first group of an entry of the list. *)
Definition meaning_row (l : list Element) (row : list value) : Prop :=
  ∃ c lit t rm g elem id x,
    c ∈ l ∧ find "literal" c = Some lit ∧ text lit = Some t ∧
    find "reading_meaning" c = Some rm ∧ find "rmgroup" rm = Some g ∧
    elem ∈ findall "meaning" g ∧ get elem "m_lang" = None ∧ text elem = Some x ∧
    row = [Integer id; Text t; Text x].

Lemma segments_meanings j l es row :
  segments py_int j l es → ("meanings", row) ∈ es → meaning_row l row.
Proof.
  intros Hsegs Hin.
  assert (Forall (λ e, e.1 = "meanings" → meaning_row l e.2) es) as HF.
  { eapply segments_Forall; [exact Hsegs|].
    intros j' c es' Hc [->|(lit & t & m & tail & Hlit & Ht & _ & _ & -> & Htail)];
      [constructor|].
    constructor; [done|]. eapply Forall_impl; [exact Htail|].
    intros e (rm & g & Hrm & Hg & [(x & _ & (? & ? & ? & _ & _ & _ & ->))
                                  |(x & Hx & (id & tx & Hlang & Htx & ->))]); [done|].
    intros _. exists c, lit, t, rm, g, x, id, tx. done. }
  rewrite Forall_forall in HF. by apply (HF _ Hin).
Qed.

(** Every kanji row has the literal of an entry in its first column. *)
Lemma segments_kanji j l es row :
  segments py_int j l es → ("kanji", row) ∈ es →
  ∃ c lit t, c ∈ l ∧ find "literal" c = Some lit ∧ text lit = Some t ∧
    cell 0 row = Text t.
Proof.
  intros Hsegs Hin.
  assert (Forall (λ e, e.1 = "kanji" →
            ∃ c lit t, c ∈ l ∧ find "literal" c = Some lit ∧ text lit = Some t ∧
              cell 0 e.2 = Text t) es) as HF.
  { eapply segments_Forall; [exact Hsegs|].
    intros j' c es' Hc [->|(lit & t & m & tail & Hlit & Ht & _ & _ & -> & Htail)];
      [constructor|].
    constructor.
    - intros _. exists c, lit, t. by destruct m as [[[??]?]?].
    - eapply Forall_impl; [exact Htail|].
      intros e He%child_entry_not_kanji. done. }
  rewrite Forall_forall in HF. by apply (HF _ Hin).
Qed.

End Journal.

(** ** How a run ends *)

Definition characters_of (argv : list string) (files : gmap string node) : list Element :=
  match argv !! 1%nat with
  | Some xml =>
      match document files xml with
      | Ok root => findall "character" root
      | Raise _ => []
      end
  | None => []
  end.

Section Outcome.

Variable py_int : string → option Z.
Variable getsize : node → Z.
Variable format_mb : Z → string.

Local Abbreviation run := (run py_int getsize format_mb).

Inductive outcome (argv : list string) (files : gmap string node)
    : res unit * State → Prop :=
  | outcome_usage :
      (length argv < 2)%nat →
      outcome argv files (Raise (SystemExit 1), mkState files [usage_line] None [])
  | outcome_not_found xml :
      argv !! 1%nat = Some xml → files !! xml = None →
      outcome argv files
        (Raise (SystemExit 1), mkState files [not_found_line xml] None [])
  | outcome_directory xml :
      argv !! 1%nat = Some xml → is_Some (files !! xml) →
      files !! db_file = Some Dir →
      outcome argv files
        (Raise IsADirectoryError, mkState files [generating_line xml] None [])
  | outcome_document xml e out :
      argv !! 1%nat = Some xml → is_Some (files !! xml) →
      document files xml = Raise e →
      outcome argv files (Raise e, st files ddl_db out true room_rows)
  | outcome_entry xml root es e d out txn :
      argv !! 1%nat = Some xml →
      document files xml = Ok root →
      segments py_int room_rows (findall "character" root) es →
      uncaught e →
      outcome argv files (Raise e, st files d out txn (room_rows ++ es))
  | outcome_done xml root es out :
      argv !! 1%nat = Some xml →
      document files xml = Ok root →
      segments py_int room_rows (findall "character" root) es →
      Forall (accepted py_int) (findall "character" root) →
      proj "kanji" es = omap (kanji_row_of py_int) (findall "character" root) →
      outcome argv files
        (Ok (),
         closed files (db_from (room_rows ++ es ++ metadata_rows)) out
           (room_rows ++ es ++ metadata_rows)).

Lemma run_outcome argv files : outcome argv files (run argv files).
Proof.
  destruct (decide (length argv < 2)%nat) as [Hlen|Hlen].
  { rewrite run_no_argument by done. by constructor. }
  destruct (argv !! 1%nat) as [xml|] eqn:Harg.
  2: { apply lookup_ge_None in Harg. lia. }
  destruct (files !! xml) as [n|] eqn:Hxml.
  2: { rewrite (run_not_found _ _ _ _ _ xml) by done. by constructor. }
  assert (files !! db_file = Some Dir ∨ files !! db_file ≠ Some Dir) as [Hdir|Hdir].
  { destruct (files !! db_file) as [[c|]|]; auto. }
  { rewrite (run_output_is_directory _ _ _ _ _ xml) by done. by econstructor. }
  rewrite (run_build _ _ _ _ _ xml) by done.
  pose proof (build_outcome py_int getsize format_mb xml files ddl_db
                [generating_line xml; "✓ Tables created" +:+ nl] true room_rows
                eq_refl) as H.
  destruct (document files xml) as [root|e] eqn:Hdoc.
  - destruct H as (es & Hsegs & [(e & d' & out' & txn' & -> & He)
                                |(out' & -> & Hacc & Hrows)]).
    + by eapply outcome_entry.
    + by eapply outcome_done.
  - destruct H as [out' ->]. by eapply outcome_document.
Qed.

End Outcome.

(** The database a run has produced: the output file of a completed run, or
    what the connection holds when the run stops with the connection open. *)
Definition result_db (x : res unit * State) (d : DB) : Prop :=
  (completed x ∧ fs x.2 !! db_file = Some (File (Sqlite d))) ∨
  (∃ c, conn x.2 = Some c ∧ view c = d).

Lemma document_ok F xml root :
  document F xml = Ok root → xml ≠ db_file ∧ F !! xml = Some (File (Xml root)).
Proof.
  unfold document. case_decide; [done|].
  destruct (F !! xml) as [[[r| |]|]|]; simpl; try done.
  intros [= ->]. done.
Qed.

Lemma document_file F xml root :
  xml ≠ db_file → F !! xml = Some (File (Xml root)) → document F xml = Ok root.
Proof. intros H1 H2. unfold document. rewrite decide_False by done. by rewrite H2. Qed.

Lemma room_rows_ordered : ordered [] room_rows.
Proof. apply ordered_Forall. repeat constructor; by apply refers_other. Qed.

Lemma metadata_rows_ordered seen : ordered seen metadata_rows.
Proof. apply ordered_Forall. repeat constructor; by apply refers_other. Qed.

Section Facts.

Variable py_int : string → option Z.
Variable getsize : node → Z.
Variable format_mb : Z → string.

Local Abbreviation run := (run py_int getsize format_mb).

(** The journal of a run: nothing, or the rows of Room's tables, the rows
    of the entries and, at the end, the two metadata rows. *)
Definition journal_shape (argv : list string) (files : gmap string node)
    (J : list entry) : Prop :=
  ∃ es meta,
    J = room_rows ++ es ++ meta ∧
    segments py_int room_rows (characters_of argv files) es ∧
    (meta = [] ∨ meta = metadata_rows).

Lemma run_journal argv files :
  journal (run argv files).2 = [] ∨
  journal_shape argv files (journal (run argv files).2).
Proof.
  destruct (run_outcome py_int getsize format_mb argv files)
    as [?|xml ??|xml ???|xml e out Harg ? Hdoc|xml root es e d out txn Harg Hdoc Hsegs ?
       |xml root es out Harg Hdoc Hsegs ? ?]; simpl; auto; right.
  - exists [], []. split; [done|]. split; [constructor|auto].
  - exists es, []. rewrite app_nil_r. split; [done|]. split; [|auto].
    unfold characters_of. by rewrite Harg, Hdoc.
  - exists es, metadata_rows. split; [done|]. split; [|auto].
    unfold characters_of. by rewrite Harg, Hdoc.
Qed.

Lemma run_result_db argv files d :
  result_db (run argv files) d →
  d = db_from (journal (run argv files).2) ∧
  journal_shape argv files (journal (run argv files).2).
Proof.
  intros Hdb. destruct (run_journal argv files) as [Hnil|Hshape].
  - exfalso. revert Hdb Hnil. unfold result_db, completed.
    destruct (run_outcome py_int getsize format_mb argv files); simpl;
      try (intros [[[] _]|(c & [=] & _)]; fail); try done.
  - split; [|done]. clear Hshape. revert Hdb. unfold result_db, completed.
    destruct (run_outcome py_int getsize format_mb argv files); simpl;
      try (intros [[[] _]|(c & [=] & _)]; fail).
    + intros [[[] _]|(c & [= <-] & Hv)]. done.
    + intros [[[] _]|(c & [= <-] & Hv)]. done.
    + intros [[_ Hv]|(c & [=] & _)]. rewrite lookup_insert_eq in Hv. congruence.
Qed.

Lemma run_completed argv files :
  completed (run argv files) →
  ∃ xml root es out,
    argv !! 1%nat = Some xml ∧ xml ≠ db_file ∧ files !! xml = Some (File (Xml root)) ∧
    segments py_int room_rows (findall "character" root) es ∧
    Forall (accepted py_int) (findall "character" root) ∧
    proj "kanji" es = omap (kanji_row_of py_int) (findall "character" root) ∧
    run argv files =
      (Ok (),
       closed files (db_from (room_rows ++ es ++ metadata_rows)) out
         (room_rows ++ es ++ metadata_rows)).
Proof.
  unfold completed.
  destruct (run_outcome py_int getsize format_mb argv files)
    as [?|xml ??|xml ???|xml e out Harg ? Hdoc|xml root es e d out txn Harg Hdoc Hsegs ?
       |xml root es out Harg Hdoc Hsegs ? ?]; simpl; try done.
  intros _. apply document_ok in Hdoc as [? ?].
  exists xml, root, es, out. done.
Qed.

Lemma completed_result_db argv files :
  completed (run argv files) → ∃ d, result_db (run argv files) d.
Proof.
  intros Hc. destruct (run_completed argv files Hc)
    as (xml & root & es & out & _ & _ & _ & _ & _ & _ & Hrun).
  exists (db_from (room_rows ++ es ++ metadata_rows)). left. split; [done|].
  rewrite Hrun. apply lookup_insert_eq.
Qed.

(** A run that does not complete ends in an error or in [sys.exit(1)]. *)
Lemma run_failed argv files e :
  (run argv files).1 = Raise e → exit_status (run argv files).1 = 1.
Proof.
  destruct (run_outcome py_int getsize format_mb argv files) as
    [?|xml ??|xml ???|xml e' out Harg ? Hdoc|xml root es e' d out txn Harg Hdoc Hsegs He
    |xml root es out Harg Hdoc Hsegs ? ?]; simpl; try done.
  - apply document_uncaught in Hdoc. by destruct e'.
  - by destruct e'.
Qed.

End Facts.

Definition has_literal (c : Element) : Prop := is_Some (find "literal" c).

Global Instance has_literal_dec c : Decision (has_literal c).
Proof. unfold has_literal. apply _. Defined.

Section Rows.

Variable py_int : string → option Z.

Lemma accepted_rows l :
  Forall (accepted py_int) l →
  Forall2 (λ c row, kanji_row_of py_int c = Some row)
    (filter has_literal l) (omap (kanji_row_of py_int) l).
Proof.
  induction 1 as [|c l Hc _ IH]; [constructor|].
  cbn [omap list_omap].
  change (list_omap _ _ (kanji_row_of py_int) l) with (omap (kanji_row_of py_int) l).
  destruct (find "literal" c) as [lit|] eqn:Hlit.
  - rewrite filter_cons_True by (unfold has_literal; by rewrite Hlit).
    destruct (Hc lit Hlit) as ([t Ht] & (m & Hm & _) & _).
    assert (kanji_row_of py_int c = Some (kanji_row t m)) as Hrow.
    { unfold kanji_row_of. by rewrite Hlit, Ht, Hm. }
    rewrite Hrow. by constructor.
  - rewrite filter_cons_False by (unfold has_literal; rewrite Hlit; by intros [??]).
    assert (kanji_row_of py_int c = None) as ->; [|done].
    unfold kanji_row_of. by rewrite Hlit.
Qed.

Lemma kanji_row_of_literal c row :
  kanji_row_of py_int c = Some row →
  ∃ lit t, find "literal" c = Some lit ∧ text lit = Some t ∧ cell 0 row = Text t.
Proof.
  unfold kanji_row_of. destruct (find "literal" c) as [lit|]; [|done].
  destruct (text lit) as [t|] eqn:Ht; [|done].
  destruct (read_misc py_int c) as [[[[??]?]?]|]; [|done].
  intros [= <-]. by exists lit, t.
Qed.

Lemma skip_without_literal c n s :
  ¬ has_literal c → process_character py_int c n s = (Ok n, s).
Proof.
  unfold has_literal, process_character. destruct (find "literal" c); [|done].
  intros []. by eexists.
Qed.

End Rows.

Lemma proj_kanji_room_rows : proj "kanji" room_rows = [].
Proof. reflexivity. Qed.

Lemma proj_kanji_metadata meta :
  meta = [] ∨ meta = metadata_rows → proj "kanji" meta = [].
Proof. by intros [->| ->]. Qed.

Lemma room_rows_tables e :
  e ∈ room_rows → e.1 = "room_table_modification_log" ∨ e.1 = "room_master_table".
Proof.
  unfold room_rows. rewrite !elem_of_cons, elem_of_nil.
  intros [->|[->|[->|[->|[->|[->|[]]]]]]]; auto.
Qed.

Lemma metadata_rows_tables meta e :
  meta = [] ∨ meta = metadata_rows → e ∈ meta → e.1 = "dictionary_metadata".
Proof.
  intros [-> | ->]; [by intros ?%elem_of_nil|].
  unfold metadata_rows. rewrite !elem_of_cons, elem_of_nil.
  intros [->|[->|[]]]; auto.
Qed.

Section Claims.

Variable py_int : string → option Z.
Variable getsize : node → Z.
Variable format_mb : Z → string.

Local Abbreviation run := (run py_int getsize format_mb).

(** C1. After a completed run the kanji table has as many rows as the
    document has top-level character entries with a literal element, one
    row for each of them in document order, with the literal's text in
    the key column and no key twice; an entry without a literal element
    leaves every table as it is. *)
Theorem kanji_rows_match_entries argv files c n s :
  completed (run argv files) →
  ¬ has_literal c →
  (∃ xml root d,
     argv !! 1%nat = Some xml ∧ files !! xml = Some (File (Xml root)) ∧
     fs (run argv files).2 !! db_file = Some (File (Sqlite d)) ∧
     length (table_rows "kanji" d)
       = length (filter has_literal (findall "character" root)) ∧
     Forall2 (λ c row, ∃ lit t,
                find "literal" c = Some lit ∧ text lit = Some t ∧ cell 0 row = Text t)
       (filter has_literal (findall "character" root)) (table_rows "kanji" d) ∧
     NoDup (cell 0 <$> table_rows "kanji" d)) ∧
  process_character py_int c n s = (Ok n, s).
Proof.
  intros (xml & root & es & out & Harg & _ & Hxml & Hsegs & Hacc & Hrows & ->)
    %run_completed Hc.
  split; [|by apply skip_without_literal].
  exists xml, root, (db_from (room_rows ++ es ++ metadata_rows)).
  split; [done|]. split; [done|]. split; [apply lookup_insert_eq|].
  rewrite table_rows_db_from by table_name.
  rewrite !proj_app, Hrows. change (proj "kanji" room_rows) with (@nil (list value)).
  change (proj "kanji" metadata_rows) with (@nil (list value)).
  rewrite app_nil_l, app_nil_r.
  pose proof (accepted_rows py_int _ Hacc) as H2.
  split; [symmetry; by eapply Forall2_length|].
  split.
  { eapply Forall2_impl; [exact H2|]. intros c' row. apply kanji_row_of_literal. }
  rewrite <- Hrows.
  pose proof (segments_nodup py_int room_rows _ es Hsegs) as Hnd.
  rewrite proj_app in Hnd. change (proj "kanji" room_rows) with (@nil (list value)) in Hnd.
  apply Hnd. constructor.
Qed.

(** C3. Every row of the readings table that a run has produced has
    ja_on or ja_kun as its reading type, and a reading element with any
    other [r_type], or with none, leaves every table as it is. *)
Theorem reading_types_recognized argv files d row lt elem s :
  result_db (run argv files) d →
  row ∈ table_rows "readings" d →
  get elem "r_type" ∉ [Some "ja_on"; Some "ja_kun"] →
  (∃ id t ty x,
     row = [Integer id; Text t; Text ty; Text x] ∧ (ty = "ja_on" ∨ ty = "ja_kun")) ∧
  insert_reading lt elem s = (Ok (), s).
Proof.
  intros Hdb Hrow Hty. split.
  - apply run_result_db in Hdb as [-> (es & meta & HJ & Hsegs & Hmeta)].
    rewrite table_rows_db_from in Hrow by table_name.
    apply elem_of_proj in Hrow. rewrite HJ in Hrow.
    apply elem_of_app in Hrow as [Hrow|[Hrow|Hrow]%elem_of_app].
    + by apply room_rows_tables in Hrow as [?|?].
    + by eapply segments_readings.
    + by apply (metadata_rows_tables _ _ Hmeta) in Hrow.
  - unfold insert_reading. by rewrite bool_decide_false.
Qed.

(** C4. Every row of the meanings table that a run has produced comes
    from a meaning element without an [m_lang] attribute, in the first
    group of a character entry of the input document, and a meaning
    element that has the attribute leaves every table as it is. *)
Theorem meanings_without_language argv files d row lt elem s :
  result_db (run argv files) d →
  row ∈ table_rows "meanings" d →
  is_Some (get elem "m_lang") →
  (∃ xml root c lit t rm g src id x,
     argv !! 1%nat = Some xml ∧ files !! xml = Some (File (Xml root)) ∧
     c ∈ findall "character" root ∧
     find "literal" c = Some lit ∧ text lit = Some t ∧
     find "reading_meaning" c = Some rm ∧ find "rmgroup" rm = Some g ∧
     src ∈ findall "meaning" g ∧ get src "m_lang" = None ∧ text src = Some x ∧
     row = [Integer id; Text t; Text x]) ∧
  insert_meaning lt elem s = (Ok (), s).
Proof.
  intros Hdb Hrow Hlang. split.
  - apply run_result_db in Hdb as [-> (es & meta & HJ & Hsegs & Hmeta)].
    rewrite table_rows_db_from in Hrow by table_name.
    apply elem_of_proj in Hrow. rewrite HJ in Hrow.
    apply elem_of_app in Hrow as [Hrow|[Hrow|Hrow]%elem_of_app].
    + by apply room_rows_tables in Hrow as [?|?].
    + destruct (segments_meanings py_int _ _ _ _ Hsegs Hrow)
        as (c & lit & t & rm & g & src & id & x & Hc & H).
      unfold characters_of in Hc.
      destruct (argv !! 1%nat) as [xml|] eqn:Harg; [|by apply elem_of_nil in Hc].
      destruct (document files xml) as [root|] eqn:Hdoc; [|by apply elem_of_nil in Hc].
      apply document_ok in Hdoc as [_ Hxml].
      exists xml, root, c, lit, t, rm, g, src, id, x. done.
    + by apply (metadata_rows_tables _ _ Hmeta) in Hrow.
  - unfold insert_meaning. rewrite bool_decide_false; [done|].
    intros H. rewrite H in Hlang. by destruct Hlang.
Qed.

Lemma journal_ordered argv files : ordered [] (journal (run argv files).2).
Proof.
  destruct (run_journal py_int getsize format_mb argv files)
    as [->|(es & meta & -> & Hsegs & Hmeta)]; [done|].
  apply ordered_app. split; [apply room_rows_ordered|].
  apply ordered_app. split; [by eapply segments_ordered|].
  destruct Hmeta as [-> | ->]; [done|apply metadata_rows_ordered].
Qed.

(** C5. In the order in which a run writes its rows, every row of the
    readings or meanings table comes after a kanji row with the same
    literal; the tables of the database the run has produced hold the rows
    written, so every readings or meanings row there has its literal in
    the kanji table. *)
Theorem kanji_row_written_first argv files :
  (∀ pre T row post,
     journal (run argv files).2 = pre ++ (T, row) :: post →
     T = "readings" ∨ T = "meanings" →
     ∃ krow, ("kanji", krow) ∈ pre ∧ cell 0 krow = cell 1 row) ∧
  (∀ d, result_db (run argv files) d →
     (∀ T, T ∈ table_names → table_rows T d = proj T (journal (run argv files).2)) ∧
     ∀ T row, T = "readings" ∨ T = "meanings" → row ∈ table_rows T d →
       ∃ krow, krow ∈ table_rows "kanji" d ∧ cell 0 krow = cell 1 row).
Proof.
  pose proof (journal_ordered argv files) as Hord. split.
  - intros pre T row post HJ HT.
    apply (ordered_split [] _ pre (T, row) post Hord HJ HT).
  - intros d [-> _]%run_result_db. split.
    { intros T HT. by apply table_rows_db_from. }
    intros T row HT Hrow.
    rewrite table_rows_db_from in Hrow by (destruct HT as [-> | ->]; table_name).
    apply elem_of_proj, list_elem_of_split in Hrow as (pre & post & HJ).
    destruct (ordered_split [] _ pre (T, row) post Hord HJ HT) as (krow & Hk & Hc).
    exists krow. split; [|done].
    rewrite table_rows_db_from by table_name. apply elem_of_proj.
    rewrite HJ. apply elem_of_app. by left.
Qed.

(** C7. Running the script again on what a completed run has left gives
    the same result and leaves the same files: the same database. *)
Theorem rerun_same_database argv files :
  completed (run argv files) →
  run argv (fs (run argv files).2) = run argv files.
Proof.
  intros (xml & root & es & out & Harg & Hne & Hxml & _ & _ & _ & Hrun)%run_completed.
  assert (run argv files =
    build py_int getsize format_mb xml
      (st files ddl_db [generating_line xml; "✓ Tables created" +:+ nl] true room_rows))
    as Hbuild.
  { apply run_build; [done|by rewrite Hxml|].
    intros Hdir. rewrite (run_output_is_directory _ _ _ _ _ xml) in Hrun; done. }
  rewrite Hrun at 1. cbn [snd fs closed].
  rewrite (run_build _ _ _ _ _ xml); [|done|..].
  - by rewrite st_insert.
  - rewrite lookup_insert_ne by done. by rewrite Hxml.
  - by rewrite lookup_insert_eq.
Qed.

(** C9. Without an argument the script prints the usage line and exits
    with status 1; with a path at which there is nothing it prints the
    error line and exits with status 1.  In both cases the files are as
    they were and no connection was opened. *)
Theorem exits_before_database argv files xml :
  ((length argv < 2)%nat →
     run argv files = (Raise (SystemExit 1), mkState files [usage_line] None []) ∧
     exit_status (run argv files).1 = 1 ∧ fs (run argv files).2 = files) ∧
  (argv !! 1%nat = Some xml → files !! xml = None →
     run argv files
       = (Raise (SystemExit 1), mkState files [not_found_line xml] None []) ∧
     exit_status (run argv files).1 = 1 ∧ fs (run argv files).2 = files).
Proof.
  split.
  - intros H. by rewrite run_no_argument.
  - intros H1 H2. by rewrite (run_not_found _ _ _ _ _ xml).
Qed.

End Claims.

(** The four fields the script reads from the misc block. *)
Definition field_names : list string := ["grade"; "stroke_count"; "freq"; "jlpt"].

(** A column of a table of [d] is declared NOT NULL. *)
Definition declared_not_null (d : DB) (T name : string) : Prop :=
  ∃ t c, tables d !! T = Some t ∧ c ∈ columns t ∧ cname c = name ∧ notnull c = true.

Section Fields.

Variable py_int : string → option Z.

(** What the kanji row holds for a field: NULL when the misc block or the
    element is not there, the integer [int] reads from its text when it
    is. *)
Definition stored (c : Element) (name : string) : value :=
  match find "misc" c with
  | None => Null
  | Some misc =>
      match find name misc with
      | None => Null
      | Some elem => sql_int (text elem ≫= py_int)
      end
  end.

Lemma read_field_ok misc name n :
  read_field py_int misc name = Ok n →
  sql_int n = match find name misc with
              | None => Null
              | Some elem => sql_int (text elem ≫= py_int)
              end ∧
  ∀ elem, find name misc = Some elem → is_Some (text elem ≫= py_int).
Proof.
  unfold read_field. destruct (find name misc) as [elem|].
  - destruct (text elem) as [x|] eqn:Hx; [|done]. simpl.
    destruct (py_int x) as [z|] eqn:Hz; [|done].
    intros [= <-]. split; [done|]. intros ? [= <-]. rewrite Hx. simpl. by rewrite Hz.
  - intros [= <-]. done.
Qed.

Lemma read_field_bad misc name elem :
  find name misc = Some elem → text elem ≫= py_int = None →
  read_field py_int misc name = Raise TypeError ∨
  read_field py_int misc name = Raise ValueError.
Proof.
  unfold read_field. intros -> H. destruct (text elem) as [x|]; [|auto].
  simpl in H. rewrite H. auto.
Qed.

Lemma read_misc_ok c m t :
  read_misc py_int c = Ok m →
  kanji_row t m = [Text t; stored c "grade"; stored c "stroke_count";
                   stored c "freq"; stored c "jlpt"] ∧
  ∀ misc name elem,
    find "misc" c = Some misc → name ∈ field_names → find name misc = Some elem →
    is_Some (text elem ≫= py_int).
Proof.
  unfold read_misc, stored. destruct (find "misc" c) as [misc|].
  2: { intros [= <-]. done. }
  destruct (read_field py_int misc "grade") as [g|] eqn:Hg; [|done].
  destruct (read_field py_int misc "stroke_count") as [sc|] eqn:Hsc; [|done].
  destruct (read_field py_int misc "freq") as [f|] eqn:Hf; [|done].
  destruct (read_field py_int misc "jlpt") as [jl|] eqn:Hjl; [|done].
  intros [= <-].
  apply read_field_ok in Hg as [Hg Hg'], Hsc as [Hsc Hsc'],
    Hf as [Hf Hf'], Hjl as [Hjl Hjl'].
  split.
  - simpl. by rewrite Hg, Hsc, Hf, Hjl.
  - intros ? name elem [= <-]. unfold field_names.
    rewrite !elem_of_cons, elem_of_nil.
    intros [->|[->|[->|[->|[]]]]]; auto.
Qed.

Lemma read_misc_bad c misc name elem :
  find "misc" c = Some misc → name ∈ field_names → find name misc = Some elem →
  text elem ≫= py_int = None →
  ∃ e, read_misc py_int c = Raise e.
Proof.
  intros Hmisc Hname Helem Hbad.
  destruct (read_misc py_int c) as [m|e] eqn:Hm; [|by eexists].
  destruct (read_misc_ok c m "" Hm) as [_ H].
  destruct (H misc name elem Hmisc Hname Helem) as [z Hz]. congruence.
Qed.

End Fields.

Section Aborts.

Variable py_int : string → option Z.
Variable getsize : node → Z.
Variable format_mb : Z → string.

Local Abbreviation run := (run py_int getsize format_mb).

(** A run on a document ends in an error that nothing catches, or gets
    past every entry. *)
Lemma run_accepts argv files xml root :
  argv !! 1%nat = Some xml → files !! xml = Some (File (Xml root)) →
  (∃ e, (run argv files).1 = Raise e ∧ uncaught e) ∨
  (completed (run argv files) ∧ Forall (accepted py_int) (findall "character" root)).
Proof.
  intros Harg Hxml. unfold completed.
  destruct (run_outcome py_int getsize format_mb argv files)
    as [Hlen|xml' Harg' Hnone|xml' ???|xml' e out Harg' ? Hdoc
       |xml' root' es e d out txn Harg' Hdoc Hsegs He
       |xml' root' es out Harg' Hdoc Hsegs Hacc ?]; simpl.
  - apply lookup_lt_Some in Harg. lia.
  - congruence.
  - left. by eexists.
  - left. exists e. split; [done|]. by eapply document_uncaught.
  - left. by exists e.
  - right. split; [done|]. apply document_ok in Hdoc as [_ Hdoc].
    congruence.
Qed.

Lemma empty_literal_refused c n lit m F d out txn j :
  find "literal" c = Some lit → text lit = None →
  read_misc py_int c = Ok m → fits_all m →
  process_character py_int c n (st F d out txn j)
  = (Raise (IntegrityError "NOT NULL constraint failed: kanji.literal"),
     st F d out true j).
Proof.
  intros Hlit Ht Hm Hfits. unfold process_character. rewrite Hlit.
  unfold bind at 1. rewrite misc_block_eq, Hm. destruct m as [[[g sc] f] jl].
  unfold bind at 1. rewrite insert_kanji_st, Ht.
  by rewrite decide_True.
Qed.

Lemma reading_without_text_refused t elem F d out txn j :
  get elem "r_type" ∈ [Some "ja_on"; Some "ja_kun"] → text elem = None →
  insert_reading (Some t) elem (st F d out txn j)
  = (Raise (IntegrityError "NOT NULL constraint failed: readings.reading"),
     st F d out true j).
Proof.
  intros Hk Ht. unfold insert_reading. rewrite bool_decide_true by done.
  rewrite insert_readings_st, Ht.
  apply elem_of_cons in Hk as [->|Hk%list_elem_of_singleton]; [done|].
  by rewrite Hk.
Qed.

Lemma meaning_without_text_refused t elem F d out txn j :
  get elem "m_lang" = None → text elem = None →
  insert_meaning (Some t) elem (st F d out txn j)
  = (Raise (IntegrityError "NOT NULL constraint failed: meanings.meaning"),
     st F d out true j).
Proof.
  intros Hk Ht. unfold insert_meaning. rewrite bool_decide_true by done.
  by rewrite insert_meanings_st, Ht.
Qed.

Lemma declared_db_from j T name c :
  T ∈ table_names → c ∈ cols_of T → cname c = name → notnull c = true →
  declared_not_null (db_from j) T name.
Proof.
  intros HT Hc Hn Hnn. exists (mkTable (cols_of T) (proj T j)), c.
  by rewrite lookup_db_from.
Qed.

(** C10, amended.  The columns kanji.literal,
    readings.literal, readings.readingType, readings.reading,
    meanings.literal and meanings.meaning are declared NOT NULL.  In a state
    of the extraction pass, an entry whose literal element has no text,
    once its misc fields are read and fit, makes the kanji INSERT fail on
    the NOT NULL constraint, and so does a kept reading or meaning element
    with no text for its own INSERT; nothing is stored.  A document with such
    an entry or element never lets a run complete: the run ends in an error
    that nothing catches.  No row of the three tables holds NULL in these
    columns. *)
Theorem null_text_aborts argv files :
  (∀ d, result_db (run argv files) d →
     declared_not_null d "kanji" "literal" ∧
     declared_not_null d "readings" "literal" ∧
     declared_not_null d "readings" "readingType" ∧
     declared_not_null d "readings" "reading" ∧
     declared_not_null d "meanings" "literal" ∧
     declared_not_null d "meanings" "meaning") ∧
  (∀ c n lit m F d out txn j,
     find "literal" c = Some lit → text lit = None →
     read_misc py_int c = Ok m → fits_all m →
     process_character py_int c n (st F d out txn j)
     = (Raise (IntegrityError "NOT NULL constraint failed: kanji.literal"),
        st F d out true j)) ∧
  (∀ t elem F d out txn j,
     get elem "r_type" ∈ [Some "ja_on"; Some "ja_kun"] → text elem = None →
     insert_reading (Some t) elem (st F d out txn j)
     = (Raise (IntegrityError "NOT NULL constraint failed: readings.reading"),
        st F d out true j)) ∧
  (∀ t elem F d out txn j,
     get elem "m_lang" = None → text elem = None →
     insert_meaning (Some t) elem (st F d out txn j)
     = (Raise (IntegrityError "NOT NULL constraint failed: meanings.meaning"),
        st F d out true j)) ∧
  (∀ xml root c lit,
     argv !! 1%nat = Some xml → files !! xml = Some (File (Xml root)) →
     c ∈ findall "character" root → find "literal" c = Some lit →
     (text lit = None ∨
      ∃ rm g elem,
        find "reading_meaning" c = Some rm ∧ find "rmgroup" rm = Some g ∧
        text elem = None ∧
        ((elem ∈ findall "reading" g ∧
          get elem "r_type" ∈ [Some "ja_on"; Some "ja_kun"]) ∨
         (elem ∈ findall "meaning" g ∧ get elem "m_lang" = None))) →
     ∃ e, (run argv files).1 = Raise e ∧ uncaught e ∧
          exit_status (run argv files).1 = 1) ∧
  (∀ d row, result_db (run argv files) d →
     (row ∈ table_rows "kanji" d → ∃ t, cell 0 row = Text t) ∧
     (row ∈ table_rows "readings" d →
        ∃ id t ty x, row = [Integer id; Text t; Text ty; Text x]) ∧
     (row ∈ table_rows "meanings" d →
        ∃ id t x, row = [Integer id; Text t; Text x])).
Proof.
  split.
  { intros d [-> _]%run_result_db.
    repeat split.
    - apply (declared_db_from _ "kanji" _ (col "literal" "TEXT" true true false));
        [table_name|repeat constructor|done|done].
    - apply (declared_db_from _ "readings" _ (col "literal" "TEXT" true false false));
        [table_name|repeat constructor|done|done].
    - apply (declared_db_from _ "readings" _ (col "readingType" "TEXT" true false false));
        [table_name|repeat constructor|done|done].
    - apply (declared_db_from _ "readings" _ (col "reading" "TEXT" true false false));
        [table_name|repeat constructor|done|done].
    - apply (declared_db_from _ "meanings" _ (col "literal" "TEXT" true false false));
        [table_name|repeat constructor|done|done].
    - apply (declared_db_from _ "meanings" _ (col "meaning" "TEXT" true false false));
        [table_name|repeat constructor|done|done]. }
  split; [intros; by eapply empty_literal_refused|].
  split; [intros; by apply reading_without_text_refused|].
  split; [intros; by apply meaning_without_text_refused|].
  split.
  - intros xml root c lit Harg Hxml Hc Hlit Hnull.
    destruct (run_accepts argv files xml root Harg Hxml) as [(e & He & Hu)|[_ Hacc]].
    { exists e. split; [done|]. split; [done|]. by eapply run_failed. }
    exfalso. rewrite Forall_forall in Hacc.
    destruct (Hacc c Hc lit Hlit) as ([t Ht] & _ & Hkids).
    destruct Hnull as [Hnull|(rm & g & elem & Hrm & Hg & Hnone & Helem)]; [congruence|].
    destruct (Hkids rm g Hrm Hg) as [Hr Hm]. rewrite Forall_forall in Hr, Hm.
    destruct Helem as [[Hin Hk]|[Hin Hk]].
    + destruct (Hr elem Hin Hk) as [? ?]. congruence.
    + destruct (Hm elem Hin Hk) as [? ?]. congruence.
  - intros d row [-> (es & meta & HJ & Hsegs & Hmeta)]%run_result_db.
    rewrite !table_rows_db_from by table_name. rewrite HJ.
    repeat split; intros Hrow%elem_of_proj;
      apply elem_of_app in Hrow as [Hrow|[Hrow|Hrow]%elem_of_app];
      try (by apply room_rows_tables in Hrow as [?|?]);
      try (by apply (metadata_rows_tables _ _ Hmeta) in Hrow).
    + destruct (segments_kanji py_int _ _ _ _ Hsegs Hrow) as (? & ? & t & _ & _ & _ & H).
      by exists t.
    + destruct (segments_readings py_int _ _ _ _ Hsegs Hrow) as (id & t & ty & x & -> & _).
      by exists id, t, ty, x.
    + destruct (segments_meanings py_int _ _ _ _ Hsegs Hrow)
        as (? & ? & t & ? & ? & ? & id & x & _ & _ & _ & _ & _ & _ & _ & _ & ->).
      by exists id, t, x.
Qed.

End Aborts.

(** ** Documents to run the script on *)

Definition leaf (t : string) (a : gmap string string) (x : string) : Element :=
  {| tag := t; attrib := a; text := Some x; children := [] |}.

Definition empty_leaf (t : string) (a : gmap string string) : Element :=
  {| tag := t; attrib := a; text := None; children := [] |}.

Definition group (t : string) (cs : list Element) : Element :=
  {| tag := t; attrib := ∅; text := None; children := cs |}.

(** The entry of the specification's scenario. *)
Definition water : Element :=
  group "character"
    [ leaf "literal" ∅ "水";
      group "misc"
        [ leaf "grade" ∅ "1"; leaf "stroke_count" ∅ "4";
          leaf "freq" ∅ "1915"; leaf "jlpt" ∅ "7" ];
      group "reading_meaning"
        [ group "rmgroup"
            [ leaf "reading" {["r_type" := "ja_on"]} "スイ";
              leaf "reading" {["r_type" := "ja_kun"]} "みず";
              leaf "meaning" ∅ "water";
              leaf "meaning" {["m_lang" := "fr"]} "eau" ] ] ].

Definition argv_of (xml : string) : list string := ["generate_database.py"; xml].

Definition files_of (xml : string) (entries : list Element) : gmap string node :=
  {[ xml := File (Xml (group "kanjidic2" entries)) ]}.

Definition water_argv : list string := argv_of "kanjidic2.xml".
Definition water_files : gmap string node := files_of "kanjidic2.xml" [water].

Definition no_size : node → Z := λ _, 0.
Definition no_format : Z → string := λ _, "0.00".

Definition water_run : res unit * State :=
  run py_int_ascii no_size no_format water_argv water_files.

Definition water_rows : list entry :=
  [ ("kanji", [Text "水"; Integer 1; Integer 4; Integer 1915; Integer 7]);
    ("readings", [Integer 1; Text "水"; Text "ja_on"; Text "スイ"]);
    ("readings", [Integer 2; Text "水"; Text "ja_kun"; Text "みず"]);
    ("meanings", [Integer 1; Text "水"; Text "water"]) ].

Definition water_db : DB := db_from (room_rows ++ water_rows ++ metadata_rows).

Lemma water_run_completed : completed water_run.
Proof. vm_compute. exact I. Defined.

Lemma water_run_file : fs water_run.2 !! db_file = Some (File (Sqlite water_db)).
Proof. vm_compute. reflexivity. Defined.

Lemma water_run_db : result_db water_run water_db.
Proof. left. split; [exact water_run_completed|exact water_run_file]. Defined.

(** ** Two readings of [int] that agree on a document *)

Lemma for_each_with_ext {A V} (l : list A) (v : V) (body body' : A → V → M V) s :
  (∀ x v s, x ∈ l → body x v s = body' x v s) →
  for_each_with l v body s = for_each_with l v body' s.
Proof.
  revert v s. induction l as [|x l IH]; intros v s H; [done|].
  simpl. unfold bind. rewrite H by left.
  destruct (body' x v s) as [[v'|e] s']; [|done].
  apply IH. intros. apply H. by right.
Qed.

Lemma bind_eq {A B} (m m' : M A) (f : A → M B) s :
  m s = m' s → bind m f s = bind m' f s.
Proof. unfold bind. by intros ->. Qed.

Lemma process_character_ext py_int py_int' c n s :
  read_misc py_int c = read_misc py_int' c →
  process_character py_int c n s = process_character py_int' c n s.
Proof.
  intros H. unfold process_character. destruct (find "literal" c); [|done].
  apply bind_eq. by rewrite !misc_block_eq, H.
Qed.

(** The script asks [int] only for the misc fields of the entries. *)
Lemma run_ext py_int py_int' getsize format_mb argv files :
  (∀ c, c ∈ characters_of argv files → read_misc py_int c = read_misc py_int' c) →
  run py_int getsize format_mb argv files = run py_int' getsize format_mb argv files.
Proof.
  intros H.
  destruct (decide (length argv < 2)%nat) as [Hlen|Hlen].
  { by rewrite !run_no_argument. }
  destruct (argv !! 1%nat) as [xml|] eqn:Harg.
  2: { apply lookup_ge_None in Harg. lia. }
  destruct (files !! xml) as [n|] eqn:Hxml.
  2: { by rewrite !(run_not_found _ _ _ _ _ xml). }
  assert (files !! db_file = Some Dir ∨ files !! db_file ≠ Some Dir) as [Hdir|Hdir].
  { destruct (files !! db_file) as [[c|]|]; auto. }
  { by rewrite !(run_output_is_directory _ _ _ _ _ xml). }
  rewrite !(run_build _ _ _ _ _ xml) by done.
  unfold build, bind. rewrite !populate_st by done. rewrite parse_of_st.
  unfold characters_of in H. rewrite Harg in H.
  destruct (document files xml) as [root|]; [|done].
  rewrite (for_each_with_ext _ _ (process_character py_int) (process_character py_int'));
    [done|].
  intros c v s Hc. by apply process_character_ext, H.
Qed.

Lemma water_characters : characters_of water_argv water_files = [water].
Proof. reflexivity. Qed.

Lemma water_misc py_int :
  py_int "1" = Some 1 → py_int "4" = Some 4 →
  py_int "1915" = Some 1915 → py_int "7" = Some 7 →
  read_misc py_int water = Ok (Some 1, Some 4, Some 1915, Some 7).
Proof.
  intros H1 H4 H1915 H7.
  change (read_misc py_int water) with
    (match (match py_int "1" with Some z => Ok (Some z) | None => Raise ValueError end)
     with
     | Raise e => Raise e
     | Ok g =>
         match (match py_int "4" with Some z => Ok (Some z) | None => Raise ValueError end)
         with
         | Raise e => Raise e
         | Ok sc =>
             match (match py_int "1915" with
                    | Some z => Ok (Some z) | None => Raise ValueError end)
             with
             | Raise e => Raise e
             | Ok f =>
                 match (match py_int "7" with
                        | Some z => Ok (Some z) | None => Raise ValueError end)
                 with
                 | Raise e => Raise e
                 | Ok jl => Ok (g, sc, f, jl)
                 end
             end
         end
     end).
  by rewrite H1, H4, H1915, H7.
Qed.

(** C2. The scenario: one kanji row, two readings rows, one meanings row;
    the French meaning gives no row.  [int] may be any function that reads
    the four numerals of the entry as the numbers they write. *)
Theorem water_scenario py_int getsize format_mb :
  py_int "1" = Some 1 → py_int "4" = Some 4 →
  py_int "1915" = Some 1915 → py_int "7" = Some 7 →
  (run py_int getsize format_mb water_argv water_files).1 = Ok () ∧
  ∃ d,
    fs (run py_int getsize format_mb water_argv water_files).2 !! db_file
      = Some (File (Sqlite d)) ∧
    table_rows "kanji" d
      = [ [Text "水"; Integer 1; Integer 4; Integer 1915; Integer 7] ] ∧
    table_rows "readings" d
      = [ [Integer 1; Text "水"; Text "ja_on"; Text "スイ"];
          [Integer 2; Text "水"; Text "ja_kun"; Text "みず"] ] ∧
    table_rows "meanings" d = [ [Integer 1; Text "水"; Text "water"] ].
Proof.
  intros H1 H4 H1915 H7.
  rewrite (run_ext py_int py_int_ascii).
  2: { intros c Hc. rewrite water_characters in Hc.
       apply list_elem_of_singleton in Hc as ->.
       rewrite (water_misc py_int) by done.
       by rewrite (water_misc py_int_ascii). }
  split; [vm_compute; reflexivity|].
  exists water_db. split; [vm_compute; reflexivity|].
  repeat split; vm_compute; reflexivity.
Qed.

(** An entry without a literal element, with a grade that is no numeral. *)
Definition skipped : Element :=
  group "character" [ group "misc" [leaf "grade" ∅ "abc"] ].

(** An entry with a literal and a grade that is no numeral. *)
Definition ungraded : Element :=
  group "character" [ leaf "literal" ∅ "火"; group "misc" [leaf "grade" ∅ "abc"] ].

(** An entry whose literal element has no text. *)
Definition blank : Element :=
  group "character" [ empty_leaf "literal" ∅ ].

(** An entry whose literal element and whose grade element have no text. *)
Definition hollow : Element :=
  group "character" [ empty_leaf "literal" ∅; group "misc" [empty_leaf "grade" ∅] ].

Definition pinyin : Element := leaf "reading" {["r_type" := "pinyin"]} "shui3".
Definition eau : Element := leaf "meaning" {["m_lang" := "fr"]} "eau".
Definition mute_reading : Element := empty_leaf "reading" {["r_type" := "ja_on"]}.
Definition mute_meaning : Element := empty_leaf "meaning" ∅.

Definition idle : State := {| fs := ∅; stdout := []; conn := None; journal := [] |}.

Definition run_on (xml : string) (entries : list Element) : res unit * State :=
  run py_int_ascii no_size no_format (argv_of xml) (files_of xml entries).

Lemma skipped_has_no_literal : ¬ has_literal skipped.
Proof. intros [x Hx]. vm_compute in Hx. discriminate Hx. Defined.

Lemma kanji_rows_match_entries_witness :
  completed water_run ∧ ¬ has_literal skipped ∧
  ((∃ xml root d,
      water_argv !! 1%nat = Some xml ∧ water_files !! xml = Some (File (Xml root)) ∧
      fs water_run.2 !! db_file = Some (File (Sqlite d)) ∧
      length (table_rows "kanji" d)
        = length (filter has_literal (findall "character" root)) ∧
      Forall2 (λ c row, ∃ lit t,
                 find "literal" c = Some lit ∧ text lit = Some t ∧ cell 0 row = Text t)
        (filter has_literal (findall "character" root)) (table_rows "kanji" d) ∧
      NoDup (cell 0 <$> table_rows "kanji" d)) ∧
   process_character py_int_ascii skipped 0 idle = (Ok 0, idle)).
Proof.
  split; [exact water_run_completed|]. split; [exact skipped_has_no_literal|].
  exact (kanji_rows_match_entries py_int_ascii no_size no_format water_argv water_files
           skipped 0 idle water_run_completed skipped_has_no_literal).
Defined.

Lemma water_scenario_witness :
  py_int_ascii "1" = Some 1 ∧ py_int_ascii "4" = Some 4 ∧
  py_int_ascii "1915" = Some 1915 ∧ py_int_ascii "7" = Some 7 ∧
  (water_run.1 = Ok () ∧
   ∃ d,
     fs water_run.2 !! db_file = Some (File (Sqlite d)) ∧
     table_rows "kanji" d
       = [ [Text "水"; Integer 1; Integer 4; Integer 1915; Integer 7] ] ∧
     table_rows "readings" d
       = [ [Integer 1; Text "水"; Text "ja_on"; Text "スイ"];
           [Integer 2; Text "水"; Text "ja_kun"; Text "みず"] ] ∧
     table_rows "meanings" d = [ [Integer 1; Text "水"; Text "water"] ]).
Proof.
  do 4 (split; [reflexivity|]).
  exact (water_scenario py_int_ascii no_size no_format eq_refl eq_refl eq_refl eq_refl).
Defined.

Lemma first_reading_stored :
  [Integer 1; Text "水"; Text "ja_on"; Text "スイ"] ∈ table_rows "readings" water_db.
Proof. apply (bool_decide_unpack _). vm_compute. exact I. Defined.

Lemma pinyin_not_recognized : get pinyin "r_type" ∉ [Some "ja_on"; Some "ja_kun"].
Proof. apply (bool_decide_unpack _). vm_compute. exact I. Defined.

Lemma reading_types_recognized_witness :
  result_db water_run water_db ∧
  [Integer 1; Text "水"; Text "ja_on"; Text "スイ"] ∈ table_rows "readings" water_db ∧
  (get pinyin "r_type" ∉ [Some "ja_on"; Some "ja_kun"]) ∧
  ((∃ id t ty x,
      [Integer 1; Text "水"; Text "ja_on"; Text "スイ"]
        = [Integer id; Text t; Text ty; Text x] ∧ (ty = "ja_on" ∨ ty = "ja_kun")) ∧
   insert_reading (Some "水") pinyin idle = (Ok (), idle)).
Proof.
  split; [exact water_run_db|]. split; [exact first_reading_stored|].
  split; [exact pinyin_not_recognized|].
  exact (reading_types_recognized py_int_ascii no_size no_format water_argv water_files
           water_db _ (Some "水") pinyin idle
           water_run_db first_reading_stored pinyin_not_recognized).
Defined.

Lemma water_meaning_stored :
  [Integer 1; Text "水"; Text "water"] ∈ table_rows "meanings" water_db.
Proof. apply (bool_decide_unpack _). vm_compute. exact I. Defined.

Lemma eau_has_language : is_Some (get eau "m_lang").
Proof. vm_compute. by eexists. Defined.

Lemma meanings_without_language_witness :
  result_db water_run water_db ∧
  [Integer 1; Text "水"; Text "water"] ∈ table_rows "meanings" water_db ∧
  is_Some (get eau "m_lang") ∧
  ((∃ xml root c lit t rm g src id x,
      water_argv !! 1%nat = Some xml ∧ water_files !! xml = Some (File (Xml root)) ∧
      c ∈ findall "character" root ∧
      find "literal" c = Some lit ∧ text lit = Some t ∧
      find "reading_meaning" c = Some rm ∧ find "rmgroup" rm = Some g ∧
      src ∈ findall "meaning" g ∧ get src "m_lang" = None ∧ text src = Some x ∧
      [Integer 1; Text "水"; Text "water"] = [Integer id; Text t; Text x]) ∧
   insert_meaning (Some "水") eau idle = (Ok (), idle)).
Proof.
  split; [exact water_run_db|]. split; [exact water_meaning_stored|].
  split; [exact eau_has_language|].
  exact (meanings_without_language py_int_ascii no_size no_format water_argv water_files
           water_db _ (Some "水") eau idle
           water_run_db water_meaning_stored eau_has_language).
Defined.

Lemma water_journal_split :
  journal water_run.2
  = (room_rows ++ [("kanji", [Text "水"; Integer 1; Integer 4; Integer 1915; Integer 7])])
    ++ ("readings", [Integer 1; Text "水"; Text "ja_on"; Text "スイ"])
    :: [ ("readings", [Integer 2; Text "水"; Text "ja_kun"; Text "みず"]);
         ("meanings", [Integer 1; Text "水"; Text "water"]) ] ++ metadata_rows.
Proof. vm_compute. reflexivity. Defined.

Lemma kanji_is_a_table : "kanji" ∈ table_names.
Proof. apply (bool_decide_unpack _). vm_compute. exact I. Defined.

Lemma kanji_row_written_first_witness :
  (∃ krow,
     ("kanji", krow)
       ∈ room_rows ++ [("kanji", [Text "水"; Integer 1; Integer 4; Integer 1915; Integer 7])] ∧
     cell 0 krow = cell 1 [Integer 1; Text "水"; Text "ja_on"; Text "スイ"]) ∧
  table_rows "kanji" water_db = proj "kanji" (journal water_run.2) ∧
  (∃ krow, krow ∈ table_rows "kanji" water_db ∧
     cell 0 krow = cell 1 [Integer 1; Text "水"; Text "water"]).
Proof.
  pose proof (kanji_row_written_first py_int_ascii no_size no_format
                water_argv water_files) as [H1 H2].
  split; [|split].
  - exact (H1 _ "readings" _ _ water_journal_split (or_introl eq_refl)).
  - exact (proj1 (H2 water_db water_run_db) "kanji" kanji_is_a_table).
  - exact (proj2 (H2 water_db water_run_db) "meanings" _ (or_intror eq_refl)
             water_meaning_stored).
Defined.

Lemma rerun_same_database_witness :
  completed water_run ∧
  run py_int_ascii no_size no_format water_argv (fs water_run.2) = water_run.
Proof.
  split; [exact water_run_completed|].
  exact (rerun_same_database py_int_ascii no_size no_format water_argv water_files
           water_run_completed).
Defined.

Lemma no_argument : (length ["generate_database.py"] < 2)%nat.
Proof. vm_compute. lia. Defined.

Lemma missing_argument : argv_of "missing.xml" !! 1%nat = Some "missing.xml".
Proof. reflexivity. Defined.

Lemma missing_file : water_files !! "missing.xml" = None.
Proof. vm_compute. reflexivity. Defined.

Lemma exits_before_database_witness :
  ((length ["generate_database.py"] < 2)%nat ∧
   run py_int_ascii no_size no_format ["generate_database.py"] water_files
     = (Raise (SystemExit 1), mkState water_files [usage_line] None []) ∧
   exit_status (run py_int_ascii no_size no_format ["generate_database.py"] water_files).1 = 1 ∧
   fs (run py_int_ascii no_size no_format ["generate_database.py"] water_files).2
     = water_files) ∧
  (argv_of "missing.xml" !! 1%nat = Some "missing.xml" ∧
   water_files !! "missing.xml" = None ∧
   run py_int_ascii no_size no_format (argv_of "missing.xml") water_files
     = (Raise (SystemExit 1), mkState water_files [not_found_line "missing.xml"] None []) ∧
   exit_status (run py_int_ascii no_size no_format (argv_of "missing.xml") water_files).1 = 1 ∧
   fs (run py_int_ascii no_size no_format (argv_of "missing.xml") water_files).2
     = water_files).
Proof.
  split.
  - split; [exact no_argument|].
    exact (proj1 (exits_before_database py_int_ascii no_size no_format
                    ["generate_database.py"] water_files "") no_argument).
  - split; [exact missing_argument|]. split; [exact missing_file|].
    exact (proj2 (exits_before_database py_int_ascii no_size no_format
                    (argv_of "missing.xml") water_files "missing.xml")
             missing_argument missing_file).
Defined.

(** Against C8 as it stands: an entry that has no literal element, with a
    grade that is no numeral; the run completes. *)
Lemma skipped_entry_grade_unread :
  skipped ∈ findall "character" (group "kanjidic2" [skipped]) ∧
  (∃ misc elem,
     find "misc" skipped = Some misc ∧ find "grade" misc = Some elem ∧
     text elem = Some "abc" ∧ py_int_ascii "abc" = None) ∧
  (run_on "kanjidic2.xml" [skipped]).1 = Ok () ∧
  exit_status (run_on "kanjidic2.xml" [skipped]).1 = 0.
Proof.
  split; [left|].
  split.
  - exists (group "misc" [leaf "grade" ∅ "abc"]), (leaf "grade" ∅ "abc").
    repeat split; vm_compute; reflexivity.
  - split; vm_compute; reflexivity.
Qed.

Lemma xml_argument : argv_of "kanjidic2.xml" !! 1%nat = Some "kanjidic2.xml".
Proof. reflexivity. Defined.

Lemma xml_file entries :
  files_of "kanjidic2.xml" entries !! "kanjidic2.xml"
  = Some (File (Xml (group "kanjidic2" entries))).
Proof. apply lookup_singleton_eq. Defined.

(** Against C10 as it stands: an entry whose literal element has no text
    and whose grade element has none either; the run stops on the grade,
    with a TypeError and not on a constraint. *)
Lemma hollow_entry_type_error :
  hollow ∈ findall "character" (group "kanjidic2" [hollow]) ∧
  (∃ lit, find "literal" hollow = Some lit ∧ text lit = None) ∧
  (run_on "kanjidic2.xml" [hollow]).1 = Raise TypeError.
Proof.
  split; [left|].
  split.
  - exists (empty_leaf "literal" ∅). split; vm_compute; reflexivity.
  - vm_compute. reflexivity.
Qed.

Lemma water_kanji_stored :
  [Text "水"; Integer 1; Integer 4; Integer 1915; Integer 7] ∈ table_rows "kanji" water_db.
Proof. apply (bool_decide_unpack _). vm_compute. exact I. Defined.

Lemma ja_on_kept : get mute_reading "r_type" ∈ [Some "ja_on"; Some "ja_kun"].
Proof. apply (bool_decide_unpack _). vm_compute. exact I. Defined.

Lemma null_text_aborts_witness :
  (declared_not_null water_db "kanji" "literal" ∧
   declared_not_null water_db "readings" "literal" ∧
   declared_not_null water_db "readings" "readingType" ∧
   declared_not_null water_db "readings" "reading" ∧
   declared_not_null water_db "meanings" "literal" ∧
   declared_not_null water_db "meanings" "meaning") ∧
  process_character py_int_ascii blank 0 (st ∅ ddl_db [] true room_rows)
    = (Raise (IntegrityError "NOT NULL constraint failed: kanji.literal"),
       st ∅ ddl_db [] true room_rows) ∧
  insert_reading (Some "水") mute_reading (st ∅ ddl_db [] true room_rows)
    = (Raise (IntegrityError "NOT NULL constraint failed: readings.reading"),
       st ∅ ddl_db [] true room_rows) ∧
  insert_meaning (Some "水") mute_meaning (st ∅ ddl_db [] true room_rows)
    = (Raise (IntegrityError "NOT NULL constraint failed: meanings.meaning"),
       st ∅ ddl_db [] true room_rows) ∧
  (∃ e, (run_on "kanjidic2.xml" [blank]).1 = Raise e ∧ uncaught e ∧
        exit_status (run_on "kanjidic2.xml" [blank]).1 = 1) ∧
  (∃ t, cell 0 [Text "水"; Integer 1; Integer 4; Integer 1915; Integer 7] = Text t) ∧
  (∃ id t ty x,
     [Integer 1; Text "水"; Text "ja_on"; Text "スイ"]
       = [Integer id; Text t; Text ty; Text x]) ∧
  (∃ id t x, [Integer 1; Text "水"; Text "water"] = [Integer id; Text t; Text x]).
Proof.
  pose proof (null_text_aborts py_int_ascii no_size no_format water_argv water_files)
    as (H1 & H2 & H3 & H4 & _ & H6).
  pose proof (null_text_aborts py_int_ascii no_size no_format
                (argv_of "kanjidic2.xml") (files_of "kanjidic2.xml" [blank]))
    as (_ & _ & _ & _ & H5 & _).
  split; [exact (H1 water_db water_run_db)|].
  split.
  { refine (H2 blank 0 (empty_leaf "literal" ∅) (None, None, None, None)
              ∅ ddl_db [] true room_rows _ _ _ _);
      vm_compute; auto. }
  split.
  { refine (H3 "水" mute_reading ∅ ddl_db [] true room_rows ja_on_kept _).
    vm_compute. reflexivity. }
  split.
  { refine (H4 "水" mute_meaning ∅ ddl_db [] true room_rows _ _);
      vm_compute; reflexivity. }
  split.
  { refine (H5 "kanjidic2.xml" (group "kanjidic2" [blank]) blank (empty_leaf "literal" ∅)
              xml_argument (xml_file [blank]) _ _ _).
    - left.
    - vm_compute. reflexivity.
    - left. vm_compute. reflexivity. }
  split; [exact (proj1 (H6 water_db _ water_run_db) water_kanji_stored)|].
  split; [exact (proj1 (proj2 (H6 water_db _ water_run_db)) first_reading_stored)|].
  exact (proj2 (proj2 (H6 water_db _ water_run_db)) water_meaning_stored).
Defined.

(** * The rest of the script

    What follows looks at the parts of the script that the properties above
    leave aside: which rows exactly a run stores and under which numbers,
    when a run completes, what it prints, what it commits and when, and what
    it does to the files around it. *)

(** ** States of the extraction pass, with all their parts *)

(** A computation started in a state of the extraction pass ends in one; [P]
    relates its result to the file's database, the console, the transaction
    flag and the journal it ends with. *)
Definition ends {A} (F : gmap string node) (x : res A * State)
    (P : res A → DB → list string → bool → list entry → Prop) : Prop :=
  ∃ d out txn j, x.2 = st F d out txn j ∧ P x.1 d out txn j.

Lemma ends_here {A} F d out txn j (r : res A)
    (P : res A → DB → list string → bool → list entry → Prop) :
  P r d out txn j → ends F (r, st F d out txn j) P.
Proof. intros. by exists d, out, txn, j. Qed.

Lemma ends_bind {A B} F (m : M A) (f : A → M B) s
    (P : res A → DB → list string → bool → list entry → Prop)
    (Q : res B → DB → list string → bool → list entry → Prop) :
  ends F (m s) P →
  (∀ e d out txn j, P (Raise e) d out txn j → Q (Raise e) d out txn j) →
  (∀ a d out txn j, P (Ok a) d out txn j → ends F (f a (st F d out txn j)) Q) →
  ends F (bind m f s) Q.
Proof.
  intros (d & out & txn & j & Hs & HP) Hraise Hok. unfold bind.
  destruct (m s) as [[a|e] s']; simpl in *; subst s'.
  - by apply Hok.
  - exists d, out, txn, j. eauto.
Qed.

Lemma ends_mono {A} F (x : res A * State)
    (P Q : res A → DB → list string → bool → list entry → Prop) :
  ends F x P → (∀ r d out txn j, P r d out txn j → Q r d out txn j) → ends F x Q.
Proof. intros (d & out & txn & j & Hs & HP) H. exists d, out, txn, j. eauto. Qed.

(** ** Rows stored under the next free number *)

(** The rows [ps], each given the next rowid of table [T] and stored at the
    end of the journal, one after the other. *)
Fixpoint append_rows (T : string) (ps : list (list value)) (j : list entry) : list entry :=
  match ps with
  | [] => j
  | p :: ps' => append_rows T ps' (j ++ [(T, Integer (next_rowid 0 (proj T j)) :: p)])
  end.

Lemma append_rows_app T ps qs j :
  append_rows T (ps ++ qs) j = append_rows T qs (append_rows T ps j).
Proof. revert j. induction ps as [|p ps IH]; intros j; [done|]. simpl. apply IH. Qed.

Lemma append_rows_prefix T ps j : j `prefix_of` append_rows T ps j.
Proof.
  revert j. induction ps as [|p ps IH]; intros j; [done|]. simpl.
  etransitivity; [|apply IH]. by apply prefix_app_r.
Qed.

Lemma proj_append_rows_ne T T' ps j :
  T' ≠ T → proj T' (append_rows T ps j) = proj T' j.
Proof.
  intros Hne. revert j. induction ps as [|p ps IH]; intros j; [done|]. simpl.
  rewrite IH, proj_app, proj_cons_ne by done. apply app_nil_r.
Qed.

(** The rows as they were given, once the number is taken off. *)
Lemma payload_append_rows T ps j :
  drop 1 <$> proj T (append_rows T ps j) = (drop 1 <$> proj T j) ++ ps.
Proof.
  revert j. induction ps as [|p ps IH]; intros j; simpl; [by rewrite app_nil_r|].
  rewrite IH, proj_app, proj_cons_eq, fmap_app, <- app_assoc. done.
Qed.

(** The numbers of a table are 1, 2, 3 and so on. *)
Definition numbered (rs : list (list value)) : Prop :=
  cell 0 <$> rs = (λ i : nat, Integer (Z.of_nat i + 1)) <$> seq 0 (length rs).

Lemma foldr_max_le (l : list Z) b : 0 ≤ b → Forall (λ z, z ≤ b) l → foldr Z.max 0 l ≤ b.
Proof. intros Hb. induction 1; simpl; lia. Qed.

Lemma numbered_next rs : numbered rs → next_rowid 0 rs = Z.of_nat (length rs) + 1.
Proof.
  unfold numbered, next_rowid. intros ->. rewrite <- list_fmap_compose.
  assert (∀ n k, foldr Z.max 0 ((as_rowid ∘ (λ i : nat, Integer (Z.of_nat i + 1))) <$> seq k n)
                 = if decide (n = 0%nat) then 0 else Z.of_nat (k + n)) as H.
  { intros n. induction n as [|n IH]; intros k; [done|].
    simpl. rewrite IH. case_decide; simpl; lia. }
  rewrite H. case_decide as Hn; [|simpl; lia]. rewrite Hn. done.
Qed.

Lemma numbered_snoc rs p :
  numbered rs → numbered (rs ++ [Integer (next_rowid 0 rs) :: p]).
Proof.
  intros H. unfold numbered. rewrite numbered_next by done.
  rewrite fmap_app, length_app, seq_app, fmap_app, <- H. simpl.
  reflexivity.
Qed.

Lemma numbered_append_rows T ps j :
  numbered (proj T j) → numbered (proj T (append_rows T ps j)).
Proof.
  revert j. induction ps as [|p ps IH]; intros j H; [done|]. simpl.
  apply IH. rewrite proj_app, proj_cons_eq. by apply numbered_snoc.
Qed.

(** ** The two inner loops, row by row *)

(** The parameters the script binds for a reading element of the entry whose
    literal is [t] (lines 154-159), and for a meaning element (lines
    163-167): none when the element is passed over. *)
Definition reading_payload (t : string) (elem : Element) : list (list value) :=
  if bool_decide (get elem "r_type" ∈ [Some "ja_on"; Some "ja_kun"]) then
    [[Text t; sql_text (get elem "r_type"); sql_text (text elem)]]
  else [].

Definition meaning_payload (t : string) (elem : Element) : list (list value) :=
  if bool_decide (get elem "m_lang" = None) then
    [[Text t; sql_text (text elem)]]
  else [].

Lemma readings_loop t F d out (l : list Element) : ∀ j,
  ends F (for_each l (insert_reading (Some t)) (st F d out true j))
    (λ r d' out' txn' j', d' = d ∧ out' = out ∧ txn' = true ∧
       match r with
       | Ok _ =>
           Forall reading_fine l ∧
           j' = append_rows "readings" (l ≫= reading_payload t) j
       | Raise e =>
           ∃ l1 bad l2, l = l1 ++ bad :: l2 ∧ ¬ reading_fine bad ∧
             j' = append_rows "readings" (l1 ≫= reading_payload t) j ∧
             e = IntegrityError "NOT NULL constraint failed: readings.reading"
       end).
Proof.
  induction l as [|x l IH]; intros j.
  - apply ends_here. done.
  - cbn [for_each]. unfold bind at 1. unfold insert_reading.
    case_bool_decide as Hk.
    + rewrite insert_readings_st.
      assert (∃ ty, get x "r_type" = Some ty) as [ty Hty].
      { apply elem_of_cons in Hk as [Hk|Hk%list_elem_of_singleton]; eauto. }
      rewrite Hty. destruct (text x) as [tx|] eqn:Hx.
      * eapply ends_mono; [apply IH|]. cbn beta.
        intros r d' out' txn' j' (-> & -> & -> & H). do 3 (split; [done|]).
        assert (reading_payload t x = [[Text t; Text ty; Text tx]]) as Hp.
        { unfold reading_payload. rewrite bool_decide_true by done.
          by rewrite Hty, Hx. }
        destruct r as [[]|e].
        -- destruct H as [Hfine ->]. split.
           ++ constructor; [|done]. intros _. by rewrite Hx.
           ++ cbn [mbind list_bind]. change (list_bind _ _ ?f ?l) with (l ≫= f).
              rewrite Hp. reflexivity.
        -- destruct H as (l1 & bad & l2 & -> & Hbad & -> & ->).
           exists (x :: l1), bad, l2. split; [done|]. split; [done|]. split; [|done].
           cbn [mbind list_bind]. change (list_bind _ _ ?f ?l) with (l ≫= f).
           rewrite Hp. reflexivity.
      * apply ends_here. do 3 (split; [done|]).
        exists [], x, l. split; [done|]. split; [|done].
        intros Hf. destruct (Hf Hk) as [? ?]. congruence.
    + unfold pass, ret. eapply ends_mono; [apply IH|]. cbn beta.
      intros r d' out' txn' j' (-> & -> & -> & H). do 3 (split; [done|]).
      assert (reading_payload t x = []) as Hp.
      { unfold reading_payload. by rewrite bool_decide_false. }
      destruct r as [[]|e].
      * destruct H as [Hfine ->]. split.
        -- constructor; [|done]. intros ?. done.
        -- cbn [mbind list_bind]. change (list_bind _ _ ?f ?l) with (l ≫= f).
           by rewrite Hp.
      * destruct H as (l1 & bad & l2 & -> & Hbad & -> & ->).
        exists (x :: l1), bad, l2. split; [done|]. split; [done|]. split; [|done].
        cbn [mbind list_bind]. change (list_bind _ _ ?f ?l) with (l ≫= f).
        by rewrite Hp.
Qed.

Lemma meanings_loop t F d out (l : list Element) : ∀ j,
  ends F (for_each l (insert_meaning (Some t)) (st F d out true j))
    (λ r d' out' txn' j', d' = d ∧ out' = out ∧ txn' = true ∧
       match r with
       | Ok _ =>
           Forall meaning_fine l ∧
           j' = append_rows "meanings" (l ≫= meaning_payload t) j
       | Raise e =>
           ∃ l1 bad l2, l = l1 ++ bad :: l2 ∧ ¬ meaning_fine bad ∧
             j' = append_rows "meanings" (l1 ≫= meaning_payload t) j ∧
             e = IntegrityError "NOT NULL constraint failed: meanings.meaning"
       end).
Proof.
  induction l as [|x l IH]; intros j.
  - apply ends_here. done.
  - cbn [for_each]. unfold bind at 1. unfold insert_meaning.
    case_bool_decide as Hk.
    + rewrite insert_meanings_st.
      destruct (text x) as [tx|] eqn:Hx.
      * eapply ends_mono; [apply IH|]. cbn beta.
        intros r d' out' txn' j' (-> & -> & -> & H). do 3 (split; [done|]).
        assert (meaning_payload t x = [[Text t; Text tx]]) as Hp.
        { unfold meaning_payload. rewrite bool_decide_true by done.
          by rewrite Hx. }
        destruct r as [[]|e].
        -- destruct H as [Hfine ->]. split.
           ++ constructor; [|done]. intros _. by rewrite Hx.
           ++ cbn [mbind list_bind]. change (list_bind _ _ ?f ?l) with (l ≫= f).
              rewrite Hp. reflexivity.
        -- destruct H as (l1 & bad & l2 & -> & Hbad & -> & ->).
           exists (x :: l1), bad, l2. split; [done|]. split; [done|]. split; [|done].
           cbn [mbind list_bind]. change (list_bind _ _ ?f ?l) with (l ≫= f).
           rewrite Hp. reflexivity.
      * apply ends_here. do 3 (split; [done|]).
        exists [], x, l. split; [done|]. split; [|done].
        intros Hf. destruct (Hf Hk) as [? ?]. congruence.
    + unfold pass, ret. eapply ends_mono; [apply IH|]. cbn beta.
      intros r d' out' txn' j' (-> & -> & -> & H). do 3 (split; [done|]).
      assert (meaning_payload t x = []) as Hp.
      { unfold meaning_payload. by rewrite bool_decide_false. }
      destruct r as [[]|e].
      * destruct H as [Hfine ->]. split.
        -- constructor; [|done]. intros ?. done.
        -- cbn [mbind list_bind]. change (list_bind _ _ ?f ?l) with (l ≫= f).
           by rewrite Hp.
      * destruct H as (l1 & bad & l2 & -> & Hbad & -> & ->).
        exists (x :: l1), bad, l2. split; [done|]. split; [done|]. split; [|done].
        cbn [mbind list_bind]. change (list_bind _ _ ?f ?l) with (l ≫= f).
        by rewrite Hp.
Qed.

(** ** One entry, row by row *)

(** The first group of an entry (lines 148-151). *)
Definition first_group (c : Element) : option Element :=
  match find "reading_meaning" c with
  | None => None
  | Some rm => find "rmgroup" rm
  end.

(** Every element of the first group that the script stores has text. *)
Definition children_fine (c : Element) : Prop :=
  ∀ g, first_group c = Some g →
    Forall reading_fine (findall "reading" g) ∧
    Forall meaning_fine (findall "meaning" g).

Lemma children_fine_iff c :
  children_fine c ↔
  ∀ rm g, find "reading_meaning" c = Some rm → find "rmgroup" rm = Some g →
    Forall reading_fine (findall "reading" g) ∧
    Forall meaning_fine (findall "meaning" g).
Proof.
  unfold children_fine, first_group. split.
  - intros H rm g Hrm Hg. apply H. by rewrite Hrm.
  - intros H g Hg. destruct (find "reading_meaning" c) as [rm|] eqn:Hrm; [|done].
    by apply (H rm g).
Qed.

(** The rows below the kanji row of an entry: the readings of its first
    group, then the meanings. *)
Definition children_rows (c : Element) (t : string) (j : list entry) : list entry :=
  match first_group c with
  | None => j
  | Some g =>
      append_rows "meanings" (findall "meaning" g ≫= meaning_payload t)
        (append_rows "readings" (findall "reading" g ≫= reading_payload t) j)
  end.

Lemma children_rows_prefix c t j : j `prefix_of` children_rows c t j.
Proof.
  unfold children_rows. destruct (first_group c); [|done].
  etransitivity; apply append_rows_prefix.
Qed.

Lemma proj_children_rows_kanji c t j :
  proj "kanji" (children_rows c t j) = proj "kanji" j.
Proof.
  unfold children_rows. destruct (first_group c); [|done].
  by rewrite !proj_append_rows_ne.
Qed.

Lemma children_ends c t F d out j :
  ends F
    (match find "reading_meaning" c with
     | None => pass
     | Some reading_meaning =>
         match find "rmgroup" reading_meaning with
         | None => pass
         | Some rmgroup =>
             for_each (findall "reading" rmgroup) (insert_reading (Some t));;
             for_each (findall "meaning" rmgroup) (insert_meaning (Some t))
         end
     end (st F d out true j))
    (λ r d' out' txn' j', d' = d ∧ out' = out ∧ txn' = true ∧
       match r with
       | Ok _ => children_fine c ∧ j' = children_rows c t j
       | Raise e =>
           ¬ children_fine c ∧ j `prefix_of` j' ∧ proj "kanji" j' = proj "kanji" j
       end).
Proof.
  unfold children_fine, children_rows, first_group.
  destruct (find "reading_meaning" c) as [rm|] eqn:Hrm.
  2: { apply ends_here. done. }
  destruct (find "rmgroup" rm) as [g|] eqn:Hg.
  2: { apply ends_here. done. }
  eapply ends_bind.
  - apply readings_loop.
  - cbn beta. intros e d' out' txn' j' (-> & -> & -> & l1 & bad & l2 & Hl & Hbad & -> & _).
    do 3 (split; [done|]). split; [|split].
    + intros H. destruct (H g eq_refl) as [Hr _]. rewrite Hl in Hr.
      apply Forall_app in Hr as [_ Hr]. by inversion Hr.
    + apply append_rows_prefix.
    + by rewrite proj_append_rows_ne.
  - cbn beta. intros [] d' out' txn' j' (-> & -> & -> & Hfine & ->).
    eapply ends_mono; [apply meanings_loop|]. cbn beta.
    intros r d' out' txn' j' (-> & -> & -> & H). do 3 (split; [done|]).
    destruct r as [[]|e].
    + destruct H as [Hfine' ->]. split; [|done]. by intros ? [= <-].
    + destruct H as (l1 & bad & l2 & Hl & Hbad & -> & _). split; [|split].
      * intros H. destruct (H g eq_refl) as [_ Hr]. rewrite Hl in Hr.
        apply Forall_app in Hr as [_ Hr]. by inversion Hr.
      * etransitivity; apply append_rows_prefix.
      * by rewrite !proj_append_rows_ne.
Qed.

(** The line the script prints after every hundredth entry (line 172). *)
Definition progress_line (n : Z) : string :=
  (cr +:+ "Processed: " +:+ pretty n +:+ " kanji") +:+ "".

(** The literal of an entry is not in the kanji table yet. *)
Definition unseen (c : Element) (j : list entry) : Prop :=
  ∀ lit t, find "literal" c = Some lit → text lit = Some t →
    Text t ∉ cell 0 <$> proj "kanji" j.

Section Entry.

Variable py_int : string → option Z.

(** The journal after entry [c], when the script gets past it. *)
Definition after_entry (c : Element) (j : list entry) : list entry :=
  match find "literal" c with
  | None => j
  | Some lit =>
      match text lit, read_misc py_int c with
      | Some t, Ok m => children_rows c t (j ++ [("kanji", kanji_row t m)])
      | _, _ => j
      end
  end.

Lemma after_entry_prefix c j : j `prefix_of` after_entry c j.
Proof.
  unfold after_entry. destruct (find "literal" c) as [lit|]; [|done].
  destruct (text lit) as [t|]; [|done].
  destruct (read_misc py_int c) as [m|]; [|done].
  etransitivity; [|apply children_rows_prefix]. by apply prefix_app_r.
Qed.

Lemma proj_kanji_after_entry c j :
  proj "kanji" (after_entry c j) = proj "kanji" j ++ option_list (kanji_row_of py_int c).
Proof.
  unfold after_entry, kanji_row_of. destruct (find "literal" c) as [lit|].
  2: { by rewrite app_nil_r. }
  destruct (text lit) as [t|]. 2: { by rewrite app_nil_r. }
  destruct (read_misc py_int c) as [m|]. 2: { by rewrite app_nil_r. }
  rewrite proj_children_rows_kanji, proj_app, proj_cons_eq. done.
Qed.

(** What one round of the loop does (lines 110-172), in full: the rows,
    the count, and the commit and progress line of every hundredth entry.
    A round that fails has committed and printed nothing. *)
Lemma process_character_ends c n F d out txn j :
  ends F (process_character py_int c n (st F d out txn j))
    (λ r d' out' txn' j',
       match r with
       | Ok n' =>
           accepted py_int c ∧ unseen c j ∧ j' = after_entry c j ∧
           if decide (has_literal c) then
             n' = n + 1 ∧
             if decide (n' `mod` 100 = 0)
             then d' = db_from j' ∧ out' = out ++ [progress_line n'] ∧ txn' = false
             else d' = d ∧ out' = out ∧ txn' = true
           else n' = n ∧ d' = d ∧ out' = out ∧ txn' = txn
       | Raise e =>
           has_literal c ∧ ¬ (accepted py_int c ∧ unseen c j) ∧
           d' = d ∧ out' = out ∧ j `prefix_of` j' ∧
           (length (proj "kanji" j') ≤ length (proj "kanji" j) + 1)%nat
       end).
Proof.
  assert (has_literal c ↔ is_Some (find "literal" c)) as Hhas by done.
  unfold process_character, accepted, unseen, after_entry.
  destruct (find "literal" c) as [lit|] eqn:Hlit.
  2: { apply ends_here. rewrite decide_False; [done|].
       rewrite Hhas. by intros [??]. }
  assert (has_literal c) as Hsome by (apply Hhas; by eexists).
  clear Hhas.
  unfold bind at 1. rewrite misc_block_eq.
  destruct (read_misc py_int c) as [[[[g sc] f] jl]|e] eqn:Hm.
  2: { apply ends_here. split; [done|]. split; [|by auto with lia].
       intros [H _]. destruct (H lit eq_refl) as (_ & (m & [=] & _) & _). }
  unfold bind at 1. rewrite insert_kanji_st.
  case_decide as Hfits.
  2: { apply ends_here. split; [done|]. split; [|by auto with lia].
       intros [H _]. destruct (H lit eq_refl) as (_ & (m & [= <-] & Hf) & _).
       exact (Hfits Hf). }
  destruct (text lit) as [t|] eqn:Ht.
  2: { apply ends_here. split; [done|]. split; [|by auto with lia].
       intros [H _]. destruct (H lit eq_refl) as ([? Hx] & _). congruence. }
  case_decide as Hfresh.
  { apply ends_here. split; [done|]. split; [|by auto with lia].
    intros [_ H]. by apply (H lit t). }
  eapply ends_bind.
  - apply children_ends.
  - cbn beta. intros e d' out' txn' j' (-> & -> & -> & Hbad & Hpre & HK).
    split; [done|]. split; [|split; [done|split; [done|split]]].
    + intros [H _]. apply Hbad. apply children_fine_iff.
      by destruct (H lit eq_refl) as (_ & _ & ?).
    + etransitivity; [|exact Hpre]. by apply prefix_app_r.
    + rewrite HK, proj_app, proj_cons_eq, length_app. simpl. lia.
  - cbn beta. intros [] d' out' txn' j' (-> & -> & -> & Hfine & ->).
    assert ((∀ lit0, Some lit = Some lit0 →
               is_Some (text lit0) ∧
               (∃ m, Ok (g, sc, f, jl) = Ok m ∧ fits_all m) ∧
               ∀ rm g0, find "reading_meaning" c = Some rm → find "rmgroup" rm = Some g0 →
                 Forall reading_fine (findall "reading" g0) ∧
                 Forall meaning_fine (findall "meaning" g0)) ∧
            (∀ lit0 t0, Some lit = Some lit0 → text lit0 = Some t0 →
               Text t0 ∉ cell 0 <$> proj "kanji" j)) as [Hacc Hfr].
    { split.
      - intros ? [= <-]. rewrite Ht. split; [by eexists|]. split; [by eexists|].
        by apply children_fine_iff.
      - intros ?? [= <-]. rewrite Ht. by intros [= <-]. }
    unfold bind. case_decide as Hmod.
    + rewrite commit_st, print_end_st. apply ends_here.
      rewrite (decide_True (P := has_literal c)) by done.
      rewrite decide_True by done. done.
    + apply ends_here.
      rewrite (decide_True (P := has_literal c)) by done.
      rewrite decide_False by done. done.
Qed.

End Entry.

(** ** The loop, row by row *)

(** The progress lines printed while the count goes from [n] to [n + k]. *)
Fixpoint progress_lines (n : Z) (k : nat) : list string :=
  match k with
  | O => []
  | S k' =>
      (if decide ((n + 1) `mod` 100 = 0) then [progress_line (n + 1)] else [])
      ++ progress_lines (n + 1) k'
  end.

Lemma progress_lines_filter n k :
  progress_lines n k
  = progress_line <$> filter (λ m, m `mod` 100 = 0) ((λ i : nat, n + 1 + Z.of_nat i) <$> seq 0 k).
Proof.
  revert n. induction k as [|k IH]; intros n; [done|].
  cbn [progress_lines seq fmap list_fmap].
  change (list_fmap _ _ ?f ?l) with (f <$> l).
  rewrite <- fmap_S_seq, <- list_fmap_compose, IH.
  rewrite Z.add_0_r.
  assert ((λ i : nat, n + 1 + 1 + Z.of_nat i) <$> seq 0 k
          = ((λ i : nat, n + 1 + Z.of_nat i) ∘ S) <$> seq 0 k) as ->.
  { apply list_fmap_ext. intros _ i _. simpl. lia. }
  case_decide.
  - rewrite filter_cons_True by done. done.
  - rewrite filter_cons_False by done. done.
Qed.

(** The number of entries with a literal element. *)
Definition count_literals (l : list Element) : nat := length (filter has_literal l).

(** What is in the output file is the beginning of what the connection
    holds, table by table. *)
Definition kept (d : DB) (j : list entry) : Prop :=
  ∀ T, table_rows T d `prefix_of` table_rows T (db_from j).

(** The number of kanji rows not committed yet. *)
Definition pending (d : DB) (j : list entry) : Z :=
  Z.of_nat (length (proj "kanji" j)) - Z.of_nat (length (table_rows "kanji" d)).

Lemma lookup_db_from_other T j : T ∉ table_names → tables (db_from j) !! T = None.
Proof.
  intros HT. destruct (tables (db_from j) !! T) as [tbl|] eqn:E; [|done].
  exfalso. apply HT. revert E. unfold db_from, table_names. cbn [tables].
  rewrite !elem_of_cons.
  repeat (rewrite lookup_insert; case_decide; [subst; by auto 10|]).
  by rewrite lookup_empty.
Qed.

Lemma kept_db_from j : kept (db_from j) j.
Proof. by intros T. Qed.

Lemma pending_db_from j : pending (db_from j) j = 0.
Proof. unfold pending. rewrite table_rows_db_from by table_name. lia. Qed.

Lemma proj_prefix T j j' : j `prefix_of` j' → proj T j `prefix_of` proj T j'.
Proof. intros [es ->]. rewrite proj_app. by apply prefix_app_r. Qed.

Lemma kept_prefix d j j' : kept d j → j `prefix_of` j' → kept d j'.
Proof.
  intros H Hpre T. etransitivity; [apply H|].
  destruct (decide (T ∈ table_names)) as [HT|HT].
  - rewrite !table_rows_db_from by done. by apply proj_prefix.
  - unfold table_rows. by rewrite !lookup_db_from_other.
Qed.

Section Entries.

Variable py_int : string → option Z.

(** The journal after the entries [l], when the script gets past them. *)
Fixpoint after_entries (l : list Element) (j : list entry) : list entry :=
  match l with
  | [] => j
  | c :: l' => after_entries l' (after_entry py_int c j)
  end.

(** Each entry of [l] finds the kanji table without its literal. *)
Fixpoint all_unseen (l : list Element) (j : list entry) : Prop :=
  match l with
  | [] => True
  | c :: l' => unseen c j ∧ all_unseen l' (after_entry py_int c j)
  end.

Lemma has_literal_row c :
  accepted py_int c → has_literal c → is_Some (kanji_row_of py_int c).
Proof.
  intros Hacc [lit Hlit]. destruct (Hacc lit Hlit) as ([t Ht] & (m & Hm & _) & _).
  unfold kanji_row_of. rewrite Hlit, Ht, Hm. by eexists.
Qed.

Lemma no_literal_row c : ¬ has_literal c → kanji_row_of py_int c = None.
Proof.
  unfold has_literal, kanji_row_of. destruct (find "literal" c); [|done].
  intros []. by eexists.
Qed.

(** The loop over the entries (lines 108-172), in full. *)
Lemma characters_ends (l : list Element) : ∀ n F d out txn j,
  ends F (for_each_with l n (process_character py_int) (st F d out txn j))
    (λ r d' out' txn' j',
       match r with
       | Ok n' =>
           Forall (accepted py_int) l ∧ all_unseen l j ∧
           j' = after_entries l j ∧
           n' = n + Z.of_nat (count_literals l) ∧
           out' = out ++ progress_lines n (count_literals l) ∧
           (kept d j → pending d j = n `mod` 100 →
            kept d' j' ∧ pending d' j' = n' `mod` 100)
       | Raise e =>
           ¬ (Forall (accepted py_int) l ∧ all_unseen l j) ∧
           out `prefix_of` out' ∧ j `prefix_of` j' ∧
           (kept d j → pending d j = n `mod` 100 →
            kept d' j' ∧ 0 ≤ pending d' j' ≤ 100)
       end).
Proof.
  induction l as [|c l IH]; intros n F d out txn j.
  - apply ends_here. unfold count_literals. simpl.
    rewrite Z.add_0_r, app_nil_r. done.
  - cbn [for_each_with]. eapply ends_bind; [apply process_character_ends| |].
    + cbn beta. intros e d' out' txn' j' (Hlit & Hbad & -> & -> & Hpre & HK).
      split; [|split; [done|split; [done|]]].
      * intros [Hacc Hfr]. apply Hbad. split; [by inversion Hacc|by destruct Hfr].
      * intros Hkept Hpend. split; [by eapply kept_prefix|].
        pose proof (Z.mod_pos_bound n 100 ltac:(lia)).
        pose proof (prefix_length _ _ (proj_prefix "kanji" _ _ Hpre)).
        unfold pending in *. lia.
    + cbn beta. intros n1 d1 out1 txn1 j1 (Hacc & Hfr & -> & Hstep).
      eapply ends_mono; [apply IH|]. cbn beta.
      intros r d' out' txn' j' H.
      assert (∃ b : bool,
                count_literals (c :: l) = ((if b then 1 else 0) + count_literals l)%nat ∧
                n1 = n + (if b then 1 else 0) ∧
                out1 = out ++ (if b then
                                 if decide ((n + 1) `mod` 100 = 0)
                                 then [progress_line (n + 1)] else []
                               else []) ∧
                (kept d j → pending d j = n `mod` 100 →
                 kept d1 (after_entry py_int c j) ∧
                 pending d1 (after_entry py_int c j) = n1 `mod` 100))
        as (b & Hcount & -> & -> & Hdur).
      { unfold count_literals. case_decide as Hlit.
        - exists true. rewrite filter_cons_True by done. split; [done|].
          destruct Hstep as [-> Hstep]. split; [done|]. case_decide as Hmod.
          + destruct Hstep as (-> & -> & ->). split; [done|].
            intros _ _. split; [apply kept_db_from|].
            rewrite pending_db_from. by rewrite Hmod.
          + destruct Hstep as (-> & -> & ->). split; [by rewrite app_nil_r|].
            intros Hkept Hpend. split.
            * eapply kept_prefix; [done|]. apply after_entry_prefix.
            * unfold pending in *. rewrite proj_kanji_after_entry, length_app.
              destruct (has_literal_row c Hacc Hlit) as [row ->]. simpl.
              pose proof (Z.mod_pos_bound n 100 ltac:(lia)).
              pose proof (Z.mod_pos_bound (n + 1) 100 ltac:(lia)).
              assert ((n + 1) `mod` 100 = n `mod` 100 + 1); [|lia].
              rewrite Z.add_mod by lia.
              rewrite (Z.mod_small 1) by lia.
              destruct (decide (n `mod` 100 = 99)) as [E|E].
              { exfalso. apply Hmod. rewrite Z.add_mod, E by lia. done. }
              apply Z.mod_small. lia.
        - exists false. rewrite filter_cons_False by done. split; [done|].
          destruct Hstep as (-> & -> & -> & ->). split; [by rewrite Z.add_0_r|].
          split; [by rewrite app_nil_r|].
          intros Hkept Hpend.
          unfold after_entry. unfold has_literal in Hlit.
          destruct (find "literal" c); [|done]. destruct Hlit. by eexists. }
      destruct r as [n'|e].
      * destruct H as (Hacc' & Hfr' & -> & -> & -> & Hdur').
        split; [by constructor|]. split; [done|]. split; [done|].
        rewrite Hcount. split; [destruct b; lia|]. split.
        -- rewrite <- app_assoc. f_equal. destruct b; [done|].
           by rewrite Z.add_0_r.
        -- intros Hkept Hpend. destruct (Hdur Hkept Hpend) as [Hk Hp].
           exact (Hdur' Hk Hp).
      * destruct H as (Hbad & Hout & Hpre & Hdur').
        split; [|split; [|split]].
        -- intros [Hacc' Hfr']. apply Hbad.
           split; [by inversion Hacc'|by destruct Hfr'].
        -- etransitivity; [|exact Hout]. by apply prefix_app_r.
        -- etransitivity; [apply after_entry_prefix|exact Hpre].
        -- intros Hkept Hpend. destruct (Hdur Hkept Hpend) as [Hk Hp].
           by apply Hdur'.
Qed.

End Entries.

(** ** The report, line by line *)

(** A line of the schema echo (line 189). *)
Definition schema_line (info : string * string * Z * Z) : string :=
  let '(name, type_, notnull, pk) := info in
  ("  " +:+ name +:+ ": " +:+ type_ +:+ ", notNull=" +:+ pretty notnull
     +:+ ", pk=" +:+ pretty pk) +:+ nl.

(** Lines 185-189 *)
Definition schema_lines : list string :=
  ((nl +:+ "=== Verifying Schema ===") +:+ nl)
  :: (schema_line <$>
        [("literal", "TEXT", 1, 1); ("grade", "INTEGER", 0, 0);
         ("strokeCount", "INTEGER", 0, 0); ("freq", "INTEGER", 0, 0);
         ("jlpt", "INTEGER", 0, 0)]).

(** Lines 199-202 *)
Definition statistics_lines (kanji_count readings_count meanings_count : Z) : list string :=
  [ (nl +:+ "=== Statistics ===") +:+ nl;
    ("  Kanji: " +:+ pretty kanji_count) +:+ nl;
    ("  Readings: " +:+ pretty readings_count) +:+ nl;
    ("  Meanings: " +:+ pretty meanings_count) +:+ nl ].

(** Lines 207-209 *)
Definition closing_lines (size : string) : list string :=
  [ (nl +:+ "✓ Database generated: " +:+ db_file) +:+ nl;
    ("  Size: " +:+ size +:+ " MB") +:+ nl;
    (nl +:+ "✓ Done! Copy this file to app/src/main/assets/kanjidic2.db") +:+ nl ].

Definition rows_in (T : string) (j : list entry) : Z := Z.of_nat (length (proj T j)).

Section ReportLines.

Variable getsize : node → Z.
Variable format_mb : Z → string.

Definition report_lines (d : DB) (j : list entry) : list string :=
  schema_lines
  ++ statistics_lines (rows_in "kanji" j) (rows_in "readings" j) (rows_in "meanings" j)
  ++ closing_lines (format_mb (getsize (File (Sqlite d)))).

Lemma report_eq F d out txn j :
  report getsize format_mb (st F d out txn j)
  = (Ok (), closed F d (out ++ report_lines d j) j).
Proof.
  unfold report, bind, print, print_end, query, close, st, closed.
  cbn [fs stdout conn journal view]. rewrite table_info_kanji.
  cbn [for_each bind print print_end fs stdout conn journal pass ret].
  unfold bind, print, print_end, pass, ret.
  cbn [fs stdout conn journal view]. rewrite lookup_insert_eq.
  rewrite !table_rows_db_from by table_name.
  unfold report_lines, schema_lines, statistics_lines, closing_lines, rows_in.
  cbn [fmap list_fmap schema_line].
  rewrite <- ?app_assoc. cbn [fs stdout conn journal app].
  rewrite <- ?app_assoc. cbn [app]. reflexivity.
Qed.

End ReportLines.

(** ** The tables after the loop *)

(** The text of the literal element of an entry (lines 111-115). *)
Definition literal_text (c : Element) : option string :=
  match find "literal" c with
  | None => None
  | Some lit => text lit
  end.

(** The readings and the meanings the script stores for an entry, without
    their numbers: those of the first group of an entry with a literal. *)
Definition entry_readings (c : Element) : list (list value) :=
  match literal_text c, first_group c with
  | Some t, Some g => findall "reading" g ≫= reading_payload t
  | _, _ => []
  end.

Definition entry_meanings (c : Element) : list (list value) :=
  match literal_text c, first_group c with
  | Some t, Some g => findall "meaning" g ≫= meaning_payload t
  | _, _ => []
  end.

Section Tables.

Variable py_int : string → option Z.

Lemma after_entry_accepted c j :
  accepted py_int c →
  after_entry py_int c j
  = match literal_text c, kanji_row_of py_int c with
    | Some t, Some row => children_rows c t (j ++ [("kanji", row)])
    | _, _ => j
    end.
Proof.
  intros Hacc. unfold after_entry, literal_text, kanji_row_of.
  destruct (find "literal" c) as [lit|] eqn:Hlit; [|done].
  destruct (Hacc lit Hlit) as ([t Ht] & (m & Hm & _) & _).
  by rewrite Ht, Hm.
Qed.

Lemma literal_text_row c :
  accepted py_int c → (is_Some (literal_text c) ↔ has_literal c).
Proof.
  intros Hacc. unfold literal_text, has_literal.
  destruct (find "literal" c) as [lit|] eqn:Hlit.
  - destruct (Hacc lit Hlit) as (Ht & _). split; [by eexists|done].
  - split; by intros [??].
Qed.

Lemma readings_after_entry c j :
  accepted py_int c →
  drop 1 <$> proj "readings" (after_entry py_int c j)
  = (drop 1 <$> proj "readings" j) ++ entry_readings c.
Proof.
  intros Hacc. rewrite after_entry_accepted by done. unfold entry_readings.
  pose proof (literal_text_row c Hacc) as Hlit.
  destruct (literal_text c) as [t|].
  2: { by rewrite app_nil_r. }
  destruct (has_literal_row py_int c Hacc) as [row ->]; [apply Hlit; by eexists|].
  unfold children_rows. destruct (first_group c) as [g|].
  - rewrite proj_append_rows_ne by done. rewrite payload_append_rows.
    rewrite proj_app, proj_cons_ne by done. by rewrite app_nil_r.
  - rewrite proj_app, proj_cons_ne by done. by rewrite !app_nil_r.
Qed.

Lemma meanings_after_entry c j :
  accepted py_int c →
  drop 1 <$> proj "meanings" (after_entry py_int c j)
  = (drop 1 <$> proj "meanings" j) ++ entry_meanings c.
Proof.
  intros Hacc. rewrite after_entry_accepted by done. unfold entry_meanings.
  pose proof (literal_text_row c Hacc) as Hlit.
  destruct (literal_text c) as [t|].
  2: { by rewrite app_nil_r. }
  destruct (has_literal_row py_int c Hacc) as [row ->]; [apply Hlit; by eexists|].
  unfold children_rows. destruct (first_group c) as [g|].
  - rewrite payload_append_rows. rewrite proj_append_rows_ne by done.
    rewrite proj_app, proj_cons_ne by done. by rewrite app_nil_r.
  - rewrite proj_app, proj_cons_ne by done. by rewrite !app_nil_r.
Qed.

Lemma numbered_after_entry c j :
  numbered (proj "readings" j) → numbered (proj "meanings" j) →
  numbered (proj "readings" (after_entry py_int c j)) ∧
  numbered (proj "meanings" (after_entry py_int c j)).
Proof.
  intros Hr Hm. unfold after_entry.
  destruct (find "literal" c) as [lit|]; [|done].
  destruct (text lit) as [t|]; [|done].
  destruct (read_misc py_int c) as [m|]; [|done].
  unfold children_rows. destruct (first_group c) as [g|].
  - split.
    + rewrite proj_append_rows_ne by done. apply numbered_append_rows.
      rewrite proj_app, proj_cons_ne by done. by rewrite app_nil_r.
    + apply numbered_append_rows. rewrite proj_append_rows_ne by done.
      rewrite proj_app, proj_cons_ne by done. by rewrite app_nil_r.
  - rewrite !proj_app, !proj_cons_ne by done. by rewrite !app_nil_r.
Qed.

Lemma other_after_entry T c j :
  T ≠ "kanji" → T ≠ "readings" → T ≠ "meanings" →
  proj T (after_entry py_int c j) = proj T j.
Proof.
  intros H1 H2 H3. unfold after_entry.
  destruct (find "literal" c) as [lit|]; [|done].
  destruct (text lit) as [t|]; [|done].
  destruct (read_misc py_int c) as [m|]; [|done].
  unfold children_rows. destruct (first_group c) as [g|].
  - rewrite !proj_append_rows_ne by done.
    rewrite proj_app, proj_cons_ne by done. by rewrite app_nil_r.
  - rewrite proj_app, proj_cons_ne by done. by rewrite app_nil_r.
Qed.

Lemma readings_after_entries l : ∀ j,
  Forall (accepted py_int) l →
  drop 1 <$> proj "readings" (after_entries py_int l j)
  = (drop 1 <$> proj "readings" j) ++ (l ≫= entry_readings).
Proof.
  induction l as [|c l IH]; intros j Hacc; simpl; [by rewrite app_nil_r|].
  inversion Hacc; subst. rewrite IH, readings_after_entry by done.
  by rewrite <- app_assoc.
Qed.

Lemma meanings_after_entries l : ∀ j,
  Forall (accepted py_int) l →
  drop 1 <$> proj "meanings" (after_entries py_int l j)
  = (drop 1 <$> proj "meanings" j) ++ (l ≫= entry_meanings).
Proof.
  induction l as [|c l IH]; intros j Hacc; simpl; [by rewrite app_nil_r|].
  inversion Hacc; subst. rewrite IH, meanings_after_entry by done.
  by rewrite <- app_assoc.
Qed.

Lemma numbered_after_entries l : ∀ j,
  numbered (proj "readings" j) → numbered (proj "meanings" j) →
  numbered (proj "readings" (after_entries py_int l j)) ∧
  numbered (proj "meanings" (after_entries py_int l j)).
Proof.
  induction l as [|c l IH]; intros j Hr Hm; simpl; [done|].
  destruct (numbered_after_entry c j Hr Hm). by apply IH.
Qed.

Lemma other_after_entries T l : ∀ j,
  T ≠ "kanji" → T ≠ "readings" → T ≠ "meanings" →
  proj T (after_entries py_int l j) = proj T j.
Proof.
  induction l as [|c l IH]; intros j H1 H2 H3; simpl; [done|].
  rewrite IH by done. by apply other_after_entry.
Qed.

Lemma kanji_after_entries l : ∀ j,
  proj "kanji" (after_entries py_int l j)
  = proj "kanji" j ++ omap (kanji_row_of py_int) l.
Proof.
  induction l as [|c l IH]; intros j; simpl; [by rewrite app_nil_r|].
  change (list_omap _ _ ?f ?l) with (omap f l).
  rewrite IH, proj_kanji_after_entry, <- app_assoc.
  by destruct (kanji_row_of py_int c).
Qed.

Lemma after_entries_prefix l : ∀ j, j `prefix_of` after_entries py_int l j.
Proof.
  induction l as [|c l IH]; intros j; simpl; [done|].
  etransitivity; [apply after_entry_prefix|apply IH].
Qed.

Lemma length_kanji_rows l :
  Forall (accepted py_int) l →
  length (omap (kanji_row_of py_int) l) = count_literals l.
Proof.
  intros H. symmetry. unfold count_literals.
  eapply Forall2_length, accepted_rows, H.
Qed.

(** Under the conditions of [accepted], every entry finds the table without
    its literal exactly when the literals are pairwise different. *)
Lemma all_unseen_NoDup l : ∀ j,
  Forall (accepted py_int) l →
  all_unseen py_int l j ↔
  NoDup (omap literal_text l) ∧
  ∀ t, t ∈ omap literal_text l → Text t ∉ cell 0 <$> proj "kanji" j.
Proof.
  induction l as [|c l IH]; intros j Hacc.
  - simpl. split; [|done]. intros _. split; [constructor|].
    by intros t ?%elem_of_nil.
  - inversion Hacc as [|?? Hc Hl]; subst. cbn [all_unseen omap list_omap].
    change (list_omap _ _ ?f ?l) with (omap f l).
    rewrite (IH _ Hl). rewrite proj_kanji_after_entry.
    destruct (find "literal" c) as [lit|] eqn:Hlit.
    2: { assert (literal_text c = None) as -> by (unfold literal_text; by rewrite Hlit).
         assert (kanji_row_of py_int c = None) as ->
           by (unfold kanji_row_of; by rewrite Hlit).
         simpl. rewrite app_nil_r. split; [by intros [_ ?]|].
         intros ?. split; [|done]. intros ??. by rewrite Hlit. }
    destruct (Hc lit Hlit) as ([t Ht] & (m & Hm & _) & _).
    assert (literal_text c = Some t) as -> by (unfold literal_text; by rewrite Hlit).
    assert (kanji_row_of py_int c = Some (kanji_row t m)) as ->
      by (unfold kanji_row_of; by rewrite Hlit, Ht, Hm).
    assert (cell 0 (kanji_row t m) = Text t) as Hcell by (by destruct m as [[[??]?]?]).
    assert (unseen c j ↔ Text t ∉ cell 0 <$> proj "kanji" j) as ->.
    { unfold unseen. rewrite Hlit. split.
      - intros H. by apply (H lit t).
      - intros H ?? [= <-]. rewrite Ht. by intros [= <-]. }
    simpl. rewrite fmap_app. simpl. rewrite Hcell. split.
    + intros (Hfr & Hnd & Hnot). split.
      * constructor; [|done]. intros Hin. apply (Hnot t Hin).
        apply elem_of_app. right. left.
      * intros t' [->|Hin]%elem_of_cons; [done|].
        intros H. apply (Hnot t' Hin). apply elem_of_app. by left.
    + intros [Hnd Hnot]. inversion Hnd as [|?? Hnin Hnd']; subst.
      split; [|split; [done|]].
      * apply Hnot. left.
      * intros t' Hin [H|H]%elem_of_app.
        -- apply (Hnot t'); [by right|done].
        -- apply list_elem_of_singleton in H. injection H as ->. done.
Qed.

End Tables.

(** ** Whole runs, in full *)

Lemma kept_ddl_db : kept ddl_db room_rows.
Proof.
  intros T. assert (table_rows T ddl_db = []) as ->; [|apply prefix_nil].
  unfold table_rows, ddl_db. cbn [tables].
  repeat (rewrite lookup_insert; case_decide; [done|]).
  by rewrite lookup_empty.
Qed.

Lemma pending_ddl_db : pending ddl_db room_rows = 0.
Proof. reflexivity. Qed.

(** The lines printed up to the loop. *)
Definition opening_lines (xml : string) : list string :=
  [generating_line xml; "✓ Tables created" +:+ nl; "Parsing XML..." +:+ nl].

(** Lines 175 and 182 *)
Definition total_lines (count : Z) : list string :=
  [(nl +:+ "✓ Processed " +:+ pretty count +:+ " kanji total") +:+ nl;
   "✓ Metadata added" +:+ nl].

Section Whole.

Variable py_int : string → option Z.
Variable getsize : node → Z.
Variable format_mb : Z → string.

Local Abbreviation run := (run py_int getsize format_mb).

(** The rows of a completed run on the entries [l]. *)
Definition loaded (l : list Element) : list entry :=
  after_entries py_int l room_rows ++ metadata_rows.

(** The console of a completed run on the entries [l]. *)
Definition console (xml : string) (l : list Element) : list string :=
  opening_lines xml
  ++ progress_lines 0 (count_literals l)
  ++ total_lines (Z.of_nat (count_literals l))
  ++ report_lines getsize format_mb (db_from (loaded l)) (loaded l).

Lemma run_no_document argv files xml e :
  argv !! 1%nat = Some xml → is_Some (files !! xml) → files !! db_file ≠ Some Dir →
  document files xml = Raise e →
  run argv files = (Raise e, st files ddl_db (opening_lines xml) true room_rows).
Proof.
  intros Harg Hsome Hdir Hdoc. rewrite (run_build _ _ _ _ _ xml) by done.
  unfold build, bind. rewrite populate_st by done.
  rewrite parse_of_st, Hdoc. reflexivity.
Qed.

Lemma run_document argv files xml root :
  argv !! 1%nat = Some xml → document files xml = Ok root →
  files !! db_file ≠ Some Dir →
  let l := findall "character" root in
  match (run argv files).1 with
  | Ok _ =>
      Forall (accepted py_int) l ∧ all_unseen py_int l room_rows ∧
      (run argv files).2 = closed files (db_from (loaded l)) (console xml l) (loaded l)
  | Raise e =>
      ¬ (Forall (accepted py_int) l ∧ all_unseen py_int l room_rows) ∧
      ∃ d out txn j,
        (run argv files).2 = st files d out txn j ∧
        opening_lines xml `prefix_of` out ∧ room_rows `prefix_of` j ∧
        kept d j ∧ 0 ≤ pending d j ≤ 100
  end.
Proof.
  intros Harg Hdoc Hdir l. destruct (document_ok _ _ _ Hdoc) as [Hne Hxml].
  rewrite (run_build _ _ _ _ _ xml) by done.
  unfold build, bind. rewrite populate_st by done.
  rewrite parse_of_st, Hdoc. fold l.
  destruct (characters_ends py_int l 0 files ddl_db
              ([generating_line xml; "✓ Tables created" +:+ nl] ++ ["Parsing XML..." +:+ nl])
              true room_rows) as (d' & out' & txn' & j' & Hs & HP).
  destruct (for_each_with l 0 _ _) as [[count|e] s']; simpl in Hs; subst s'.
  - cbn [journal stdout st]. rewrite report_eq. cbn [fst snd].
    destruct HP as (Hacc & Hfr & -> & -> & -> & _).
    split; [done|]. split; [done|]. rewrite Z.add_0_l.
    unfold console, loaded, opening_lines, total_lines.
    rewrite <- !app_assoc. reflexivity.
  - cbn [fst snd]. destruct HP as (Hbad & Hout & Hpre & Hdur).
    split; [done|]. exists d', out', txn', j'. split; [done|].
    split; [done|]. split; [done|].
    apply Hdur; [apply kept_ddl_db|reflexivity].
Qed.

(** The ways a run can go. *)
Lemma run_cases argv files (P : res unit * State → Prop) :
  ((length argv < 2)%nat →
     P (Raise (SystemExit 1), mkState files [usage_line] None [])) →
  (∀ xml, argv !! 1%nat = Some xml → files !! xml = None →
     P (Raise (SystemExit 1), mkState files [not_found_line xml] None [])) →
  (∀ xml, argv !! 1%nat = Some xml → is_Some (files !! xml) →
     files !! db_file = Some Dir →
     P (Raise IsADirectoryError, mkState files [generating_line xml] None [])) →
  (∀ xml e, argv !! 1%nat = Some xml → is_Some (files !! xml) →
     files !! db_file ≠ Some Dir → document files xml = Raise e →
     P (Raise e, st files ddl_db (opening_lines xml) true room_rows)) →
  (∀ xml root, argv !! 1%nat = Some xml → document files xml = Ok root →
     files !! db_file ≠ Some Dir → P (run argv files)) →
  P (run argv files).
Proof.
  intros H1 H2 H3 H4 H5.
  destruct (decide (length argv < 2)%nat) as [Hlen|Hlen].
  { rewrite run_no_argument by done. auto. }
  destruct (argv !! 1%nat) as [xml|] eqn:Harg.
  2: { apply lookup_ge_None in Harg. lia. }
  destruct (files !! xml) as [n|] eqn:Hxml.
  2: { rewrite (run_not_found _ _ _ _ _ xml) by done. auto. }
  assert (files !! db_file = Some Dir ∨ files !! db_file ≠ Some Dir) as [Hdir|Hdir].
  { destruct (files !! db_file) as [[c|]|]; auto. }
  { rewrite (run_output_is_directory _ _ _ _ _ xml) by done. apply H3; auto. }
  destruct (document files xml) as [root|e] eqn:Hdoc.
  - by apply (H5 xml root).
  - rewrite (run_no_document _ _ xml e) by done. apply H4; auto.
Qed.

End Whole.

Lemma st_delete F d out txn j :
  st (delete db_file F) d out txn j = st F d out txn j.
Proof. unfold st. by rewrite insert_delete_eq. Qed.

Lemma table_rows_ddl_db T : table_rows T ddl_db = [].
Proof.
  unfold table_rows, ddl_db. cbn [tables].
  repeat (rewrite lookup_insert; case_decide; [done|]).
  by rewrite lookup_empty.
Qed.

Section Completed.

Variable py_int : string → option Z.
Variable getsize : node → Z.
Variable format_mb : Z → string.

Local Abbreviation run := (run py_int getsize format_mb).
Local Abbreviation loaded := (loaded py_int).
Local Abbreviation console := (console py_int getsize format_mb).

(** A completed run, in full. *)
Lemma run_completed_full argv files :
  completed (run argv files) →
  ∃ xml root,
    argv !! 1%nat = Some xml ∧ document files xml = Ok root ∧
    files !! db_file ≠ Some Dir ∧
    characters_of argv files = findall "character" root ∧
    Forall (accepted py_int) (findall "character" root) ∧
    all_unseen py_int (findall "character" root) room_rows ∧
    run argv files
    = (Ok (), closed files (db_from (loaded (findall "character" root)))
                (console xml (findall "character" root))
                (loaded (findall "character" root))).
Proof.
  apply (run_cases py_int getsize format_mb argv files
           (λ x, completed x → ∃ xml root, _ ∧ _ ∧ _ ∧ _ ∧ _ ∧ _ ∧ x = _));
    try (intros; by exfalso).
  intros xml root Harg Hdoc Hdir Hc. exists xml, root.
  pose proof (run_document py_int getsize format_mb argv files xml root Harg Hdoc Hdir) as H.
  cbn zeta in H. unfold completed in Hc.
  destruct (run argv files) as [[[]|e] s]; [|done]. cbn [fst snd] in H.
  destruct H as (Hacc & Hfr & ->).
  repeat (split; [done|]). split; [|done].
  unfold characters_of. by rewrite Harg, Hdoc.
Qed.

Lemma completed_result_is_file argv files d :
  completed (run argv files) → result_db (run argv files) d →
  d = db_from (loaded (characters_of argv files)).
Proof.
  intros Hc Hdb.
  destruct (run_completed_full argv files Hc)
    as (xml & root & _ & _ & _ & -> & _ & _ & Hrun).
  rewrite Hrun in Hdb. destruct Hdb as [[_ Hf]|(c & [=] & _)].
  cbn [snd closed fs] in Hf. rewrite lookup_insert_eq in Hf. congruence.
Qed.

End Completed.

(** ** What a run stores, prints and leaves behind *)

Section Extras.

Variable py_int : string → option Z.
Variable getsize : node → Z.
Variable format_mb : Z → string.

Local Abbreviation run := (run py_int getsize format_mb).

(** X1. After a completed run the readings table holds, in document order,
    one row for every reading element of type ja_on or ja_kun in the first
    group of every entry with a literal, made of the literal, the type and
    the text of the element, and nothing else; the rows are numbered 1, 2,
    3 and so on in that order. *)
Theorem readings_table_in_document_order argv files d :
  completed (run argv files) → result_db (run argv files) d →
  numbered (table_rows "readings" d) ∧
  drop 1 <$> table_rows "readings" d = characters_of argv files ≫= entry_readings.
Proof.
  intros Hc Hdb.
  rewrite (completed_result_is_file py_int getsize format_mb argv files d Hc Hdb).
  destruct (run_completed_full py_int getsize format_mb argv files Hc)
    as (xml & root & _ & _ & _ & -> & Hacc & _ & _).
  rewrite table_rows_db_from by table_name. unfold loaded.
  rewrite proj_app. change (proj "readings" metadata_rows) with (@nil (list value)).
  rewrite app_nil_r. split.
  - by apply numbered_after_entries.
  - by rewrite readings_after_entries.
Qed.

(** X2. After a completed run the meanings table holds, in document order,
    one row for every meaning element without m_lang attribute in the first
    group of every entry with a literal, made of the literal and the text of
    the element, and nothing else; the rows are numbered 1, 2, 3 and so on
    in that order. *)
Theorem meanings_table_in_document_order argv files d :
  completed (run argv files) → result_db (run argv files) d →
  numbered (table_rows "meanings" d) ∧
  drop 1 <$> table_rows "meanings" d = characters_of argv files ≫= entry_meanings.
Proof.
  intros Hc Hdb.
  rewrite (completed_result_is_file py_int getsize format_mb argv files d Hc Hdb).
  destruct (run_completed_full py_int getsize format_mb argv files Hc)
    as (xml & root & _ & _ & _ & -> & Hacc & _ & _).
  rewrite table_rows_db_from by table_name. unfold loaded.
  rewrite proj_app. change (proj "meanings" metadata_rows) with (@nil (list value)).
  rewrite app_nil_r. split.
  - by apply numbered_after_entries.
  - by rewrite meanings_after_entries.
Qed.

(** X3. The two rows of the metadata table are written at the very end: the
    database of a completed run holds exactly the version row and the
    initialization row, in this order, and the database of a run that stopped
    before holds no metadata row. *)
Theorem metadata_written_last argv files d :
  result_db (run argv files) d →
  (completed (run argv files) →
   table_rows "dictionary_metadata" d
   = [ [Text "kanjidic2_version"; Text "2025-01"];
       [Text "dictionary_initialized"; Text "true"] ]) ∧
  (¬ completed (run argv files) → table_rows "dictionary_metadata" d = []).
Proof.
  intros Hdb. split.
  - intros Hc.
    rewrite (completed_result_is_file py_int getsize format_mb argv files d Hc Hdb).
    rewrite table_rows_db_from by table_name. unfold loaded.
    rewrite proj_app, other_after_entries by done. reflexivity.
  - revert Hdb. unfold result_db.
    destruct (run_outcome py_int getsize format_mb argv files)
      as [?|xml ??|xml ???|xml e out Harg ? Hdoc|xml root es e d' out txn Harg Hdoc Hsegs ?
         |xml root es out Harg Hdoc Hsegs ? ?]; cbn [fst snd];
      intros [[Hc _]|(c & Hconn & Hv)] Hnc; try done.
    + injection Hconn as <-. by subst d.
    + injection Hconn as <-. subst d. cbn [view].
      rewrite table_rows_db_from by table_name.
      change (proj "dictionary_metadata" (room_rows ++ es) = []).
      rewrite proj_app, (proj_metadata_domain es); [done|].
      by eapply segments_domain.
Qed.

(** X5. What a completed run prints: the three opening lines, a progress
    line for every hundredth entry with a literal, the count of the entries
    with a literal, the metadata line, the five columns of the kanji table,
    the sizes of the kanji, readings and meanings tables (the number of
    entries with a literal, and the numbers of readings and meanings stored
    for them), and the three closing lines with the size of the output
    file. *)
Theorem console_of_completed_run argv files :
  completed (run argv files) →
  ∃ xml d,
    argv !! 1%nat = Some xml ∧
    fs (run argv files).2 !! db_file = Some (File (Sqlite d)) ∧
    let l := characters_of argv files in
    let n := count_literals l in
    stdout (run argv files).2
    = opening_lines xml
      ++ (progress_line <$> filter (λ m, m `mod` 100 = 0) (Z.of_nat <$> seq 1 n))
      ++ total_lines (Z.of_nat n)
      ++ schema_lines
      ++ statistics_lines (Z.of_nat n)
           (Z.of_nat (length (l ≫= entry_readings)))
           (Z.of_nat (length (l ≫= entry_meanings)))
      ++ closing_lines (format_mb (getsize (File (Sqlite d)))).
Proof.
  intros Hc.
  destruct (run_completed_full py_int getsize format_mb argv files Hc)
    as (xml & root & Harg & _ & _ & -> & Hacc & _ & ->).
  exists xml, (db_from (loaded py_int (findall "character" root))).
  split; [done|]. cbn [snd closed fs stdout]. split; [apply lookup_insert_eq|].
  cbn zeta. unfold console, report_lines, rows_in, loaded.
  rewrite progress_lines_filter.
  assert ((λ i : nat, 0 + 1 + Z.of_nat i) <$> seq 0 (count_literals (findall "character" root))
          = Z.of_nat <$> seq 1 (count_literals (findall "character" root))) as ->.
  { rewrite <- fmap_S_seq, <- list_fmap_compose. apply list_fmap_ext.
    intros _ i _. simpl. lia. }
  rewrite !proj_app, kanji_after_entries, length_app, length_app.
  rewrite (length_kanji_rows py_int _ Hacc).
  change (proj "kanji" room_rows) with (@nil (list value)).
  change (proj "kanji" metadata_rows) with (@nil (list value)).
  change (proj "readings" metadata_rows) with (@nil (list value)).
  change (proj "meanings" metadata_rows) with (@nil (list value)).
  rewrite !app_nil_r. cbn [length]. rewrite Nat.add_0_l, Nat.add_0_r.
  rewrite <- (length_fmap (drop 1) (proj "readings" _)), readings_after_entries by done.
  rewrite <- (length_fmap (drop 1) (proj "meanings" _)), meanings_after_entries by done.
  reflexivity.
Qed.

(** X6. A run that stops in an error with the connection open has lost at
    most what came after the last commit: table by table, the output file
    holds the first rows of what the connection held, and at most a hundred
    kanji rows are missing. *)
Theorem committed_rows_survive argv files e c :
  (run argv files).1 = Raise e → conn (run argv files).2 = Some c →
  ∃ d,
    fs (run argv files).2 !! db_file = Some (File (Sqlite d)) ∧
    (∀ T, table_rows T d `prefix_of` table_rows T (view c)) ∧
    (length (table_rows "kanji" (view c)) ≤ length (table_rows "kanji" d) + 100)%nat.
Proof.
  apply (run_cases py_int getsize format_mb argv files
           (λ x, x.1 = Raise e → conn x.2 = Some c → ∃ d, fs x.2 !! db_file = _ ∧ _ ∧ _));
    try (intros; simpl in *; congruence).
  - intros xml e' _ _ _ _ _ [= <-]. exists ddl_db.
    split; [apply lookup_insert_eq|]. cbn [view]. split; [apply kept_ddl_db|].
    rewrite table_rows_ddl_db. vm_compute. lia.
  - intros xml root Harg Hdoc Hdir Hr Hconn.
    pose proof (run_document py_int getsize format_mb argv files xml root Harg Hdoc Hdir) as H.
    cbn zeta in H. rewrite Hr in H.
    destruct H as (_ & d & out & txn & j & Hs & _ & _ & Hkept & Hpend).
    rewrite Hs in Hconn |- *. injection Hconn as <-. exists d.
    split; [apply lookup_insert_eq|]. cbn [view]. split; [exact Hkept|].
    rewrite table_rows_db_from by table_name. unfold pending in Hpend. lia.
Qed.

(** X7. When the output path is a directory, the run stops in an error
    after its first line, with exit status 1; no file is touched and no
    connection is opened. *)
Theorem output_path_is_a_directory argv files xml :
  argv !! 1%nat = Some xml → is_Some (files !! xml) → files !! db_file = Some Dir →
  ¬ completed (run argv files) ∧
  exit_status (run argv files).1 = 1 ∧
  fs (run argv files).2 = files ∧
  stdout (run argv files).2 = [generating_line xml] ∧
  conn (run argv files).2 = None.
Proof.
  intros Harg Hsome Hdir.
  rewrite (run_output_is_directory _ _ _ _ _ xml) by done.
  unfold completed. simpl. auto.
Qed.

(** X8. When the argument names the output file itself, the input is lost:
    the file is removed and made anew as a database before it is read, the
    run stops in a parse error, and what is left is a database with the five
    tables of the schema and no row. *)
Theorem input_is_the_output_file argv files c :
  argv !! 1%nat = Some db_file → files !! db_file = Some (File c) →
  (run argv files).1 = Raise ParseError ∧
  fs (run argv files).2 !! db_file = Some (File (Sqlite ddl_db)) ∧
  ∀ T, table_rows T ddl_db = [].
Proof.
  intros Harg Hfile.
  assert (document files db_file = Raise ParseError) as Hdoc.
  { unfold document. by rewrite decide_True. }
  assert (is_Some (files !! db_file)) as Hsome by (by rewrite Hfile).
  assert (files !! db_file ≠ Some Dir) as Hdir by (by rewrite Hfile).
  rewrite (run_no_document py_int getsize format_mb argv files db_file ParseError
             Harg Hsome Hdir Hdoc).
  split; [done|]. split; [apply lookup_insert_eq|apply table_rows_ddl_db].
Qed.

(** X10. What the output file held before the run is of no consequence:
    started with a file of any content at the output path, a run on an
    existing input ends as it does when started with no file there, with the
    same result, the same console and the same files. *)
Theorem old_output_ignored argv files xml c :
  argv !! 1%nat = Some xml → xml ≠ db_file → is_Some (files !! xml) →
  run argv (<[db_file := File c]> files) = run argv (delete db_file files).
Proof.
  intros Harg Hne Hsome.
  rewrite (run_build _ _ _ _ _ xml); [|done| |].
  2: { by rewrite lookup_insert_ne. }
  2: { by rewrite lookup_insert_eq. }
  rewrite (run_build _ _ _ _ (delete db_file files) xml); [|done| |].
  2: { by rewrite lookup_delete_ne. }
  2: { by rewrite lookup_delete_eq. }
  by rewrite st_insert, st_delete.
Qed.

(** X12. The document is read only after the output file has been made
    anew: when the argument names something that is no XML document, the run
    stops in an error with exit status 1 after printing its three opening
    lines, and the output file is a database with the five tables of the
    schema and no row, whatever it held before. *)
Theorem document_checked_late argv files xml :
  argv !! 1%nat = Some xml → is_Some (files !! xml) →
  files !! db_file ≠ Some Dir →
  (∀ root, files !! xml ≠ Some (File (Xml root))) →
  ¬ completed (run argv files) ∧
  exit_status (run argv files).1 = 1 ∧
  stdout (run argv files).2 = opening_lines xml ∧
  fs (run argv files).2 !! db_file = Some (File (Sqlite ddl_db)) ∧
  ∀ T, table_rows T ddl_db = [].
Proof.
  intros Harg Hsome Hdir Hno.
  destruct (document files xml) as [root|e] eqn:Hdoc.
  { apply document_ok in Hdoc as [_ Hxml]. by destruct (Hno root). }
  rewrite (run_no_document py_int getsize format_mb argv files xml e) by done.
  unfold completed. cbn [fst snd st fs stdout].
  split; [auto|]. split.
  - apply document_uncaught in Hdoc. by destruct e.
  - split; [done|]. split; [apply lookup_insert_eq|apply table_rows_ddl_db].
Qed.

(** X13. After a completed run the kanji table holds, in document order,
    one row for every entry with a literal and nothing else: the text of the
    literal and the four fields of the misc block as integers, NULL for a field
    that is not there or when there is no misc block. *)
Theorem kanji_table_in_document_order argv files d :
  completed (run argv files) → result_db (run argv files) d →
  table_rows "kanji" d = omap (kanji_row_of py_int) (characters_of argv files).
Proof.
  intros Hc Hdb.
  rewrite (completed_result_is_file py_int getsize format_mb argv files d Hc Hdb).
  rewrite table_rows_db_from by table_name. unfold loaded.
  rewrite proj_app, kanji_after_entries. apply app_nil_r.
Qed.

End Extras.

(** ** Runs to try these on *)

(** An entry with a reading that is kept and has no text. *)
Definition fire : Element :=
  group "character"
    [ leaf "literal" ∅ "火";
      group "reading_meaning" [ group "rmgroup" [ mute_reading ] ] ].

(** A run that stops in its second entry. *)
Definition fire_run : res unit * State := run_on "kanjidic2.xml" [water; fire].

Definition fire_conn : Conn :=
  {| path := db_file;
     view := db_from (room_rows ++ water_rows
                      ++ [("kanji", [Text "火"; Null; Null; Null; Null])]);
     in_transaction := true |}.

(** A directory where the output file goes. *)
Definition taken_files : gmap string node := <[db_file := Dir]> water_files.

(** The document under the name of the output file. *)
Definition same_argv : list string := argv_of db_file.
Definition same_files : gmap string node := files_of db_file [water].

(** A file that is no XML document. *)
Definition text_files : gmap string node := {[ "kanjidic2.xml" := File Other ]}.

Lemma readings_table_in_document_order_witness :
  completed water_run ∧ result_db water_run water_db ∧
  (numbered (table_rows "readings" water_db) ∧
   drop 1 <$> table_rows "readings" water_db
   = characters_of water_argv water_files ≫= entry_readings).
Proof.
  split; [exact water_run_completed|]. split; [exact water_run_db|].
  exact (readings_table_in_document_order py_int_ascii no_size no_format
           water_argv water_files water_db water_run_completed water_run_db).
Defined.

Lemma meanings_table_in_document_order_witness :
  completed water_run ∧ result_db water_run water_db ∧
  (numbered (table_rows "meanings" water_db) ∧
   drop 1 <$> table_rows "meanings" water_db
   = characters_of water_argv water_files ≫= entry_meanings).
Proof.
  split; [exact water_run_completed|]. split; [exact water_run_db|].
  exact (meanings_table_in_document_order py_int_ascii no_size no_format
           water_argv water_files water_db water_run_completed water_run_db).
Defined.

Lemma metadata_written_last_witness :
  result_db water_run water_db ∧
  ((completed water_run →
    table_rows "dictionary_metadata" water_db
    = [ [Text "kanjidic2_version"; Text "2025-01"];
        [Text "dictionary_initialized"; Text "true"] ]) ∧
   (¬ completed water_run → table_rows "dictionary_metadata" water_db = [])).
Proof.
  split; [exact water_run_db|].
  exact (metadata_written_last py_int_ascii no_size no_format
           water_argv water_files water_db water_run_db).
Defined.

Lemma console_of_completed_run_witness :
  completed water_run ∧
  ∃ xml d,
    water_argv !! 1%nat = Some xml ∧
    fs water_run.2 !! db_file = Some (File (Sqlite d)) ∧
    let l := characters_of water_argv water_files in
    let n := count_literals l in
    stdout water_run.2
    = opening_lines xml
      ++ (progress_line <$> filter (λ m, m `mod` 100 = 0) (Z.of_nat <$> seq 1 n))
      ++ total_lines (Z.of_nat n)
      ++ schema_lines
      ++ statistics_lines (Z.of_nat n)
           (Z.of_nat (length (l ≫= entry_readings)))
           (Z.of_nat (length (l ≫= entry_meanings)))
      ++ closing_lines (no_format (no_size (File (Sqlite d)))).
Proof.
  split; [exact water_run_completed|].
  exact (console_of_completed_run py_int_ascii no_size no_format
           water_argv water_files water_run_completed).
Defined.

Lemma fire_run_stops :
  fire_run.1 = Raise (IntegrityError "NOT NULL constraint failed: readings.reading").
Proof. vm_compute. reflexivity. Defined.

Lemma fire_run_conn : conn fire_run.2 = Some fire_conn.
Proof. vm_compute. reflexivity. Defined.

Lemma committed_rows_survive_witness :
  fire_run.1 = Raise (IntegrityError "NOT NULL constraint failed: readings.reading") ∧
  conn fire_run.2 = Some fire_conn ∧
  ∃ d,
    fs fire_run.2 !! db_file = Some (File (Sqlite d)) ∧
    (∀ T, table_rows T d `prefix_of` table_rows T (view fire_conn)) ∧
    (length (table_rows "kanji" (view fire_conn)) ≤ length (table_rows "kanji" d) + 100)%nat.
Proof.
  split; [exact fire_run_stops|]. split; [exact fire_run_conn|].
  exact (committed_rows_survive py_int_ascii no_size no_format
           (argv_of "kanjidic2.xml") (files_of "kanjidic2.xml" [water; fire])
           _ fire_conn fire_run_stops fire_run_conn).
Defined.

Lemma water_argument : water_argv !! 1%nat = Some "kanjidic2.xml".
Proof. reflexivity. Defined.

Lemma taken_input : is_Some (taken_files !! "kanjidic2.xml").
Proof. exists (File (Xml (group "kanjidic2" [water]))). vm_compute. reflexivity. Defined.

Lemma taken_output : taken_files !! db_file = Some Dir.
Proof. vm_compute. reflexivity. Defined.

Lemma output_path_is_a_directory_witness :
  water_argv !! 1%nat = Some "kanjidic2.xml" ∧
  is_Some (taken_files !! "kanjidic2.xml") ∧
  taken_files !! db_file = Some Dir ∧
  (¬ completed (run py_int_ascii no_size no_format water_argv taken_files) ∧
   exit_status (run py_int_ascii no_size no_format water_argv taken_files).1 = 1 ∧
   fs (run py_int_ascii no_size no_format water_argv taken_files).2 = taken_files ∧
   stdout (run py_int_ascii no_size no_format water_argv taken_files).2
   = [generating_line "kanjidic2.xml"] ∧
   conn (run py_int_ascii no_size no_format water_argv taken_files).2 = None).
Proof.
  split; [exact water_argument|]. split; [exact taken_input|].
  split; [exact taken_output|].
  exact (output_path_is_a_directory py_int_ascii no_size no_format
           water_argv taken_files "kanjidic2.xml"
           water_argument taken_input taken_output).
Defined.

Lemma same_argument : same_argv !! 1%nat = Some db_file.
Proof. reflexivity. Defined.

Lemma same_input :
  same_files !! db_file = Some (File (Xml (group "kanjidic2" [water]))).
Proof. vm_compute. reflexivity. Defined.

Lemma input_is_the_output_file_witness :
  same_argv !! 1%nat = Some db_file ∧
  same_files !! db_file = Some (File (Xml (group "kanjidic2" [water]))) ∧
  ((run py_int_ascii no_size no_format same_argv same_files).1 = Raise ParseError ∧
   fs (run py_int_ascii no_size no_format same_argv same_files).2 !! db_file
   = Some (File (Sqlite ddl_db)) ∧
   ∀ T, table_rows T ddl_db = []).
Proof.
  split; [exact same_argument|]. split; [exact same_input|].
  exact (input_is_the_output_file py_int_ascii no_size no_format
           same_argv same_files _ same_argument same_input).
Defined.

Lemma input_is_not_output : "kanjidic2.xml" ≠ db_file.
Proof. intros H. vm_compute in H. discriminate H. Defined.

Lemma water_input : is_Some (water_files !! "kanjidic2.xml").
Proof. exists (File (Xml (group "kanjidic2" [water]))). vm_compute. reflexivity. Defined.

Lemma old_output_ignored_witness :
  water_argv !! 1%nat = Some "kanjidic2.xml" ∧
  "kanjidic2.xml" ≠ db_file ∧
  is_Some (water_files !! "kanjidic2.xml") ∧
  run py_int_ascii no_size no_format water_argv (<[db_file := File Other]> water_files)
  = run py_int_ascii no_size no_format water_argv (delete db_file water_files).
Proof.
  split; [exact water_argument|]. split; [exact input_is_not_output|].
  split; [exact water_input|].
  exact (old_output_ignored py_int_ascii no_size no_format
           water_argv water_files "kanjidic2.xml" Other
           water_argument input_is_not_output water_input).
Defined.

Lemma text_input : is_Some (text_files !! "kanjidic2.xml").
Proof. exists (File Other). vm_compute. reflexivity. Defined.

Lemma text_output : text_files !! db_file ≠ Some Dir.
Proof. intros H. vm_compute in H. discriminate H. Defined.

Lemma text_is_no_document root :
  text_files !! "kanjidic2.xml" ≠ Some (File (Xml root)).
Proof. intros H. vm_compute in H. discriminate H. Defined.

Lemma document_checked_late_witness :
  water_argv !! 1%nat = Some "kanjidic2.xml" ∧
  is_Some (text_files !! "kanjidic2.xml") ∧
  text_files !! db_file ≠ Some Dir ∧
  (∀ root, text_files !! "kanjidic2.xml" ≠ Some (File (Xml root))) ∧
  (¬ completed (run py_int_ascii no_size no_format water_argv text_files) ∧
   exit_status (run py_int_ascii no_size no_format water_argv text_files).1 = 1 ∧
   stdout (run py_int_ascii no_size no_format water_argv text_files).2
   = opening_lines "kanjidic2.xml" ∧
   fs (run py_int_ascii no_size no_format water_argv text_files).2 !! db_file
   = Some (File (Sqlite ddl_db)) ∧
   ∀ T, table_rows T ddl_db = []).
Proof.
  split; [exact water_argument|]. split; [exact text_input|].
  split; [exact text_output|]. split; [exact text_is_no_document|].
  exact (document_checked_late py_int_ascii no_size no_format
           water_argv text_files "kanjidic2.xml"
           water_argument text_input text_output text_is_no_document).
Defined.

Lemma kanji_table_in_document_order_witness :
  completed water_run ∧ result_db water_run water_db ∧
  table_rows "kanji" water_db
  = omap (kanji_row_of py_int_ascii) (characters_of water_argv water_files).
Proof.
  split; [exact water_run_completed|]. split; [exact water_run_db|].
  exact (kanji_table_in_document_order py_int_ascii no_size no_format
           water_argv water_files water_db water_run_completed water_run_db).
Defined.

(** ** What the output file holds when a run stops *)

Lemma st_inj F d out txn j d' out' txn' j' :
  st F d out txn j = st F d' out' txn' j' →
  d = d' ∧ out = out' ∧ txn = txn' ∧ j = j'.
Proof.
  intros H.
  pose proof (f_equal stdout H) as Hout.
  pose proof (f_equal journal H) as Hj.
  pose proof (f_equal (λ s, fs s !! db_file) H) as Hf.
  pose proof (f_equal (λ s, in_transaction <$> conn s) H) as Ht.
  cbn [st stdout journal fs conn fmap option_fmap option_map in_transaction] in *.
  rewrite !lookup_insert_eq in Hf.
  injection Hf as Hd. injection Ht as Ht.
  split; [exact Hd|]. split; [exact Hout|]. split; [exact Ht|exact Hj].
Qed.

Lemma ends_and {A} F (x : res A * State)
    (P Q : res A → DB → list string → bool → list entry → Prop) :
  ends F x P → ends F x Q →
  ends F x (λ r d out txn j, P r d out txn j ∧ Q r d out txn j).
Proof.
  intros (d & out & txn & j & Hs & HP) (d' & out' & txn' & j' & Hs' & HQ).
  rewrite Hs in Hs'. apply st_inj in Hs' as (<- & <- & <- & <-).
  exists d, out, txn, j. done.
Qed.

(** The file holds the schema as it was committed before the first INSERT,
    or what has been stored up to some commit after Room's rows. *)
Definition committed_at (d : DB) (j : list entry) : Prop :=
  d = ddl_db ∨ ∃ j0, d = db_from j0 ∧ room_rows `prefix_of` j0 ∧ j0 `prefix_of` j.

Lemma committed_at_prefix d j j' :
  committed_at d j → j `prefix_of` j' → committed_at d j'.
Proof.
  intros [->|(j0 & -> & H0 & H1)] Hpre; [by left|].
  right. exists j0. split; [done|]. split; [done|]. by etransitivity.
Qed.

Section Commits.

Variable py_int : string → option Z.

(** The loop leaves the file at one of its commits. *)
Lemma characters_committed (l : list Element) : ∀ n F d out txn j,
  room_rows `prefix_of` j → committed_at d j →
  ends F (for_each_with l n (process_character py_int) (st F d out txn j))
    (λ r d' out' txn' j', committed_at d' j' ∧ j `prefix_of` j').
Proof.
  induction l as [|c l IH]; intros n F d out txn j Hroom Hd.
  - by apply ends_here.
  - cbn [for_each_with]. eapply ends_bind; [apply process_character_ends| |].
    + cbn beta. intros e d' out' txn' j' (_ & _ & -> & _ & Hpre & _).
      split; [by eapply committed_at_prefix|done].
    + cbn beta. intros n1 d1 out1 txn1 j1 (_ & _ & -> & Hstep).
      pose proof (after_entry_prefix py_int c j) as Hpre.
      assert (committed_at d1 (after_entry py_int c j)) as Hd1.
      { case_decide.
        - destruct Hstep as [_ Hstep]. case_decide.
          + destruct Hstep as (-> & _). right. exists (after_entry py_int c j).
            split; [done|]. split; [by etransitivity|done].
          + destruct Hstep as (-> & _). by eapply committed_at_prefix.
        - destruct Hstep as (_ & -> & _). by eapply committed_at_prefix. }
      eapply ends_mono; [apply IH; [by etransitivity|done]|]. cbn beta.
      intros r d' out' txn' j' [H1 H2]. split; [done|]. by etransitivity.
Qed.

(** With fewer than a hundred entries to count, the loop does not commit. *)
Lemma characters_no_commit (l : list Element) : ∀ n F d out txn j,
  0 ≤ n → n + Z.of_nat (count_literals l) < 100 →
  ends F (for_each_with l n (process_character py_int) (st F d out txn j))
    (λ r d' out' txn' j', d' = d).
Proof.
  induction l as [|c l IH]; intros n F d out txn j Hn Hlt.
  - by apply ends_here.
  - assert (count_literals (c :: l)
            = ((if decide (has_literal c) then 1 else 0) + count_literals l)%nat) as Hcount.
    { unfold count_literals. case_decide.
      - by rewrite filter_cons_True.
      - by rewrite filter_cons_False. }
    rewrite Hcount in Hlt.
    cbn [for_each_with]. eapply ends_bind; [apply process_character_ends| |].
    + cbn beta. intros e d' out' txn' j' (_ & _ & -> & _). done.
    + cbn beta. intros n1 d1 out1 txn1 j1 (_ & _ & _ & Hstep).
      assert (d1 = d ∧ 0 ≤ n1 ∧ n1 + Z.of_nat (count_literals l) < 100) as (-> & Hn1 & Hlt1).
      { destruct (decide (has_literal c)) as [Hl|Hl].
        - destruct Hstep as [-> Hstep]. rewrite decide_False in Hstep.
          + destruct Hstep as (-> & _). split; [done|lia].
          + rewrite Z.mod_small by lia. lia.
        - destruct Hstep as (-> & -> & _). split; [done|lia]. }
      by apply IH.
Qed.

End Commits.



Section Stopped.

Variable py_int : string → option Z.
Variable getsize : node → Z.
Variable format_mb : Z → string.

Local Abbreviation run := (run py_int getsize format_mb).

(** A run that ends with the connection open has stopped in an error after
    the schema was made; the file is at one of the commits, the first one
    when there are fewer than a hundred entries with a literal. *)
Lemma run_stopped argv files c :
  conn (run argv files).2 = Some c →
  ∃ xml e d out txn j,
    argv !! 1%nat = Some xml ∧ is_Some (files !! xml) ∧
    run argv files = (Raise e, st files d out txn j) ∧
    c = {| path := db_file; view := db_from j; in_transaction := txn |} ∧
    room_rows `prefix_of` j ∧ committed_at d j ∧
    ((count_literals (characters_of argv files) < 100)%nat → d = ddl_db).
Proof.
  apply (run_cases py_int getsize format_mb argv files
           (λ x, conn x.2 = Some c →
                 ∃ xml e d out txn j, _ ∧ _ ∧ x = _ ∧ _ ∧ _ ∧ _ ∧ _));
    try (intros; simpl in *; congruence).
  - intros xml e Harg Hsome _ _ [= <-].
    exists xml, e, ddl_db, (opening_lines xml), true, room_rows.
    repeat (split; [done|]). split; [by left|done].
  - intros xml root Harg Hdoc Hdir.
    destruct (document_ok _ _ _ Hdoc) as [Hne Hxml].
    assert (is_Some (files !! xml)) as Hsome by (by rewrite Hxml).
    assert (characters_of argv files = findall "character" root) as ->.
    { unfold characters_of. by rewrite Harg, Hdoc. }
    rewrite (run_build _ _ _ _ _ xml) by done.
    unfold build, bind. rewrite populate_st by done.
    rewrite parse_of_st, Hdoc.
    assert (ends files
              (for_each_with (findall "character" root) 0 (process_character py_int)
                 (st files ddl_db
                    ([generating_line xml; "✓ Tables created" +:+ nl]
                     ++ ["Parsing XML..." +:+ nl]) true room_rows))
              (λ r d' out' txn' j',
                 (committed_at d' j' ∧ room_rows `prefix_of` j') ∧
                 ((count_literals (findall "character" root) < 100)%nat → d' = ddl_db)))
      as (d' & out' & txn' & j' & Hs & [[Hc Hpre] Hno]).
    { apply ends_and.
      - apply characters_committed; [done|by left].
      - destruct (decide (count_literals (findall "character" root) < 100)%nat) as [Hlt|Hge].
        + eapply ends_mono; [apply characters_no_commit; lia|]. by intros.
        + eapply ends_mono; [apply (characters_committed py_int); [done|by left]|].
          cbn beta. intros. lia. }
    destruct (for_each_with _ 0 _ _) as [[count|e] s']; simpl in Hs; subst s'.
    + cbn [journal stdout st]. rewrite report_eq. simpl. congruence.
    + simpl. intros [= <-]. exists xml, e, d', out', txn', j'. done.
Qed.

Lemma stopped_file argv files c d :
  conn (run argv files).2 = Some c →
  fs (run argv files).2 !! db_file = Some (File (Sqlite d)) →
  view c = db_from (journal (run argv files).2) ∧
  committed_at d (journal (run argv files).2) ∧
  ((count_literals (characters_of argv files) < 100)%nat → d = ddl_db).
Proof.
  intros Hconn Hfile.
  destruct (run_stopped argv files c Hconn)
    as (xml & e & d' & out & txn & j & _ & _ & Hrun & -> & _ & Hc & Hno).
  rewrite Hrun in Hfile |- *. cbn [snd st fs journal view] in *.
  rewrite lookup_insert_eq in Hfile. injection Hfile as ->. done.
Qed.

End Stopped.

(** ** Room's tables, the misc fields and the schema, in the file and in
    the connection *)



(** Table [T] of [d] has the columns the script declares for it. *)
Definition declared (d : DB) (T : string) : Prop :=
  columns <$> tables d !! T = Some (cols_of T).

(** [d] has the three indexes of lines 44, 55 and 65. *)
Definition indexed (d : DB) : Prop :=
  indexes d !! "index_kanji_freq" = Some ("kanji", "freq") ∧
  indexes d !! "index_readings_literal" = Some ("readings", "literal") ∧
  indexes d !! "index_meanings_literal" = Some ("meanings", "literal").

Lemma declared_db_from_table T j : T ∈ table_names → declared (db_from j) T.
Proof. intros HT. unfold declared. by rewrite lookup_db_from. Qed.

Lemma declared_ddl_db T :
  T ∈ table_names → T ≠ "room_master_table" → declared ddl_db T.
Proof.
  unfold table_names. rewrite !elem_of_cons, elem_of_nil.
  intros [->|[->|[->|[->|[->|[->|[]]]]]]] Hne; done.
Qed.

Lemma indexed_db_from j : indexed (db_from j).
Proof. done. Qed.

Lemma indexed_ddl_db : indexed ddl_db.
Proof. done. Qed.

Section Parsed.

Variable py_int : string → option Z.

(** A kanji row made from an entry of the document [root]: the text of
    its literal and, for each of the four fields, the integer read from the
    element's text when the element is there and NULL when it is not; every
    field element of the entry has text that [int] reads. *)
Definition parsed_row (root : Element) (row : list value) : Prop :=
  ∃ c lit t,
    c ∈ findall "character" root ∧
    find "literal" c = Some lit ∧ text lit = Some t ∧
    row = [Text t; stored py_int c "grade"; stored py_int c "stroke_count";
           stored py_int c "freq"; stored py_int c "jlpt"] ∧
    ∀ misc name elem,
      find "misc" c = Some misc → name ∈ field_names →
      find name misc = Some elem → is_Some (text elem ≫= py_int).

Lemma segments_parsed root j es :
  segments py_int j (findall "character" root) es →
  Forall (parsed_row root) (proj "kanji" es).
Proof.
  intros Hsegs.
  assert (Forall (λ e, e.1 = "kanji" → parsed_row root e.2) es) as HF.
  { eapply segments_Forall; [exact Hsegs|].
    intros j' c es' Hc [->|(lit & t & m & tail & Hlit & Ht & Hm & _ & -> & Htail)];
      [constructor|].
    constructor.
    - intros _. exists c, lit, t. do 3 (split; [done|]).
      by apply read_misc_ok.
    - eapply Forall_impl; [exact Htail|].
      intros e He%child_entry_not_kanji. done. }
  apply Forall_forall. intros row Hrow%elem_of_proj.
  rewrite Forall_forall in HF. by apply (HF _ Hrow).
Qed.

End Parsed.

Lemma Forall_prefix {A} (P : A → Prop) (l1 l2 : list A) :
  l1 `prefix_of` l2 → Forall P l2 → Forall P l1.
Proof. intros [k ->] H. by apply Forall_app in H as [? _]. Qed.

Section Revised.

Variable py_int : string → option Z.
Variable getsize : node → Z.
Variable format_mb : Z → string.

Local Abbreviation run := (run py_int getsize format_mb).

(** The kanji rows a run holds in its connection come from the entries of
    its document. *)
Lemma journal_parsed argv files xml root :
  argv !! 1%nat = Some xml → files !! xml = Some (File (Xml root)) →
  journal_shape py_int argv files (journal (run argv files).2) →
  Forall (parsed_row py_int root) (proj "kanji" (journal (run argv files).2)).
Proof.
  intros Harg Hxml (es & meta & -> & Hsegs & Hmeta).
  rewrite !proj_app. change (proj "kanji" room_rows) with (@nil (list value)).
  rewrite (proj_kanji_metadata meta Hmeta), app_nil_l, app_nil_r.
  unfold characters_of in Hsegs. rewrite Harg in Hsegs.
  unfold document in Hsegs. case_decide.
  - inversion Hsegs; subst. constructor.
  - rewrite Hxml in Hsegs. simpl in Hsegs. by eapply segments_parsed.
Qed.


(** C8, amended.  An entry with a literal element whose misc block has, as
    the first element of one of the four names, an element with no text or
    with text that [int] refuses, ends the run in an error that nothing
    catches.  Every kanji row a run stores, whether the run completes or
    stops later, in the connection and in the output file, holds for each of
    the four fields of its entry the integer read from the element's text
    when the element is there and NULL when it is not; when a run completes,
    every entry with a literal has such a row, in document order. *)
Theorem misc_fields_parsed_or_fatal argv files xml root :
  argv !! 1%nat = Some xml → files !! xml = Some (File (Xml root)) →
  (∀ c misc name elem,
     c ∈ findall "character" root → has_literal c →
     find "misc" c = Some misc → name ∈ field_names → find name misc = Some elem →
     text elem ≫= py_int = None →
     ∃ e, (run argv files).1 = Raise e ∧ uncaught e ∧
          exit_status (run argv files).1 = 1) ∧
  (∀ d, result_db (run argv files) d →
     Forall (parsed_row py_int root) (table_rows "kanji" d)) ∧
  (∀ c d, conn (run argv files).2 = Some c →
     fs (run argv files).2 !! db_file = Some (File (Sqlite d)) →
     Forall (parsed_row py_int root) (table_rows "kanji" d)) ∧
  (completed (run argv files) →
     ∃ d, fs (run argv files).2 !! db_file = Some (File (Sqlite d)) ∧
       Forall2 (λ c row, ∃ lit t,
                  find "literal" c = Some lit ∧ text lit = Some t ∧
                  row = [Text t; stored py_int c "grade"; stored py_int c "stroke_count";
                         stored py_int c "freq"; stored py_int c "jlpt"] ∧
                  ∀ misc name elem,
                    find "misc" c = Some misc → name ∈ field_names →
                    find name misc = Some elem → is_Some (text elem ≫= py_int))
         (filter has_literal (findall "character" root)) (table_rows "kanji" d)).
Proof.
  intros Harg Hxml.
  assert (∀ d, result_db (run argv files) d →
            d = db_from (journal (run argv files).2) ∧
            Forall (parsed_row py_int root) (proj "kanji" (journal (run argv files).2)))
    as Hview.
  { intros d [-> Hshape]%run_result_db. split; [done|].
    by apply (journal_parsed argv files xml root). }
  split; [|split; [|split]].
  - intros c misc name elem Hc [lit Hlit] Hmisc Hname Helem Hbad.
    destruct (run_accepts py_int getsize format_mb argv files xml root Harg Hxml)
      as [(e & He & Hu)|[_ Hacc]].
    + exists e. split; [done|]. split; [done|].
      by eapply run_failed.
    + rewrite Forall_forall in Hacc.
      destruct (Hacc c Hc lit Hlit) as (_ & (m & Hm & _) & _).
      destruct (read_misc_bad py_int c misc name elem) as [e He]; try done.
      congruence.
  - intros d Hdb. destruct (Hview d Hdb) as [-> H].
    by rewrite table_rows_db_from by table_name.
  - intros c d Hconn Hfile.
    destruct (stopped_file py_int getsize format_mb argv files c d Hconn Hfile)
      as (Hv & [->|(j0 & -> & Hroom & Hpre)] & _).
    { rewrite table_rows_ddl_db. constructor. }
    destruct (Hview (view c)) as [_ H].
    { right. by exists c. }
    rewrite table_rows_db_from by table_name.
    eapply Forall_prefix; [|exact H]. by apply proj_prefix.
  - intros (xml' & root' & es & out & Harg' & _ & Hxml' & Hsegs & Hacc & Hrows & ->)
      %run_completed.
    assert (root' = root) as -> by congruence.
    exists (db_from (room_rows ++ es ++ metadata_rows)).
    split; [apply lookup_insert_eq|].
    rewrite table_rows_db_from by table_name.
    rewrite !proj_app, Hrows. change (proj "kanji" room_rows) with (@nil (list value)).
    change (proj "kanji" metadata_rows) with (@nil (list value)).
    rewrite app_nil_l, app_nil_r.
    eapply Forall2_impl; [apply accepted_rows, Hacc|].
    intros c row. unfold kanji_row_of.
    destruct (find "literal" c) as [lit|]; [|done].
    destruct (text lit) as [t|] eqn:Ht; [|done].
    destruct (read_misc py_int c) as [m|] eqn:Hm; [|done].
    intros [= <-]. exists lit, t. split; [done|]. split; [done|].
    by apply read_misc_ok.
Qed.

(** X4. A run completes only if the argument names a file other than the
    output file that holds an XML document, the output path is not a
    directory, every entry of the document has what the script needs (a
    literal with text, misc fields that are integers of at most 64 bits, text
    in every reading and meaning that is kept) and no two entries have the
    same literal. *)
Theorem run_completes_only_if argv files :
  completed (run argv files) →
  ∃ xml root,
    argv !! 1%nat = Some xml ∧ xml ≠ db_file ∧
    files !! xml = Some (File (Xml root)) ∧
    files !! db_file ≠ Some Dir ∧
    Forall (accepted py_int) (findall "character" root) ∧
    NoDup (omap literal_text (findall "character" root)).
Proof.
  intros Hc.
  destruct (run_completed_full py_int getsize format_mb argv files Hc)
    as (xml & root & Harg & Hdoc & Hdir & _ & Hacc & Hfr & _).
  destruct (document_ok _ _ _ Hdoc) as [Hne Hxml].
  exists xml, root. repeat (split; [done|]).
  by apply (all_unseen_NoDup py_int _ _ Hacc) in Hfr as [? _].
Qed.

(** X9. A run that completes leaves its input document as it was. *)
Theorem input_survives_completed_run argv files xml :
  completed (run argv files) → argv !! 1%nat = Some xml →
  fs (run argv files).2 !! xml = files !! xml.
Proof.
  intros Hc Harg.
  destruct (run_completed_full py_int getsize format_mb argv files Hc)
    as (xml' & root & Harg' & Hdoc & _ & _ & _ & _ & ->).
  assert (xml' = xml) as -> by congruence.
  destruct (document_ok _ _ _ Hdoc) as [Hne _].
  cbn [snd closed fs]. by rewrite lookup_insert_ne.
Qed.

(** X11. The schema in the output file does not depend on the document:
    after a completed run the file has the six tables of the script with the
    columns it declares and the three indexes on freq and on the literal of the
    readings and of the meanings; after a run that stops in an error with the
    connection open it has the indexes and these tables, but for Room's master
    table, which may be missing. *)
Theorem schema_tables_present argv files d :
  fs (run argv files).2 !! db_file = Some (File (Sqlite d)) →
  (completed (run argv files) →
     (∀ T, T ∈ table_names → declared d T) ∧ indexed d) ∧
  (is_Some (conn (run argv files).2) →
     (∀ T, T ∈ table_names → T ≠ "room_master_table" → declared d T) ∧ indexed d).
Proof.
  intros Hfile. split.
  - intros Hc.
    destruct (run_completed_full py_int getsize format_mb argv files Hc)
      as (xml & root & _ & _ & _ & _ & _ & _ & Hrun).
    rewrite Hrun in Hfile. cbn [snd closed fs] in Hfile.
    rewrite lookup_insert_eq in Hfile. injection Hfile as <-.
    split; [|apply indexed_db_from]. intros T HT. by apply declared_db_from_table.
  - intros [c Hconn].
    destruct (stopped_file py_int getsize format_mb argv files c d Hconn Hfile)
      as (_ & [->|(j0 & -> & _)] & _).
    + split; [|apply indexed_ddl_db]. intros T HT Hne. by apply declared_ddl_db.
    + split; [|apply indexed_db_from]. intros T HT _. by apply declared_db_from_table.
Qed.

End Revised.

(** ** Runs that stop, and what they leave *)

Lemma fire_run_file : fs fire_run.2 !! db_file = Some (File (Sqlite ddl_db)).
Proof. vm_compute. reflexivity. Defined.


Lemma fire_run_db : result_db fire_run (view fire_conn).
Proof. right. exists fire_conn. split; [exact fire_run_conn|reflexivity]. Defined.



Lemma misc_fields_parsed_or_fatal_witness :
  (∃ e, (run_on "kanjidic2.xml" [ungraded]).1 = Raise e ∧ uncaught e ∧
        exit_status (run_on "kanjidic2.xml" [ungraded]).1 = 1) ∧
  (result_db fire_run (view fire_conn) ∧
   Forall (parsed_row py_int_ascii (group "kanjidic2" [water; fire]))
     (table_rows "kanji" (view fire_conn))) ∧
  (conn fire_run.2 = Some fire_conn ∧
   fs fire_run.2 !! db_file = Some (File (Sqlite ddl_db)) ∧
   Forall (parsed_row py_int_ascii (group "kanjidic2" [water; fire]))
     (table_rows "kanji" ddl_db)) ∧
  (completed water_run ∧
   ∃ d, fs water_run.2 !! db_file = Some (File (Sqlite d)) ∧
     Forall2 (λ c row, ∃ lit t,
                find "literal" c = Some lit ∧ text lit = Some t ∧
                row = [Text t; stored py_int_ascii c "grade";
                       stored py_int_ascii c "stroke_count";
                       stored py_int_ascii c "freq"; stored py_int_ascii c "jlpt"] ∧
                ∀ misc name elem,
                  find "misc" c = Some misc → name ∈ field_names →
                  find name misc = Some elem → is_Some (text elem ≫= py_int_ascii))
       (filter has_literal (findall "character" (group "kanjidic2" [water])))
       (table_rows "kanji" d)).
Proof.
  split; [|split; [|split]].
  - refine (proj1 (misc_fields_parsed_or_fatal py_int_ascii no_size no_format
                     (argv_of "kanjidic2.xml") (files_of "kanjidic2.xml" [ungraded])
                     "kanjidic2.xml" (group "kanjidic2" [ungraded])
                     xml_argument (xml_file [ungraded]))
              ungraded (group "misc" [leaf "grade" ∅ "abc"]) "grade"
              (leaf "grade" ∅ "abc") _ _ _ _ _ _).
    + left.
    + vm_compute. by eexists.
    + vm_compute. reflexivity.
    + apply (bool_decide_unpack _). vm_compute. exact I.
    + vm_compute. reflexivity.
    + vm_compute. reflexivity.
  - split; [exact fire_run_db|].
    exact (proj1 (proj2 (misc_fields_parsed_or_fatal py_int_ascii no_size no_format
                           (argv_of "kanjidic2.xml")
                           (files_of "kanjidic2.xml" [water; fire])
                           "kanjidic2.xml" (group "kanjidic2" [water; fire])
                           xml_argument (xml_file [water; fire])))
             (view fire_conn) fire_run_db).
  - split; [exact fire_run_conn|]. split; [exact fire_run_file|].
    exact (proj1 (proj2 (proj2 (misc_fields_parsed_or_fatal py_int_ascii no_size no_format
                                  (argv_of "kanjidic2.xml")
                                  (files_of "kanjidic2.xml" [water; fire])
                                  "kanjidic2.xml" (group "kanjidic2" [water; fire])
                                  xml_argument (xml_file [water; fire]))))
             fire_conn ddl_db fire_run_conn fire_run_file).
  - split; [exact water_run_completed|].
    exact (proj2 (proj2 (proj2 (misc_fields_parsed_or_fatal py_int_ascii no_size no_format
                                  water_argv water_files "kanjidic2.xml"
                                  (group "kanjidic2" [water])
                                  xml_argument (xml_file [water]))))
             water_run_completed).
Defined.

Lemma run_completes_only_if_witness :
  completed water_run ∧
  ∃ xml root,
    water_argv !! 1%nat = Some xml ∧ xml ≠ db_file ∧
    water_files !! xml = Some (File (Xml root)) ∧
    water_files !! db_file ≠ Some Dir ∧
    Forall (accepted py_int_ascii) (findall "character" root) ∧
    NoDup (omap literal_text (findall "character" root)).
Proof.
  split; [exact water_run_completed|].
  exact (run_completes_only_if py_int_ascii no_size no_format
           water_argv water_files water_run_completed).
Defined.

Lemma input_survives_completed_run_witness :
  completed water_run ∧ water_argv !! 1%nat = Some "kanjidic2.xml" ∧
  fs water_run.2 !! "kanjidic2.xml" = water_files !! "kanjidic2.xml".
Proof.
  split; [exact water_run_completed|]. split; [exact water_argument|].
  exact (input_survives_completed_run py_int_ascii no_size no_format
           water_argv water_files "kanjidic2.xml" water_run_completed water_argument).
Defined.

Lemma fire_run_open : is_Some (conn fire_run.2).
Proof. exists fire_conn. exact fire_run_conn. Defined.

Lemma schema_tables_present_witness :
  (fs water_run.2 !! db_file = Some (File (Sqlite water_db)) ∧ completed water_run ∧
   (∀ T, T ∈ table_names → declared water_db T) ∧ indexed water_db) ∧
  (fs fire_run.2 !! db_file = Some (File (Sqlite ddl_db)) ∧ is_Some (conn fire_run.2) ∧
   (∀ T, T ∈ table_names → T ≠ "room_master_table" → declared ddl_db T) ∧
   indexed ddl_db).
Proof.
  split.
  - split; [exact water_run_file|]. split; [exact water_run_completed|].
    exact (proj1 (schema_tables_present py_int_ascii no_size no_format
                    water_argv water_files water_db water_run_file)
             water_run_completed).
  - split; [exact fire_run_file|]. split; [exact fire_run_open|].
    exact (proj2 (schema_tables_present py_int_ascii no_size no_format
                    (argv_of "kanjidic2.xml") (files_of "kanjidic2.xml" [water; fire])
                    ddl_db fire_run_file)
             fire_run_open).
Defined.
